(** * Citation / bibliography validation core: a shallow embedding

    Source files embedded here (hortensia-labs/theodore-popyto):
    - lib/components/crv/citation_patterns.py   (the pattern catalog)
    - lib/components/crv/extract_citations.py   (CitationExtractor)
    - lib/components/crv/process_bibliography.py (BibliographyProcessor)
    - lib/components/crv/validate_references.py (ReferenceValidator)

    Conventions.
    - A Python [str] is a list of Unicode code points ([list N]).
    - The character classes of [re] and [str] are tables of the Unicode
      database (version 14.0): whitespace ([\s], [str.strip]), decimal digits
      ([\d], [int]) and the letters that match an ASCII letter under
      [re.IGNORECASE] are written out for every code point.
      [unicodedata.normalize] and [str.lower] are written out for the Basic
      Latin and Latin-1 Supplement blocks only: [nfkc] and [py_lower] are exact
      on text whose code points are all below 256, and leave other code points
      unchanged, which Python does not always do. The statements about
      normal forms (Part XI) are therefore made for Latin-1 text, and for any
      normalisation that agrees with these tables there.
    - Python exceptions are values of [res]; a [try]/[except] is a [match].
    - The extraction confidence is computed by the source from float
      literals, and is modelled with binary64 floats. A match confidence is
      the quotient of two small integer counts ([2.0 * matches / length],
      [matches / len]): it is modelled by the exact rational, of which the
      Python float is the correctly rounded image; on such quotients the
      comparisons with each other and with the thresholds 0.7 and 0.8 read
      the same on the rationals as on the floats.
    - Logging and the running statistics counters do not influence any
      returned value and are left out. *)

From Stdlib Require Import String Ascii NArith ZArith QArith Qcanon Floats Lia.
From Stdlib Require DecimalString.
From stdpp Require Import gmap list sorting.

Set Warnings "-inexact-float".

Abbreviation str := (list N).

(* ===================================================================== *)
(** * Part I. Text: code points, Unicode tables, [str] methods           *)
(* ===================================================================== *)

Module Text.

Definition lit (x : string) : str := map N_of_ascii (list_ascii_of_string x).
Arguments lit x%_string : simpl never.

Definition between (lo hi c : N) : bool := ((lo <=? c) && (c <=? hi))%N.

(** [str.isspace] and the regular-expression class [\s] on [str] patterns. *)
Definition is_space (c : N) : bool :=
  between 9 13 c || between 28 32 c || (c =? 133)%N || (c =? 160)%N
  || (c =? 5760)%N || between 8192 8202 c || (c =? 8232)%N || (c =? 8233)%N
  || (c =? 8239)%N || (c =? 8287)%N || (c =? 12288)%N.

(** The code points of the digit zero of the 66 decimal number systems of
    Unicode 14.0 (general category Nd); the digits 1 to 9 of each follow its
    zero. *)
Definition decimal_zeros : list N :=
  [ 48; 1632; 1776; 1984; 2406; 2534; 2662; 2790; 2918; 3046; 3174; 3302; 3430; 3558;
    3664; 3792; 3872; 4160; 4240; 6112; 6160; 6470; 6608; 6784; 6800; 6992; 7088; 7232;
    7248; 42528; 43216; 43264; 43472; 43504; 43600; 44016; 65296; 66720; 68912; 69734;
    69872; 69942; 70096; 70384; 70736; 70864; 71248; 71360; 71472; 71904; 72016; 72784;
    73040; 73120; 92768; 92864; 93008; 120782; 120792; 120802; 120812; 120822; 123200;
    123632; 125264; 130032 ]%N.

(** The class [\d] on [str] patterns: the decimal digits of every script. *)
Definition is_digit (c : N) : bool :=
  existsb (fun zero => between zero (zero + 9) c) decimal_zeros.

(** The value of a decimal digit, as [int] reads it. *)
Definition digit_value (c : N) : Z :=
  match find (fun zero => between zero (zero + 9) c) decimal_zeros with
  | Some zero => Z.of_N (c - zero)
  | None => 0
  end.
Definition is_upper_az (c : N) : bool := between 65 90 c.
Definition is_lower_az (c : N) : bool := between 97 122 c.

(** Upper-case letters of Latin-1: A-Z, and U+00C0-U+00DE without U+00D7. *)
Definition is_upper (c : N) : bool :=
  between 65 90 c || (between 192 222 c && negb (c =? 215)%N).

(** The lower-case form of a code point below 256 (each is one code point);
    a code point from 256 on is returned as it is, whatever its lower-case
    form in Unicode. *)
Definition py_lower_char (c : N) : N := if is_upper c then (c + 32)%N else c.

(** [str.lower()], exact on text of code points below 256. *)
Definition py_lower (s : str) : str := map py_lower_char s.

(** [unicodedata.normalize('NFKC', chr(c))] for a code point below 256: the
    fourteen of them with a compatibility decomposition; precomposed accented
    letters are their own NFKC form. A code point from 256 on is returned as
    it is. *)
Definition nfkc_char (c : N) : str :=
  if (c =? 160)%N then [32]%N
  else if (c =? 168)%N then [32; 776]%N
  else if (c =? 170)%N then [97]%N
  else if (c =? 175)%N then [32; 772]%N
  else if (c =? 178)%N then [50]%N
  else if (c =? 179)%N then [51]%N
  else if (c =? 180)%N then [32; 769]%N
  else if (c =? 181)%N then [956]%N
  else if (c =? 184)%N then [32; 807]%N
  else if (c =? 185)%N then [49]%N
  else if (c =? 186)%N then [111]%N
  else if (c =? 188)%N then [49; 8260; 52]%N
  else if (c =? 189)%N then [49; 8260; 50]%N
  else if (c =? 190)%N then [51; 8260; 52]%N
  else [c].

(** [unicodedata.normalize('NFKC', s)], exact on text of code points below
    256: there the normal form is the concatenation of the forms of the code
    points (a combining mark only appears after the space of a
    decomposition, with which it does not compose). Text with code points
    from 256 on may be reordered and composed by Python, which this function
    does not do. *)
Fixpoint nfkc (s : str) : str :=
  match s with
  | [] => []
  | c :: t => nfkc_char c ++ nfkc t
  end.

(** [re.sub(r'\s+', ' ', text)]: every maximal run of whitespace becomes one
    space. [in_run] tells that the previous character was whitespace. *)
Fixpoint collapse_ws_aux (in_run : bool) (s : str) : str :=
  match s with
  | [] => []
  | c :: t =>
      if is_space c
      then (if in_run then collapse_ws_aux true t else 32%N :: collapse_ws_aux true t)
      else c :: collapse_ws_aux false t
  end.
Definition collapse_ws (s : str) : str := collapse_ws_aux false s.

(** [re.sub] of the class of the three dashes U+2013, U+2014 and U+2212 by
    the hyphen-minus. *)
Definition is_dash (c : N) : bool := (c =? 8211)%N || (c =? 8212)%N || (c =? 8722)%N.
Definition fix_dashes (s : str) : str := map (fun c => if is_dash c then 45%N else c) s.

Fixpoint lstrip (s : str) : str :=
  match s with
  | [] => []
  | c :: t => if is_space c then lstrip t else s
  end.
Definition rstrip (s : str) : str := reverse (lstrip (reverse s)).
(** [str.strip()]. *)
Definition strip (s : str) : str := rstrip (lstrip s).

Fixpoint starts_with (p s : str) : bool :=
  match p, s with
  | [], _ => true
  | _ :: _, [] => false
  | x :: p', y :: s' => (x =? y)%N && starts_with p' s'
  end.

(** [needle in hay]. *)
Fixpoint contains (needle hay : str) : bool :=
  starts_with needle hay ||
  match hay with
  | [] => false
  | _ :: t => contains needle t
  end.

(** [s.endswith(p)]. *)
Definition ends_with (p s : str) : bool := starts_with (reverse p) (reverse s).

Definition str_eqb (a b : str) : bool := bool_decide (a = b).

(** [s.split(c)] for a one-character separator: always at least one piece. *)
Fixpoint split_char (c : N) (s : str) : list str :=
  match s with
  | [] => [[]]
  | x :: t =>
      match split_char c t with
      | p :: ps => if (x =? c)%N then [] :: p :: ps else (x :: p) :: ps
      | [] => [[x]]
      end
  end.

(** [str(n)] for a non-negative integer. *)
Definition str_of_nat (n : nat) : str :=
  lit (DecimalString.NilZero.string_of_uint (Nat.to_uint n)).

(** [str(z)] for an integer. *)
Definition str_of_Z (z : Z) : str :=
  match z with
  | Zneg p => 45%N :: str_of_nat (Pos.to_nat p)
  | _ => str_of_nat (Z.to_nat z)
  end.

(** Truthiness of a string and of a list. *)
Definition nonempty {A} (l : list A) : bool := match l with [] => false | _ => true end.

End Text.
Export Text.

(** Exceptions as data. [exn_msg] is what [str(e)] gives. *)
Record exn := Exn { exn_kind : string; exn_msg : str }.

Inductive res (A : Type) : Type :=
| Ok (a : A)
| Raised (e : exn).
Arguments Ok {A} a.
Arguments Raised {A} e.

Definition rbind {A B} (x : res A) (f : A -> res B) : res B :=
  match x with
  | Ok a => f a
  | Raised e => Raised e
  end.

Notation "x <- e1 ;; e2" := (rbind e1 (fun x => e2))
  (at level 100, e1 at next level, right associativity).

(** A [for] loop whose body may raise: the exception leaves the loop. *)
Fixpoint for_each {A S : Type} (l : list A) (body : A -> S -> res S) (s : S) : res S :=
  match l with
  | [] => Ok s
  | x :: t => s' <- body x s ;; for_each t body s'
  end.

(** [enumerate(l, 1)]. *)
Definition enumerate1 {A : Type} (l : list A) : list (nat * A) :=
  zip (seq 1 (length l)) l.

(* ===================================================================== *)
(** * Part II. The [re] module: a backtracking matcher                    *)
(* ===================================================================== *)

(** Patterns are abstract syntax; the matcher explores alternatives in the
    order of Python's engine (leftmost start, first alternative first, greedy
    repetitions longest first, lazy ones shortest first), so that spans and
    groups are those of [re]. *)
Module Re.

Inductive regex : Type :=
| Eps
| Cls (p : N -> bool)
| Seq (a b : regex)
| Alt (a b : regex)
| Rep (lo : nat) (hi : option nat) (greedy : bool) (a : regex)
| Grp (i : nat) (a : regex)
| Bol
| Eol.

Record cursor := Cursor { pos : nat; rest : str }.

Definition caps := gmap nat (nat * nat).
Definition outcome := option (nat * caps).

Definition below (n : nat) (hi : option nat) : bool :=
  match hi with None => true | Some h => n <? h end.

Fixpoint run (r : regex) (c : cursor) (g : caps)
    (k : cursor -> caps -> outcome) {struct r} : outcome :=
  match r with
  | Eps => k c g
  | Cls p =>
      match rest c with
      | x :: t => if p x then k (Cursor (S (pos c)) t) g else None
      | [] => None
      end
  | Seq a b => run a c g (fun c' g' => run b c' g' k)
  | Alt a b =>
      match run a c g k with
      | Some o => Some o
      | None => run b c g k
      end
  | Rep lo hi greedy a =>
      (fix loop (fuel n : nat) (c : cursor) (g : caps) {struct fuel} : outcome :=
         let stop := if lo <=? n then k c g else None in
         let more :=
           match fuel with
           | O => None
           | S fuel' =>
               if below n hi
               then run a c g (fun c' g' =>
                      if (lo <=? n) && (pos c' =? pos c) then None
                      else loop fuel' (S n) c' g')
               else None
           end in
         if greedy
         then match more with Some o => Some o | None => stop end
         else match stop with Some o => Some o | None => more end)
        (lo + length (rest c) + 1) 0 c g
  | Grp i a => run a c g (fun c' g' => k c' (<[i := (pos c, pos c')]> g'))
  | Bol => if pos c =? 0 then k c g else None
  | Eol => match rest c with
           | [] => k c g
           | [x] => if (x =? 10)%N then k c g else None
           | _ => None
           end
  end.

Definition at_cursor (r : regex) (c : cursor) : outcome :=
  run r c ∅ (fun c' g' => Some (pos c', g')).

(** A match object: the subject, the span of group 0, the spans of the groups. *)
Record mtch := Mtch { m_string : str; m_start : nat; m_end : nat; m_caps : caps }.

(** [s[i:j]]. *)
Definition slice (s : str) (i j : nat) : str := take (j - i) (drop i s).

Definition group0 (m : mtch) : str := slice (m_string m) (m_start m) (m_end m).

(** [m.group(i)]: [None] when the group did not take part in the match. *)
Definition group (m : mtch) (i : nat) : option str :=
  match m_caps m !! i with
  | Some (a, b) => Some (slice (m_string m) a b)
  | None => None
  end.

Fixpoint ngroups (r : regex) : nat :=
  match r with
  | Seq a b | Alt a b => Nat.max (ngroups a) (ngroups b)
  | Rep _ _ _ a => ngroups a
  | Grp i a => Nat.max i (ngroups a)
  | _ => 0
  end.

(** [m.groups()]. *)
Definition groups (r : regex) (m : mtch) : list (option str) :=
  map (group m) (seq 1 (ngroups r)).

Fixpoint scan (r : regex) (s : str) (p : nat) (t : str) {struct t} : option mtch :=
  match at_cursor r (Cursor p t) with
  | Some (e, g) => Some (Mtch s p e g)
  | None => match t with
            | [] => None
            | _ :: t' => scan r s (S p) t'
            end
  end.

Definition search_from (r : regex) (s : str) (p : nat) : option mtch :=
  scan r s p (drop p s).

(** [re.search(r, s)]. *)
Definition search (r : regex) (s : str) : option mtch := search_from r s 0.

(** [re.match(r, s)]. *)
Definition match_ (r : regex) (s : str) : option mtch :=
  match at_cursor r (Cursor 0 s) with
  | Some (e, g) => Some (Mtch s 0 e g)
  | None => None
  end.

Definition found (o : option mtch) : bool := match o with Some _ => true | None => false end.

Fixpoint finditer_loop (fuel : nat) (r : regex) (s : str) (p : nat) : list mtch :=
  match fuel with
  | O => []
  | S fuel' =>
      if length s <? p then [] else
      match search_from r s p with
      | None => []
      | Some m =>
          m :: finditer_loop fuel' r s
                 (if m_end m =? m_start m then S (m_end m) else m_end m)
      end
  end.

(** [re.finditer(r, s)]: the non-overlapping matches, left to right. (No
    pattern of the source matches the empty string.) *)
Definition finditer (r : regex) (s : str) : list mtch :=
  finditer_loop (S (length s)) r s 0.

Fixpoint pieces (s : str) (p : nat) (ms : list mtch) : list str :=
  match ms with
  | [] => [drop p s]
  | m :: ms' => slice s p (m_start m) :: pieces s (m_end m) ms'
  end.

(** [re.split(r, s)] for a pattern without capturing groups. *)
Definition split (r : regex) (s : str) : list str := pieces s 0 (finditer r s).

Fixpoint sub_pieces (repl s : str) (p : nat) (ms : list mtch) : str :=
  match ms with
  | [] => drop p s
  | m :: ms' => slice s p (m_start m) ++ repl ++ sub_pieces repl s (m_end m) ms'
  end.

(** [re.sub(r, repl, s)] for a replacement text without group references. *)
Definition sub (r : regex) (repl s : str) : str := sub_pieces repl s 0 (finditer r s).

(** Pattern combinators, named after the syntax they stand for. *)
Definition chr (c : N) : regex := Cls (N.eqb c).
Definition any_of (l : str) : regex := Cls (fun c => bool_decide (c ∈ l)).
Definition none_of (l : str) : regex := Cls (fun c => negb (bool_decide (c ∈ l))).
Fixpoint word (s : str) : regex :=
  match s with
  | [] => Eps
  | [c] => chr c
  | c :: t => Seq (chr c) (word t)
  end.
Definition star (a : regex) : regex := Rep 0 None true a.
Definition plus (a : regex) : regex := Rep 1 None true a.
Definition opt (a : regex) : regex := Rep 0 (Some 1) true a.
Definition times (n : nat) (a : regex) : regex := Rep n (Some n) true a.
Definition lazy_plus (a : regex) : regex := Rep 1 None false a.
Fixpoint seqs (l : list regex) : regex :=
  match l with
  | [] => Eps
  | [a] => a
  | a :: t => Seq a (seqs t)
  end.
Definition ws : regex := Cls is_space.
Definition dig : regex := Cls is_digit.

End Re.

(* ===================================================================== *)
(** * Part III. [difflib.SequenceMatcher(None, a, b).ratio()]             *)
(* ===================================================================== *)

(** The standard library's matcher, as [_calculate_similarity] calls it: no
    junk function ([isjunk] is [None], so [bjunk] is empty and the two loops
    that absorb junk never run) and [autojunk] left at its default. *)
Module Difflib.

Fixpoint indices_from (x : N) (b : str) (j : nat) : list nat :=
  match b with
  | [] => []
  | y :: t => if (x =? y)%N then j :: indices_from x t (S j) else indices_from x t (S j)
  end.

(** The indices at which [x] occurs in [b], ascending: [b2j[x]] before the
    popular elements are purged. *)
Definition indices (b : str) (x : N) : list nat := indices_from x b 0.

(** [__chain_b]: with 200 elements or more, an element occurring more than
    [n // 100 + 1] times is popular and loses its entry of [b2j]. *)
Definition popular (b : str) (x : N) : bool :=
  (200 <=? length b) && (length b / 100 + 1 <? length (indices b x)).

(** [b2j.get(x, [])]. *)
Definition b2j (b : str) (x : N) : list nat :=
  if popular b x then [] else indices b x.

(** [besti, bestj, bestsize]. *)
Definition triple := (nat * nat * nat)%type.

(** [j2len.get(j - 1, 0)]; at [j = 0] the key is -1, never present. *)
Definition j2len_get (j2len : gmap nat nat) (j : nat) : nat :=
  match j with
  | O => 0
  | S j' => default 0 (j2len !! j')
  end.

(** The inner loop [for j in b2j.get(a[i], nothing)]. *)
Fixpoint inner (i blo bhi : nat) (js : list nat) (j2len newj2len : gmap nat nat)
    (best : triple) : gmap nat nat * triple :=
  match js with
  | [] => (newj2len, best)
  | j :: js' =>
      if j <? blo then inner i blo bhi js' j2len newj2len best
      else if bhi <=? j then (newj2len, best)
      else
        let k := j2len_get j2len j + 1 in
        let newj2len' := <[j := k]> newj2len in
        let best' := if best.2 <? k then (i + 1 - k, j + 1 - k, k) else best in
        inner i blo bhi js' j2len newj2len' best'
  end.

(** The outer loop [for i in range(alo, ahi)], over the elements [a[alo:ahi]]. *)
Fixpoint outer (b : str) (blo bhi : nat) (i : nat) (row : str)
    (j2len : gmap nat nat) (best : triple) : triple :=
  match row with
  | [] => best
  | x :: row' =>
      let '(newj2len, best') := inner i blo bhi (b2j b x) j2len ∅ best in
      outer b blo bhi (S i) row' newj2len best'
  end.

Definition same_at (a b : str) (i j : nat) : bool :=
  match a !! i, b !! j with
  | Some x, Some y => (x =? y)%N
  | _, _ => false
  end.

(** [while besti > alo and bestj > blo and a[besti-1] == b[bestj-1]]. *)
Fixpoint extend_left (fuel : nat) (a b : str) (alo blo : nat) (best : triple) : triple :=
  match fuel with
  | O => best
  | S fuel' =>
      let '(i, j, k) := best in
      if (alo <? i) && (blo <? j) && same_at a b (i - 1) (j - 1)
      then extend_left fuel' a b alo blo (i - 1, j - 1, k + 1)
      else best
  end.

(** [while besti+bestsize < ahi and bestj+bestsize < bhi and
       a[besti+bestsize] == b[bestj+bestsize]]. *)
Fixpoint extend_right (fuel : nat) (a b : str) (ahi bhi : nat) (best : triple) : triple :=
  match fuel with
  | O => best
  | S fuel' =>
      let '(i, j, k) := best in
      if (i + k <? ahi) && (j + k <? bhi) && same_at a b (i + k) (j + k)
      then extend_right fuel' a b ahi bhi (i, j, k + 1)
      else best
  end.

(** [find_longest_match(alo, ahi, blo, bhi)]. Each turn of the first loop
    lowers [besti], each turn of the second raises [besti + bestsize]: the
    fuel given is never used up. *)
Definition find_longest_match (a b : str) (alo ahi blo bhi : nat) : triple :=
  let best := outer b blo bhi alo (Re.slice a alo ahi) ∅ (alo, blo, 0) in
  let best := extend_left (best.1.1) a b alo blo best in
  extend_right ahi a b ahi bhi best.

Definition region := (nat * nat * nat * nat)%type.

(** The work list of [get_matching_blocks]: [queue.pop()] takes the region
    appended last, which is the head of the list here. [None] when the fuel
    runs out before the queue is empty. *)
Fixpoint blocks_loop (fuel : nat) (a b : str) (queue : list region)
    (matching_blocks : list triple) : option (list triple) :=
  match queue with
  | [] => Some matching_blocks
  | (alo, ahi, blo, bhi) :: queue' =>
      match fuel with
      | O => None
      | S fuel' =>
          let '(i, j, k) := find_longest_match a b alo ahi blo bhi in
          if 0 <? k then
            let q1 := if (alo <? i) && (blo <? j) then [(alo, i, blo, j)] else [] in
            let q2 := if (i + k <? ahi) && (j + k <? bhi) then [(i + k, ahi, j + k, bhi)] else [] in
            blocks_loop fuel' a b (q2 ++ q1 ++ queue') (matching_blocks ++ [(i, j, k)])
          else blocks_loop fuel' a b queue' matching_blocks
      end
  end.

(** The blocks in the order in which the loop appends them. Sorting them and
    merging adjacent ones, as [get_matching_blocks] does next, leaves the sum
    of their sizes unchanged, and the final sentinel has size 0. *)
Definition matching_blocks (a b : str) : option (list triple) :=
  blocks_loop (2 * length a + 2) a b [(0, length a, 0, length b)] [].

Definition sum_sizes (l : list triple) : nat := foldr (fun t acc => t.2 + acc) 0 l.

(** [sum(triple[-1] for triple in self.get_matching_blocks())]. The fuel of
    [matching_blocks] always suffices ([DifflibFacts.matching_blocks_total]). *)
Definition matches (a b : str) : nat :=
  match matching_blocks a b with
  | Some l => sum_sizes l
  | None => 0
  end.

Definition Qc_of_nats (p q : nat) : Qc := Q2Qc (Z.of_nat p # Pos.of_nat q).

(** [_calculate_ratio(matches, length)]. *)
Definition calculate_ratio (m length : nat) : Qc :=
  if 0 <? length then Qc_of_nats (2 * m) length else 1%Qc.

Definition ratio (a b : str) : Qc :=
  calculate_ratio (matches a b) (length a + length b).

End Difflib.

(** Comparisons of confidences. *)
Definition Qc_ltb (x y : Qc) : bool := (Qnum x * QDen y <? Qnum y * QDen x)%Z.
Definition Qc_max (x y : Qc) : Qc := if Qc_ltb x y then y else x.

(* ===================================================================== *)
(** * Part IV. citation_patterns.py and extract_citations.py              *)
(* ===================================================================== *)

Module ExtractCitations.
Import Re.

Inductive citation_type : Set :=
| parenthetical | narrative | with_pages | with_paragraph | multiple_years
| multiple_citations | quoted | personal_communication | secondary.

Definition citation_type_eqb (x y : citation_type) : bool :=
  match x, y with
  | parenthetical, parenthetical | narrative, narrative | with_pages, with_pages
  | with_paragraph, with_paragraph | multiple_years, multiple_years
  | multiple_citations, multiple_citations | quoted, quoted
  | personal_communication, personal_communication | secondary, secondary => true
  | _, _ => false
  end.

(** One rule of the catalog. [pattern] is [None] for a text that [re.compile]
    refuses. *)
Record pattern_info := PatternInfo {
  name : str;
  pattern : option regex;
  type_ : citation_type }.

(** ** The catalog [CITATION_PATTERNS] *)

(** [A-Za-z] with the accented letters, the hyphen and the apostrophe. *)
Definition accented : str := [193; 201; 205; 211; 218; 225; 233; 237; 243; 250; 241; 209]%N.
Definition name_char (c : N) : bool :=
  is_upper_az c || is_lower_az c || bool_decide (c ∈ accented) || (c =? 45)%N || (c =? 39)%N.
(** The same class with the comma, whitespace and the ampersand. *)
Definition names_char (c : N) : bool :=
  name_char c || (c =? 44)%N || is_space c || (c =? 38)%N.

(** [[A-Z][...]+(?:\s+[A-Z][...]+)*] *)
Definition cap_word : regex := Seq (Cls is_upper_az) (plus (Cls name_char)).
Definition NAME : regex := Seq cap_word (star (Seq (plus ws) cap_word)).
(** [\d{4}[a-z]?] *)
Definition YEAR : regex := Seq (times 4 dig) (opt (Cls is_lower_az)).
(** [\d+(?:-\d+)?] *)
Definition PAGES : regex := Seq (plus dig) (opt (Seq (chr 45) (plus dig))).
(** [[A-Z][...,\s&]+] *)
Definition NAMES : regex := Seq (Cls is_upper_az) (plus (Cls names_char)).
Definition comma_opt : regex := opt (chr 44).
Definition lpar : regex := chr 40.
Definition rpar : regex := chr 41.

Definition re_single_author : regex :=
  seqs [lpar; Grp 1 NAME; comma_opt; star ws; Grp 2 YEAR; rpar].
Definition re_two_authors : regex :=
  seqs [lpar; Grp 1 NAME; star ws; any_of (lit "&y"); star ws; Grp 2 NAME;
        comma_opt; star ws; Grp 3 YEAR; rpar].
Definition re_et_al : regex :=
  seqs [lpar; Grp 1 NAME; plus ws; word (lit "et"); plus ws; word (lit "al.");
        comma_opt; star ws; Grp 2 YEAR; rpar].
Definition re_narrative_single : regex :=
  seqs [Grp 1 NAME; plus ws; lpar; Grp 2 YEAR; rpar].
Definition re_narrative_two : regex :=
  seqs [Grp 1 NAME; plus ws; any_of (lit "yand&"); plus ws; Grp 2 NAME; plus ws;
        lpar; Grp 3 YEAR; rpar].
Definition re_narrative_et_al : regex :=
  seqs [Grp 1 NAME; plus ws; word (lit "et"); plus ws; word (lit "al."); plus ws;
        lpar; Grp 2 YEAR; rpar].
Definition re_with_page : regex :=
  seqs [lpar; Grp 1 NAMES; comma_opt; star ws; Grp 2 YEAR; comma_opt; star ws;
        chr 112; opt (chr 112); chr 46; star ws; Grp 3 PAGES; rpar].
(** [(?:para|párr?)] *)
Definition para : regex :=
  Alt (word (lit "para")) (seqs [chr 112; chr 225; chr 114; opt (chr 114)]).
Definition re_with_paragraph : regex :=
  seqs [lpar; Grp 1 NAMES; comma_opt; star ws; Grp 2 YEAR; comma_opt; star ws;
        para; chr 46; star ws; Grp 3 (plus dig); rpar].
Definition re_multiple_works_same_author : regex :=
  seqs [lpar; Grp 1 NAME; comma_opt; star ws;
        Grp 2 (Seq YEAR (plus (seqs [chr 44; star ws; YEAR]))); rpar].
Definition re_multiple_citations : regex :=
  seqs [lpar; Grp 1 (seqs [plus (none_of (lit ";")); chr 59; star ws; plus (none_of (lit ")"))]);
        rpar].
Definition re_quoted_with_citation : regex :=
  seqs [chr 34; plus (Cls (fun c => negb (c =? 34)%N)); chr 34; star ws;
        lpar; Grp 1 NAMES; comma_opt; star ws; Grp 2 YEAR; comma_opt; star ws;
        chr 112; opt (chr 112); chr 46; star ws; Grp 3 PAGES; rpar].
(** [comunicación] *)
Definition comunicacion : regex := Seq (word (lit "comunicaci")) (Seq (chr 243) (chr 110)).
Definition re_personal_communication : regex :=
  seqs [lpar; Grp 1 (seqs [Cls is_upper_az; chr 46; star ws; cap_word]); comma_opt; star ws;
        Alt (seqs [word (lit "personal"); plus ws; word (lit "communication")])
            (seqs [comunicacion; plus ws; word (lit "personal")]);
        comma_opt; star ws;
        Grp 2 (seqs [plus (Cls (fun c => is_upper_az c || is_lower_az c)); plus ws;
                     Rep 1 (Some 2) true dig; comma_opt; star ws; times 4 dig]);
        rpar].
Definition re_secondary_source : regex :=
  seqs [lpar; Grp 1 NAME; comma_opt; star ws; Grp 2 YEAR; comma_opt; star ws;
        Alt (seqs [word (lit "as"); plus ws; word (lit "cited"); plus ws; word (lit "in")])
            (seqs [word (lit "citado"); plus ws; word (lit "en")]);
        plus ws; Grp 3 NAME; comma_opt; star ws; Grp 4 YEAR; rpar].

Definition rule (n : string) (r : regex) (t : citation_type) : pattern_info :=
  PatternInfo (lit n) (Some r) t.

(** The categories in the order of the dict, each with its rules in order. *)
Definition CITATION_PATTERNS : list (str * list pattern_info) :=
  [ (lit "standard",
     [ rule "single_author" re_single_author parenthetical;
       rule "two_authors" re_two_authors parenthetical;
       rule "et_al" re_et_al parenthetical ]);
    (lit "narrative",
     [ rule "narrative_single" re_narrative_single narrative;
       rule "narrative_two" re_narrative_two narrative;
       rule "narrative_et_al" re_narrative_et_al narrative ]);
    (lit "with_pages",
     [ rule "with_page" re_with_page with_pages;
       rule "with_paragraph" re_with_paragraph with_paragraph ]);
    (lit "complex",
     [ rule "multiple_works_same_author" re_multiple_works_same_author multiple_years;
       rule "multiple_citations" re_multiple_citations multiple_citations;
       rule "quoted_with_citation" re_quoted_with_citation quoted ]);
    (lit "special",
     [ rule "personal_communication" re_personal_communication personal_communication;
       rule "secondary_source" re_secondary_source secondary ]) ].

(** ** The data model *)

Record sub_citation := SubCitation { sub_authors : list str; sub_year : str }.

(** The [normalized] dict: a field is [None] when the key is absent. The
    value under ['pages'] may itself be Python's [None]. *)
Record normalized_t := Normalized {
  authors : option (list str);
  year : option str;
  pages : option (option str);
  multiple : option (list sub_citation);
  original_author : option str;
  original_year : option str;
  cited_in_author : option str;
  cited_in_year : option str;
  additional : option (list str) }.

Definition empty_normalized : normalized_t :=
  Normalized None None None None None None None None None.

Record location_t := Location {
  file : str; line : nat; column : nat; context : str }.

(** [location] is [None] for the empty dict that [_parse_citation] leaves. *)
Record Citation := MkCitation {
  id : str;
  raw_text : str;
  normalized : normalized_t;
  location : option location_t;
  type : citation_type;
  confidence : float }.

(** ** Normalisation helpers *)

Definition _normalize_text (text : str) : str :=
  strip (fix_dashes (collapse_ws (nfkc text))).

Definition re_et_al_split : regex := seqs [plus ws; word (lit "et"); plus ws; word (lit "al.")].
Definition separators : list regex :=
  [ seqs [star ws; chr 38; star ws];
    seqs [plus ws; word (lit "and"); plus ws];
    seqs [plus ws; chr 121; plus ws];
    seqs [star ws; any_of (lit ",;"); star ws] ].

(** The loop over [separators]: the first separator found splits the text. *)
Fixpoint split_by_first (seps : list regex) (current_text : str) : option (list str) :=
  match seps with
  | [] => None
  | sep :: seps' =>
      if found (search sep current_text)
      then Some (filter (fun part => nonempty part = true) (map strip (split sep current_text)))
      else split_by_first seps' current_text
  end.

Definition _extract_authors (author_text : str) : list str :=
  let author_text := _normalize_text author_text in
  if contains (lit "et al.") author_text then
    let first_author := strip (hd [] (split re_et_al_split author_text)) in
    [first_author; lit "et al."]
  else
    match split_by_first separators author_text with
    | Some authors => authors
    | None => if nonempty (strip author_text) then [strip author_text] else []
    end.

(** A character [c] of a pattern compiled with [re.IGNORECASE], for the
    lower-case ASCII letters, digits and punctuation that the patterns of the
    source are made of: it matches [c], its upper-case letter, and the four
    letters outside ASCII whose simple lower-case form is an ASCII letter or
    that the engine treats as a variant of one: U+0130 and U+0131 for i,
    U+017F for s, U+212A for k. *)
Definition ci_matches (c x : N) : bool :=
  (x =? c)%N
  || (is_lower_az c && (x + 32 =? c)%N)
  || ((c =? 105)%N && ((x =? 304)%N || (x =? 305)%N))
  || ((c =? 115)%N && (x =? 383)%N)
  || ((c =? 107)%N && (x =? 8490)%N).
Definition ci (c : N) : regex := Cls (ci_matches c).
Fixpoint ci_word (s : str) : regex :=
  match s with
  | [] => Eps
  | [c] => ci c
  | c :: t => Seq (ci c) (ci_word t)
  end.
Definition re_in_press : regex :=
  Grp 1 (Alt (seqs [ci_word (lit "in"); plus ws; ci_word (lit "press")])
             (seqs [ci_word (lit "en"); plus ws; ci_word (lit "prensa")])).

Definition _extract_year (year_text : str) : str :=
  let year_text := strip year_text in
  if found (search re_in_press year_text) then lit "in press"
  else
    match search (Grp 1 YEAR) year_text with
    | Some m => default [] (group m 1)
    | None => year_text
    end.

Definition _extract_pages (page_text : str) : option str :=
  if negb (nonempty page_text) then None
  else
    let page_text := _normalize_text page_text in
    match search (Grp 1 PAGES) page_text with
    | Some m => Some (default [] (group m 1))
    | None => Some page_text
    end.

(** ** [_parse_citation] *)

(** [match_groups[i]]. *)
Definition getg (match_groups : list str) (i : nat) : res str :=
  match match_groups !! i with
  | Some g => Ok g
  | None => Raised (Exn "IndexError" (lit "tuple index out of range"))
  end.

(** [match_groups[i] if len(match_groups) > i else ""]. *)
Definition getg_or_empty (match_groups : list str) (i : nat) : str :=
  default [] (match_groups !! i).

(** [re.match(r'([^,]+),\s*(\d{4}[a-z]?)', cit.strip())] *)
Definition re_sub_citation : regex :=
  seqs [Grp 1 (plus (none_of (lit ","))); chr 44; star ws; Grp 2 YEAR].

Definition parse_sub_citation (cit : str) : option sub_citation :=
  match match_ re_sub_citation (strip cit) with
  | Some parts =>
      Some (SubCitation (_extract_authors (default [] (group parts 1)))
                        (_extract_year (default [] (group parts 2))))
  | None => None
  end.

Definition authors_year (a : list str) (y : str) : normalized_t :=
  Normalized (Some a) (Some y) None None None None None None None.

Definition parse_normalized (raw_text : str) (pattern_info : pattern_info)
    (match_groups : list str) : res normalized_t :=
  let citation_type := type_ pattern_info in
  let simple :=
    g0 <- getg match_groups 0 ;;
    Ok (authors_year (_extract_authors g0) (_extract_year (getg_or_empty match_groups 1))) in
  match citation_type with
  | parenthetical | narrative =>
      if contains (lit "et_al") (name pattern_info) then
        g0 <- getg match_groups 0 ;;
        g1 <- getg match_groups 1 ;;
        Ok (authors_year (_extract_authors g0) (_extract_year g1))
      else if contains (lit "two") (name pattern_info)
              || contains (lit "&") raw_text || contains (lit " y ") raw_text then
        if citation_type_eqb citation_type narrative && (3 <=? length match_groups) then
          g0 <- getg match_groups 0 ;;
          g1 <- getg match_groups 1 ;;
          g2 <- getg match_groups 2 ;;
          Ok (authors_year [g0; g1] (_extract_year g2))
        else simple
      else simple
  | with_pages =>
      g0 <- getg match_groups 0 ;;
      Ok (Normalized (Some (_extract_authors g0))
                     (Some (_extract_year (getg_or_empty match_groups 1)))
                     (Some (_extract_pages (getg_or_empty match_groups 2)))
                     None None None None None None)
  | multiple_citations =>
      g0 <- getg match_groups 0 ;;
      let citations := split (Seq (chr 59) (star ws)) g0 in
      Ok (Normalized None None None (Some (omap parse_sub_citation citations))
                     None None None None None)
  | secondary =>
      g0 <- getg match_groups 0 ;;
      g1 <- getg match_groups 1 ;;
      g2 <- getg match_groups 2 ;;
      g3 <- getg match_groups 3 ;;
      Ok (Normalized None None None None
                     (Some g0) (Some (_extract_year g1)) (Some g2) (Some (_extract_year g3)) None)
  | _ =>
      Ok (Normalized
            (match match_groups !! 0 with Some g0 => Some (_extract_authors g0) | None => None end)
            (match match_groups !! 1 with Some g1 => Some (_extract_year g1) | None => None end)
            None None None None None None
            (if 2 <? length match_groups then Some (drop 2 match_groups) else None))
  end.

(** [not normalized.get(key)] for the three keys the confidence reads. *)
Definition year_absent (n : normalized_t) : bool :=
  match year n with Some y => negb (nonempty y) | None => true end.
Definition authors_absent (n : normalized_t) : bool :=
  match authors n with Some a => negb (nonempty a) | None => true end.
Definition multiple_absent (n : normalized_t) : bool :=
  match multiple n with Some l => negb (nonempty l) | None => true end.

(** [max(0.1, confidence)]: the second argument when it is greater. *)
Definition py_max (x y : float) : float := if (x <? y)%float then y else x.

Definition calculate_confidence (n : normalized_t) : float :=
  let confidence := 1.0%float in
  let confidence := if year_absent n then (confidence - 0.3)%float else confidence in
  let confidence :=
    if authors_absent n && multiple_absent n then (confidence - 0.3)%float else confidence in
  py_max 0.1 confidence.

Definition _parse_citation (raw_text : str) (pattern_info : pattern_info)
    (match_groups : list str) : res Citation :=
  normalized <- parse_normalized raw_text pattern_info match_groups ;;
  Ok (MkCitation [] raw_text normalized None (type_ pattern_info)
                 (calculate_confidence normalized)).

(** ** [extract_from_file] *)

(** What [filepath.exists()] and [open(filepath).read()] find. *)
Inductive file_state : Type :=
| NoFile
| Unreadable
| Content (content : str).

(** [match.groups()] as a tuple of strings. No group of the catalog is
    optional; a group that took no part in a match is reported as an error
    rather than passed on as Python's [None]. *)
Fixpoint strings_of_groups (gs : list (option str)) : res (list str) :=
  match gs with
  | [] => Ok []
  | Some g :: t => l <- strings_of_groups t ;; Ok (g :: l)
  | None :: _ => Raised (Exn "TypeError" (lit "group did not participate"))
  end.

Section Extractor.

(** [hashlib.md5(content.encode()).hexdigest()], an arbitrary function. *)
Variable md5_hexdigest : str -> str.

Definition _generate_citation_id (text location : str) : str :=
  let content := text ++ lit "_" ++ location in
  take 12 (md5_hexdigest content).

(** [f"{filepath}:{line_num}:{match.start()}"] *)
Definition location_key (filepath : str) (line_num start : nat) : str :=
  filepath ++ lit ":" ++ str_of_nat line_num ++ lit ":" ++ str_of_nat start.

Definition same_place (existing citation : Citation) : bool :=
  match location existing, location citation with
  | Some l1, Some l2 =>
      str_eqb (raw_text existing) (raw_text citation)
      && (line l1 =? line l2) && (column l1 =? column l2)
  | _, _ => false
  end.

(** The body of the innermost loop, for one match of one rule on one line. *)
Definition visit_match (filepath : str) (pattern_info : pattern_info) (regex : regex)
    (line_num : nat) (line_text : str) (m : mtch) (file_citations : list Citation)
    : res (list Citation) :=
  let raw_text := group0 m in
  let start := Nat.max 0 (m_start m - 50) in
  let end_ := Nat.min (length line_text) (m_end m + 50) in
  let context := slice line_text start end_ in
  match_groups <- strings_of_groups (groups regex m) ;;
  citation <- _parse_citation raw_text pattern_info match_groups ;;
  let citation :=
    MkCitation
      (_generate_citation_id raw_text (location_key filepath line_num (m_start m)))
      (ExtractCitations.raw_text citation)
      (normalized citation)
      (Some (Location filepath line_num (m_start m + 1) context))
      (type citation)
      (confidence citation) in
  let duplicate := existsb (fun existing => same_place existing citation) file_citations in
  if negb duplicate then Ok (file_citations ++ [citation]) else Ok file_citations.

Definition visit_line (filepath : str) (pattern_info : pattern_info) (regex : regex)
    (numbered : nat * str) (file_citations : list Citation) : res (list Citation) :=
  for_each (finditer regex numbered.2)
    (visit_match filepath pattern_info regex numbered.1 numbered.2) file_citations.

Definition visit_pattern (filepath : str) (lines : list str) (pattern_info : pattern_info)
    (file_citations : list Citation) : res (list Citation) :=
  match pattern pattern_info with
  | None => Ok file_citations
  | Some regex =>
      for_each (enumerate1 lines) (visit_line filepath pattern_info regex) file_citations
  end.

Definition visit_category (filepath : str) (lines : list str)
    (category : str * list pattern_info) (file_citations : list Citation)
    : res (list Citation) :=
  for_each category.2 (visit_pattern filepath lines) file_citations.

(** [extract_from_file], over a catalog [patterns]. *)
Definition extract_from_file (patterns : list (str * list pattern_info))
    (filepath : str) (f : file_state) : res (list Citation) :=
  match f with
  | NoFile => Ok []
  | Unreadable => Ok []
  | Content content =>
      let lines := split_char 10 content in
      for_each patterns (visit_category filepath lines) []
  end.

(** [process_all_sections]: [sections] is [None] when the directory is
    missing, else the content files in sorted order. *)
Definition process_all_sections (patterns : list (str * list pattern_info))
    (sections : option (list (str * file_state))) : res (list Citation) :=
  match sections with
  | None => Raised (Exn "FileNotFoundError" (lit "Sections directory not found: sections"))
  | Some content_files =>
      for_each content_files
        (fun fp all_citations =>
           citations <- extract_from_file patterns fp.1 fp.2 ;;
           Ok (all_citations ++ citations)) []
  end.

End Extractor.

End ExtractCitations.

(* ===================================================================== *)
(** * Part V. process_bibliography.py                                     *)
(* ===================================================================== *)

Module ProcessBibliography.
Import Re.

Inductive entry_type : Set :=
| journal_article | book | book_chapter | web_resource | dissertation | thesis | unknown.

Inductive status_t : Set := valid | warning | invalid.

(** An author dict [{'last_name', 'initials', 'full'}]. *)
Record author := Author { last_name : str; initials : str; full : str }.

(** The [parsed] dict: a field is [None] when the key is absent; the values
    under ['year'] and ['title'] may be Python's [None]. *)
Record parsed_t := Parsed {
  authors : option (list author);
  year : option (option str);
  title : option (option str);
  journal : option str;
  volume : option str;
  issue : option str;
  pages : option str;
  doi : option str;
  publisher : option str;
  date : option str;
  url : option str }.

Definition empty_parsed : parsed_t :=
  Parsed None None None None None None None None None None None.

Record BibliographyEntry := MkEntry {
  id : str;
  raw_text : str;
  line_number : nat;
  parsed : parsed_t;
  type : entry_type;
  validation_status : status_t;
  errors : list str }.

(** ** Text helpers *)

Definition _normalize_text (text : str) : str :=
  let text := nfkc text in
  let text := collapse_ws text in
  let text := fix_dashes text in
  let text := filter (fun c => negb ((c =? 95)%N || (c =? 42)%N)) text in
  strip text.

(** [s.split(sep, 1)] with [sep] known to occur: the text before the first
    occurrence and the text after it. *)
Fixpoint split_once (sep s : str) : str * str :=
  if starts_with sep s then ([], drop (length sep) s)
  else match s with
       | [] => ([], [])
       | c :: t => let '(x, y) := split_once sep t in (c :: x, y)
       end.

(** The last piece of [s.split(sep)] for a non-empty [sep]: the text after
    the last occurrence of [sep], or all of [s]. [fuel] bounds the number of
    occurrences. *)
Fixpoint after_last (fuel : nat) (sep s : str) : str :=
  match fuel with
  | O => s
  | S fuel' =>
      if contains sep s then after_last fuel' sep (split_once sep s).2 else s
  end.

(** [s.rstrip('.')]. *)
Fixpoint lstrip_dots (s : str) : str :=
  match s with
  | [] => []
  | c :: t => if (c =? 46)%N then lstrip_dots t else s
  end.
Definition rstrip_dots (s : str) : str := reverse (lstrip_dots (reverse s)).

(** [[A-Z...a-z...\-\']] of [author_pattern]. *)
Definition author_char (c : N) : bool := ExtractCitations.name_char c.
Definition author_word : regex := plus (Cls author_char).
Definition author_pattern : regex :=
  seqs [Grp 1 (Seq author_word (star (Seq (plus ws) author_word)));
        chr 44; star ws;
        Grp 2 (Seq (Cls is_upper_az)
                   (star (seqs [chr 46; star ws; Cls is_upper_az; opt (chr 46)])))].

Definition YEAR : regex := ExtractCitations.YEAR.
(** [\(\d{4}[a-z]?\)] with the year as group 1. *)
Definition year_in_parens : regex := seqs [chr 40; Grp 1 YEAR; chr 41].

Definition _extract_authors (author_text : str) : list author :=
  let author_text := _normalize_text author_text in
  let author_text :=
    sub (seqs [chr 44; star ws; Grp 1 (Alt (chr 38) (chr 121)); star ws]) (lit " & ") author_text in
  let matches := finditer author_pattern author_text in
  if nonempty matches then
    map (fun m =>
           let g1 := default [] (group m 1) in
           let g2 := default [] (group m 2) in
           Author g1 g2 (g1 ++ lit ", " ++ g2)) matches
  else
    let parts := split (seqs [star ws; chr 38; star ws]) author_text in
    omap (fun part =>
            let part := strip part in
            if contains (lit ", ") part then
              let '(last_name, initials) := split_once (lit ", ") part in
              Some (Author last_name initials part)
            else if nonempty part then Some (Author part [] part)
            else None) parts.

Definition _extract_year (entry_text : str) : option str :=
  match search year_in_parens entry_text with
  | Some m => group m 1
  | None =>
      match search (seqs [chr 44; star ws; Grp 1 YEAR; any_of (lit ",.")]) entry_text with
      | Some m => group m 1
      | None => None
      end
  end.

Definition _extract_title (entry_text : str) : option str :=
  let text_after_year :=
    split (seqs [chr 40; YEAR; chr 41; opt (chr 46); star ws]) entry_text in
  match text_after_year with
  | _ :: remaining :: _ =>
      match match_ (seqs [Bol; Grp 1 (lazy_plus (none_of (lit "."))); chr 46;
                          Alt (Seq (plus ws) (Cls (fun c => is_upper_az c || (c =? 95)%N)))
                              (Seq (star ws) Eol)]) remaining with
      | Some m => Some (_normalize_text (default [] (group m 1)))
      | None =>
          match match_ (seqs [Bol; chr 95; Grp 1 (plus (none_of (lit "_"))); chr 95]) remaining with
          | Some m => Some (_normalize_text (default [] (group m 1)))
          | None => Some (_normalize_text (hd [] (split_char 46 remaining)))
          end
      end
  | _ => None
  end.

(** ** [_detect_entry_type] *)

(** [\(\d+\),\s*\d+-\d+] *)
Definition re_volume_issue_pages : regex :=
  seqs [chr 40; plus dig; chr 41; chr 44; star ws; plus dig; chr 45; plus dig].
(** [,\s*\d+\(\d+\)] *)
Definition re_volume_issue : regex :=
  seqs [chr 44; star ws; plus dig; chr 40; plus dig; chr 41].
(** [_[^_]+_] *)
Definition re_italics : regex := seqs [chr 95; plus (none_of (lit "_")); chr 95].
(** [\(\d+\)] *)
Definition re_issue_number : regex := seqs [chr 40; plus dig; chr 41].

Definition _detect_entry_type (entry_text : str) : entry_type :=
  let entry_lower := py_lower entry_text in
  if contains (lit "[doctoral dissertation]") entry_lower
     || contains (lit "[tesis doctoral]") entry_lower then dissertation
  else if contains (lit "[master") entry_lower || contains (lit "[tesis de") entry_lower then thesis
  else if found (search re_volume_issue_pages entry_text) then journal_article
  else if found (search re_volume_issue entry_text) then journal_article
  else if contains (lit " In ") entry_text || contains (lit " En ") entry_text then book_chapter
  else if contains (lit "retrieved from") entry_lower
          || contains (lit "recuperado de") entry_lower then web_resource
  else if found (search re_italics entry_text)
          && negb (found (search re_issue_number entry_text)) then book
  else unknown.

(** The same decision read as a list of tests, first match first. *)
Definition has_dissertation_marker (t : str) : bool :=
  contains (lit "[doctoral dissertation]") (py_lower t)
  || contains (lit "[tesis doctoral]") (py_lower t).
Definition has_thesis_marker (t : str) : bool :=
  contains (lit "[master") (py_lower t) || contains (lit "[tesis de") (py_lower t).
Definition has_volume_issue_pages (t : str) : bool := found (search re_volume_issue_pages t).
Definition has_volume_issue (t : str) : bool := found (search re_volume_issue t).
Definition has_chapter_marker (t : str) : bool :=
  contains (lit " In ") t || contains (lit " En ") t.
Definition has_web_marker (t : str) : bool :=
  contains (lit "retrieved from") (py_lower t) || contains (lit "recuperado de") (py_lower t).
Definition has_italic_title_without_issue (t : str) : bool :=
  found (search re_italics t) && negb (found (search re_issue_number t)).

Fixpoint first_match (tests : list ((str -> bool) * entry_type)) (t : str) : entry_type :=
  match tests with
  | [] => unknown
  | (test, ty) :: rest => if test t then ty else first_match rest t
  end.

(** The tests in the order of the source. *)
Definition source_order : list ((str -> bool) * entry_type) :=
  [ (has_dissertation_marker, dissertation);
    (has_thesis_marker, thesis);
    (has_volume_issue_pages, journal_article);
    (has_volume_issue, journal_article);
    (has_chapter_marker, book_chapter);
    (has_web_marker, web_resource);
    (has_italic_title_without_issue, book) ].

(** The list as the specification words it, with the volume(issue), pages
    pattern as the only journal test. *)
Definition specified_order : list ((str -> bool) * entry_type) :=
  [ (has_dissertation_marker, dissertation);
    (has_thesis_marker, thesis);
    (has_volume_issue_pages, journal_article);
    (has_chapter_marker, book_chapter);
    (has_web_marker, web_resource);
    (has_italic_title_without_issue, book) ].

(** ** The parsers by type *)

(** [re.match(r'^([^(]+)\s*\(', entry_text)] *)
Definition re_author_part : regex :=
  seqs [Bol; Grp 1 (plus (none_of (lit "("))); star ws; chr 40].

Definition authors_of (entry_text : str) : option (list author) :=
  match match_ re_author_part entry_text with
  | Some m => Some (_extract_authors (default [] (group m 1)))
  | None => None
  end.

(** [\.([^,]+),\s*(\d+)(?:\((\d+)\))?,\s*(\d+[-–]\d+)] *)
Definition journal_pattern : regex :=
  seqs [chr 46; Grp 1 (plus (none_of (lit ","))); chr 44; star ws; Grp 2 (plus dig);
        opt (seqs [chr 40; Grp 3 (plus dig); chr 41]); chr 44; star ws;
        Grp 4 (seqs [plus dig; Cls (fun c => (c =? 45)%N || (c =? 8211)%N); plus dig])].

(** Any character but the newline: the dot of a pattern. *)
Definition dot : regex := Cls (fun c => negb (c =? 10)%N).

(** [(?:doi:|https://doi.org/)([^\s]+)] with [re.IGNORECASE] *)
Definition re_doi : regex :=
  seqs [Alt (ExtractCitations.ci_word (lit "doi:"))
            (seqs [ExtractCitations.ci_word (lit "https://doi"); dot;
                   ExtractCitations.ci_word (lit "org/")]);
        Grp 1 (plus (Cls (fun c => negb (is_space c))))].

Definition _parse_journal_article (entry_text : str) : parsed_t :=
  let authors := authors_of entry_text in
  let year := _extract_year entry_text in
  let title := _extract_title entry_text in
  let jm := search journal_pattern entry_text in
  let doi_match := search re_doi entry_text in
  Parsed authors (Some year) (Some title)
    (match jm with Some m => Some (_normalize_text (default [] (group m 1))) | None => None end)
    (match jm with Some m => Some (default [] (group m 2)) | None => None end)
    (match jm with Some m => Some (default [] (group m 3)) | None => None end)
    (match jm with
     | Some m => Some (map (fun c => if (c =? 8211)%N then 45%N else c) (default [] (group m 4)))
     | None => None
     end)
    (match doi_match with Some m => Some (rstrip_dots (default [] (group m 1))) | None => None end)
    None None None.

Definition truthy_text (o : option (option str)) : bool :=
  match o with Some (Some t) => nonempty t | _ => false end.

Definition _parse_book (entry_text : str) : parsed_t :=
  let authors := authors_of entry_text in
  let year := _extract_year entry_text in
  let title :=
    match search (seqs [chr 40; YEAR; chr 41; opt (chr 46); star ws;
                        chr 95; Grp 1 (plus (none_of (lit "_"))); chr 95]) entry_text with
    | Some m => Some (_normalize_text (default [] (group m 1)))
    | None => _extract_title entry_text
    end in
  let publisher :=
    match title with
    | Some t =>
        if nonempty t then
          let after_title := after_last (length entry_text) t entry_text in
          let after_title := strip (sub (any_of (lit "_.")) [] after_title) in
          if nonempty after_title
          then Some (_normalize_text (hd [] (split_char 46 after_title)))
          else None
        else None
    | None => None
    end in
  Parsed authors (Some year) (Some title) None None None None None publisher None None.

Definition _parse_web_resource (entry_text : str) : parsed_t :=
  let authors := authors_of entry_text in
  let date_match := search (seqs [chr 40; Grp 1 (plus (none_of (lit ")"))); chr 41]) entry_text in
  let date := match date_match with Some m => group m 1 | None => None end in
  let year :=
    match date with
    | Some d => match search (times 4 dig) d with
                | Some ym => Some (Some (group0 ym))
                | None => None
                end
    | None => None
    end in
  let title := _extract_title entry_text in
  let url :=
    match search (seqs [Alt (ExtractCitations.ci_word (lit "retrieved from"))
                            (ExtractCitations.ci_word (lit "recuperado de"));
                        plus ws; Grp 1 (plus dot); Eol]) entry_text with
    | Some m => Some (strip (default [] (group m 1)))
    | None =>
        match search (seqs [word (lit "http"); opt (chr 115); word (lit "://");
                            plus (Cls (fun c => negb (is_space c)))]) entry_text with
        | Some m => Some (rstrip_dots (group0 m))
        | None => None
        end
    end in
  Parsed authors year (Some title) None None None None None None date url.

(** ** [_parse_entry] and [load_and_parse] *)

(** The methods that [_parse_entry] calls inside its [try] block, as they
    are bound on the instance at the time of the call; each may raise. *)
Record methods := Methods {
  m_parse_journal_article : str -> res parsed_t;
  m_parse_book : str -> res parsed_t;
  m_parse_web_resource : str -> res parsed_t;
  m_extract_authors : str -> res (list author);
  m_extract_year : str -> res (option str);
  m_extract_title : str -> res (option str) }.

(** The methods of the class itself. *)
Definition BibliographyProcessor : methods :=
  Methods (fun t => Ok (_parse_journal_article t))
          (fun t => Ok (_parse_book t))
          (fun t => Ok (_parse_web_resource t))
          (fun t => Ok (_extract_authors t))
          (fun t => Ok (_extract_year t))
          (fun t => Ok (_extract_title t)).

(** The generic branch assigns three keys in turn; an exception keeps the
    keys assigned before it. *)
Definition parse_generic (self : methods) (entry_text : str) : parsed_t * option exn :=
  let authors_r :=
    if contains (lit "(") entry_text
    then m_extract_authors self (hd [] (split_char 40 entry_text))
    else Ok [] in
  match authors_r with
  | Raised e => (empty_parsed, Some e)
  | Ok a =>
      let p1 := Parsed (Some a) None None None None None None None None None None in
      match m_extract_year self entry_text with
      | Raised e => (p1, Some e)
      | Ok y =>
          let p2 := Parsed (Some a) (Some y) None None None None None None None None None in
          match m_extract_title self entry_text with
          | Raised e => (p2, Some e)
          | Ok t =>
              (Parsed (Some a) (Some y) (Some t) None None None None None None None None, None)
          end
      end
  end.

(** The [try] block: the parsed dict as the [except] clause finds it, and
    the exception caught, if any. *)
Definition try_parse (self : methods) (entry_type : entry_type) (entry_text : str)
    : parsed_t * option exn :=
  let whole (r : res parsed_t) :=
    match r with
    | Ok p => (p, None)
    | Raised e => (empty_parsed, Some e)
    end in
  match entry_type with
  | journal_article => whole (m_parse_journal_article self entry_text)
  | book => whole (m_parse_book self entry_text)
  | web_resource => whole (m_parse_web_resource self entry_text)
  | _ => parse_generic self entry_text
  end.

(** [not parsed.get(key)] for the three required keys. *)
Definition authors_missing (p : parsed_t) : bool :=
  match authors p with Some a => negb (nonempty a) | None => true end.
Definition year_missing (p : parsed_t) : bool := negb (truthy_text (year p)).
Definition title_missing (p : parsed_t) : bool := negb (truthy_text (title p)).

Section Processor.

Variable md5_hexdigest : str -> str.
Variable self : methods.

Definition _generate_entry_id (text : str) (line_num : nat) : str :=
  let content := text ++ lit "_" ++ str_of_nat line_num in
  take 12 (md5_hexdigest content).

Definition _parse_entry (entry_text : str) (line_number : nat) : option BibliographyEntry :=
  let entry_text := strip entry_text in
  if negb (nonempty entry_text) then None
  else
    let entry_type := _detect_entry_type entry_text in
    let '(parsed, raised) := try_parse self entry_type entry_text in
    let errors :=
      match raised with
      | Some e => [lit "Parsing error: " ++ exn_msg e]
      | None => []
      end in
    let validation_status := valid in
    let '(errors, validation_status) :=
      if authors_missing parsed then (errors ++ [lit "Missing authors"], invalid)
      else (errors, validation_status) in
    let '(errors, validation_status) :=
      if year_missing parsed then (errors ++ [lit "Missing publication year"], invalid)
      else (errors, validation_status) in
    let '(errors, validation_status) :=
      if title_missing parsed then (errors ++ [lit "Missing title"], invalid)
      else (errors, validation_status) in
    let '(errors, validation_status) :=
      if negb (ends_with (lit ".") entry_text)
      then (errors ++ [lit "Entry should end with a period"],
            match validation_status with valid => warning | other => other end)
      else (errors, validation_status) in
    Some (MkEntry (_generate_entry_id entry_text line_number) entry_text line_number
                  parsed entry_type validation_status errors).

(** The loop over the lines of one file. *)
Fixpoint parse_lines (numbered : list (nat * str)) (all_entries : list BibliographyEntry)
    : list BibliographyEntry :=
  match numbered with
  | [] => all_entries
  | (line_num, line_text) :: rest =>
      let line_text := strip line_text in
      if negb (nonempty line_text) || starts_with (lit "#") line_text
      then parse_lines rest all_entries
      else
        match _parse_entry line_text line_num with
        | Some entry => parse_lines rest (all_entries ++ [entry])
        | None => parse_lines rest all_entries
        end
  end.

(** The loop over the files: [None] stands for a file that cannot be read,
    [Some lines] for what [readlines()] returns. *)
Fixpoint parse_files (files : list (option (list str))) (all_entries : list BibliographyEntry)
    : list BibliographyEntry :=
  match files with
  | [] => all_entries
  | None :: rest => parse_files rest all_entries
  | Some lines :: rest => parse_files rest (parse_lines (enumerate1 lines) all_entries)
  end.

Definition load_and_parse (bibliography_files : list (option (list str)))
    : res (list BibliographyEntry) :=
  if negb (nonempty bibliography_files)
  then Raised (Exn "FileNotFoundError" (lit "No bibliography files found"))
  else Ok (parse_files bibliography_files []).

(** What one numbered line contributes, and what one file contributes. *)
Definition line_entries (numbered : nat * str) : list BibliographyEntry :=
  let line_text := strip numbered.2 in
  if negb (nonempty line_text) || starts_with (lit "#") line_text then []
  else match _parse_entry line_text numbered.1 with
       | Some entry => [entry]
       | None => []
       end.

Definition file_entries (f : option (list str)) : list BibliographyEntry :=
  match f with
  | None => []
  | Some lines => flat_map line_entries (enumerate1 lines)
  end.

End Processor.

End ProcessBibliography.

(* ===================================================================== *)
(** * Part VI. validate_references.py                                     *)
(* ===================================================================== *)

Module ValidateReferences.
Module EC := ExtractCitations.
Module PB := ProcessBibliography.
Import Re.

Inductive severity_t : Set := sev_error | sev_warning | sev_style | sev_info.
Inductive issue_type : Set := format | missing_bibliography | low_confidence_match.

(** The text of an issue. The low-confidence message prints the confidence
    with two decimals; it is kept as the number it prints. *)
Inductive message_t : Type :=
| Text (s : str)
| LowConfidence (match_confidence : Qc).

Record issue := Issue { i_type : issue_type; severity : severity_t; message : message_t }.

Record ValidationResult := MkResult {
  citation_id : str;
  status : PB.status_t;
  issues : list issue;
  suggestions : list str;
  matched_bibliography : option str;
  confidence : Qc }.

Record ValidationReport := MkReport {
  total_citations : nat;
  valid_citations : nat;
  invalid_citations : nat;
  warnings : nat;
  missing_bibliography_list : list (EC.Citation * (list str * str));
  format_violations : list (EC.Citation * list str);
  duplicate_citations : list (str * nat);
  total_bibliography_entries : nat;
  bibliography_with_issues : nat;
  unique_citations : nat;
  most_cited : option (str * nat) }.

(** The thresholds, as the rationals the float literals stand for. *)
Definition q0_7 : Qc := Q2Qc (7 # 10).
Definition q0_8 : Qc := Q2Qc (8 # 10).
Definition q0_9 : Qc := Q2Qc (9 # 10).

(** ** Similarity *)

Definition _normalize_text (text : str) : str :=
  let text := nfkc text in
  let text := collapse_ws text in
  let text := fix_dashes text in
  py_lower (strip text).

Definition _calculate_similarity (text1 text2 : str) : Qc :=
  let text1_norm := _normalize_text text1 in
  let text2_norm := _normalize_text text2 in
  Difflib.ratio text1_norm text2_norm.

Definition is_et_al (author : str) : bool := str_eqb author (lit "et al.").

(** The loop over [bib_authors_norm] that keeps the best similarity. *)
Definition best_similarity (cit_author : str) (bib_authors_norm : list str) : Qc :=
  foldl (fun best_match bib_author =>
           Qc_max best_match (_calculate_similarity cit_author bib_author))
        0%Qc bib_authors_norm.

Definition _fuzzy_match_authors (citation_authors : list str) (bib_authors : list PB.author) : Qc :=
  if negb (nonempty citation_authors) || negb (nonempty bib_authors) then 0%Qc
  else
    let cit_authors_norm :=
      map _normalize_text (filter (fun a => is_et_al a = false) citation_authors) in
    let bib_authors_norm := map (fun a => _normalize_text (PB.last_name a)) bib_authors in
    match cit_authors_norm, bib_authors_norm with
    | c0 :: _, b0 :: _ =>
        let has_et_al := existsb (fun a => contains (lit "et al") (py_lower a)) citation_authors in
        if has_et_al then _calculate_similarity c0 b0
        else
          let matches :=
            length (filter (fun cit_author =>
                              Qc_ltb q0_8 (best_similarity cit_author bib_authors_norm) = true)
                           cit_authors_norm) in
          Difflib.Qc_of_nats matches (length cit_authors_norm)
    | _, _ => 0%Qc
    end.

(** ** [load_data]: the index *)

(** [bibliography_index] holds an entry under its id and a list of entries
    under an author-year key. *)
Inductive index_value : Type :=
| ById (entry : PB.BibliographyEntry)
| ByKey (entries : list PB.BibliographyEntry).

Definition parsed_nonempty (p : PB.parsed_t) : bool :=
  match p with
  | PB.Parsed None None None None None None None None None None None => false
  | _ => true
  end.

(** [parsed.get('year')] as a truthy string, if it is one. *)
Definition truthy_year (p : PB.parsed_t) : option str :=
  match PB.year p with
  | Some (Some y) => if nonempty y then Some y else None
  | _ => None
  end.

Definition bib_authors_of (entry : PB.BibliographyEntry) : list PB.author :=
  default [] (PB.authors (PB.parsed entry)).

(** [f"{self._normalize_text(name)}_{year}"] *)
Definition author_year_key (name year : str) : str :=
  _normalize_text name ++ lit "_" ++ year.

Definition index_author (entry : PB.BibliographyEntry) (year : option str) (author : PB.author)
    (index : gmap str index_value) : res (gmap str index_value) :=
  match year with
  | Some y =>
      if nonempty (PB.last_name author) then
        let key := author_year_key (PB.last_name author) y in
        match index !! key with
        | None => Ok (<[key := ByKey [entry]]> index)
        | Some (ByKey entries) => Ok (<[key := ByKey (entries ++ [entry])]> index)
        | Some (ById _) =>
            Raised (Exn "AttributeError" (lit "'dict' object has no attribute 'append'"))
        end
      else Ok index
  | None => Ok index
  end.

Definition index_entry (entry : PB.BibliographyEntry) (index : gmap str index_value)
    : res (gmap str index_value) :=
  let index := <[PB.id entry := ById entry]> index in
  if parsed_nonempty (PB.parsed entry) then
    for_each (bib_authors_of entry) (index_author entry (truthy_year (PB.parsed entry))) index
  else Ok index.

Definition build_index (bibliography : list PB.BibliographyEntry) : res (gmap str index_value) :=
  for_each bibliography index_entry ∅.

(** The validator once [load_data] has run. *)
Record validator := Validator {
  citations : list EC.Citation;
  bibliography : list PB.BibliographyEntry;
  bibliography_index : gmap str index_value }.

(** [load_data]: each argument is [None] when the JSON file is missing. *)
Definition load_data (citations_file : option (list EC.Citation))
    (bibliography_file : option (list PB.BibliographyEntry)) : res validator :=
  match citations_file with
  | None => Raised (Exn "FileNotFoundError" (lit "Citations file not found"))
  | Some citations =>
      match bibliography_file with
      | None => Raised (Exn "FileNotFoundError" (lit "Bibliography file not found"))
      | Some bibliography =>
          index <- build_index bibliography ;;
          Ok (Validator citations bibliography index)
      end
  end.

(** ** [validate_citation_format] *)

(** [^\([^)]+\)$] *)
Definition re_parentheses : regex :=
  seqs [Bol; chr 40; plus (none_of (lit ")")); chr 41; Eol].
(** [pp?\.\s*\d+] *)
Definition re_page_format : regex := seqs [chr 112; opt (chr 112); chr 46; star ws; plus dig].

Definition when (b : bool) (issue : str) : list str := if b then [issue] else [].

Definition format_issues (citation : EC.Citation) : list str :=
  let raw_text := EC.raw_text citation in
  let year := default [] (EC.year (EC.normalized citation)) in
  (match EC.type citation with
   | EC.parenthetical =>
       when (negb (found (match_ re_parentheses raw_text)))
            (lit "Parenthetical citation missing proper parentheses")
       ++ when (contains (lit " and ") raw_text)
               (lit "Use '&' instead of 'and' in parenthetical citations")
   | EC.narrative =>
       when (contains (lit "&") raw_text && negb (contains (lit "(") raw_text))
            (lit "Use 'and' instead of '&' in narrative citations")
   | _ => []
   end)
  ++ when (nonempty year && negb (found (match_ EC.YEAR year))
           && negb (str_eqb year (lit "in press")))
          (lit "Invalid year format: " ++ year)
  ++ when (contains (lit "et al") (py_lower raw_text)
           && negb (found (search (word (lit "et al.")) raw_text)))
          (lit "'et al.' should include a period")
  ++ when ((contains (lit "p.") raw_text || contains (lit "pp.") raw_text)
           && negb (found (search re_page_format raw_text)))
          (lit "Page numbers should follow format: p. # or pp. #-#").

Definition validate_citation_format (citation : EC.Citation) : PB.status_t * list str :=
  let issues := format_issues citation in
  let status :=
    if length issues =? 0 then PB.valid
    else if length issues <=? 2 then PB.warning
    else PB.invalid in
  (status, issues).

(** ** [validate_bibliography_format] *)

(** [f"{entry_type.replace('_', ' ').title()}"] for the two types it is used on. *)
Definition type_title (t : PB.entry_type) : str :=
  match t with
  | PB.book => lit "Book"
  | PB.journal_article => lit "Journal Article"
  | _ => []
  end.

Definition validate_bibliography_format (entry : PB.BibliographyEntry)
    : PB.status_t * list str :=
  let raw_text := PB.raw_text entry in
  let issues :=
    when (negb (found (search (Seq (chr 46) Eol) raw_text)))
         (lit "Bibliography entry should end with a period")
    ++ when (negb (found (search (seqs [chr 40; EC.YEAR; chr 41]) raw_text)))
            (lit "Year should be in parentheses: (YYYY)")
    ++ when ((match PB.type entry with PB.book | PB.journal_article => true | _ => false end)
             && negb (contains (lit "_") raw_text))
            (type_title (PB.type entry) ++ lit " titles should be italicized") in
  match PB.validation_status entry, PB.errors entry with
  | PB.invalid, _ | _, _ :: _ => (PB.invalid, issues ++ PB.errors entry)
  | _, [] => if nonempty issues then (PB.warning, issues) else (PB.valid, issues)
  end.

(** ** Matching *)

(** Truthiness of an [Optional[str]]. *)
Definition truthy (o : option str) : bool :=
  match o with Some s => nonempty s | None => false end.

(** [parsed.get('year', '') == year] *)
Definition year_equal (p : PB.parsed_t) (year : str) : bool :=
  match PB.year p with
  | None => str_eqb [] year
  | Some None => false
  | Some (Some y) => str_eqb y year
  end.

(** [best_match, best_confidence]. *)
Definition best_t := (option str * Qc)%type.

(** The loop [for entry in entries] of the exact phase. *)
Definition consider (authors : list str) (entry : PB.BibliographyEntry) (best : best_t) : best_t :=
  let confidence := _fuzzy_match_authors authors (bib_authors_of entry) in
  if Qc_ltb best.2 confidence then (Some (PB.id entry), confidence) else best.

(** The loop of the fallback scan. *)
Definition consider_scan (authors : list str) (year : str) (entry : PB.BibliographyEntry)
    (best : best_t) : best_t :=
  if negb (year_equal (PB.parsed entry) year) then best
  else
    let confidence := _fuzzy_match_authors authors (bib_authors_of entry) in
    if Qc_ltb best.2 confidence && Qc_ltb q0_7 confidence
    then (Some (PB.id entry), confidence) else best.

Section Matching.

Variable self : validator.

Definition exact_step (authors : list str) (year : str) (author : str) (best : best_t)
    : res best_t :=
  if is_et_al author then Ok best
  else
    let key := author_year_key author year in
    match bibliography_index self !! key with
    | None => Ok best
    | Some (ByKey entries) => Ok (foldl (fun b e => consider authors e b) best entries)
    | Some (ById _) => Raised (Exn "AttributeError" (lit "'str' object has no attribute 'get'"))
    end.

Definition _find_single_match (authors : list str) (year : str) : res best_t :=
  best <- for_each authors (exact_step authors year) (None, 0%Qc) ;;
  if negb (truthy best.1)
  then Ok (foldl (fun b e => consider_scan authors year e b) best (bibliography self))
  else Ok best.

Definition match_citation_to_bibliography (citation : EC.Citation) : res best_t :=
  let normalized := EC.normalized citation in
  match EC.multiple normalized with
  | Some subs =>
      all_found <- for_each subs
        (fun sub_citation all_found =>
           m <- _find_single_match (EC.sub_authors sub_citation) (EC.sub_year sub_citation) ;;
           Ok (if negb (truthy m.1) then false else all_found)) true ;;
      if all_found then Ok (Some (lit "multiple_valid"), q0_9) else Ok (None, 0%Qc)
  | None =>
      match EC.type citation with
      | EC.secondary =>
          let cited_author := default [] (EC.cited_in_author normalized) in
          let cited_year := default [] (EC.cited_in_year normalized) in
          if nonempty cited_author && nonempty cited_year
          then _find_single_match [cited_author] cited_year
          else Ok (None, 0%Qc)
      | _ =>
          let authors := default [] (EC.authors normalized) in
          let year := default [] (EC.year normalized) in
          if negb (nonempty authors) || negb (nonempty year) then Ok (None, 0%Qc)
          else _find_single_match authors year
      end
  end.

(** ** [_suggest_bibliography_matches] *)

(** [int(text)] for a run of decimal digits. *)
Definition int_of_digits (text : str) : Z :=
  foldl (fun acc c => (10 * acc + digit_value c)%Z) 0%Z text.

Definition year_suggestions (year : str) : list str :=
  if nonempty year then
    match search (times 4 dig) year with
    | Some year_num =>
        let year_val := int_of_digits (group0 year_num) in
        flat_map (fun y =>
                    let key_pattern := lit "_" ++ str_of_Z y in
                    if existsb (fun kv => contains key_pattern kv.1)
                               (map_to_list (bibliography_index self))
                    then [lit "Check year " ++ str_of_Z y ++ lit " in bibliography"]
                    else [])
                 [(year_val - 1)%Z; (year_val + 1)%Z]
    | None => []
    end
  else [].

Definition author_suggestions (author : str) : list str :=
  if is_et_al author then []
  else
    flat_map (fun entry =>
                match filter (fun bib_author =>
                                Qc_ltb q0_8 (_calculate_similarity author (PB.last_name bib_author))
                                = true) (bib_authors_of entry) with
                | bib_author :: _ => [lit "Similar author found: " ++ PB.last_name bib_author]
                | [] => []
                end) (bibliography self).

Definition _suggest_bibliography_matches (citation : EC.Citation) (suggestions : list str)
    : list str :=
  let authors := default [] (EC.authors (EC.normalized citation)) in
  let year := default [] (EC.year (EC.normalized citation)) in
  suggestions ++ year_suggestions year ++ flat_map author_suggestions authors.

(** ** [validate_all] *)

(** The lists and the dict that the loop of [validate_all] fills. *)
Record progress := Progress {
  validation_results : list ValidationResult;
  missing_bibliography_acc : list (EC.Citation * (list str * str));
  format_violations_acc : list (EC.Citation * list str);
  citation_stats : list (str * nat) }.

(** [citation_stats[key] = citation_stats.get(key, 0) + 1], keys in insertion order. *)
Fixpoint count_key (key : str) (stats : list (str * nat)) : list (str * nat) :=
  match stats with
  | [] => [(key, 1)]
  | (k, n) :: rest => if str_eqb k key then (k, n + 1) :: rest else (k, n) :: count_key key rest
  end.

(** [f"{authors[0]}_{year}"], with the defaults ['Unknown'] of the two [get]. *)
Definition cit_key (citation : EC.Citation) : res str :=
  let n := EC.normalized citation in
  let year := default (lit "Unknown") (EC.year n) in
  match default [lit "Unknown"] (EC.authors n) with
  | a0 :: _ => Ok (a0 ++ lit "_" ++ year)
  | [] => Raised (Exn "IndexError" (lit "list index out of range"))
  end.

Definition has_severity (s : severity_t) (i : issue) : bool :=
  match severity i, s with
  | sev_error, sev_error | sev_warning, sev_warning | sev_style, sev_style
  | sev_info, sev_info => true
  | _, _ => false
  end.

(** The result for one citation, from what the two checks returned. *)
Definition make_result (citation : EC.Citation) (format_issues : list str) (m : best_t)
    : ValidationResult :=
  let '(matched_bib, match_confidence) := m in
  let all_issues := map (fun i => Issue format sev_warning (Text i)) format_issues in
  let suggestions : list str := [] in
  let '(all_issues, suggestions) :=
    if negb (truthy matched_bib) then
      (all_issues ++ [Issue missing_bibliography sev_error
                            (Text (lit "No matching bibliography entry found"))],
       _suggest_bibliography_matches citation suggestions)
    else if Qc_ltb match_confidence q0_8 then
      (all_issues ++ [Issue low_confidence_match sev_warning (LowConfidence match_confidence)],
       suggestions)
    else (all_issues, suggestions) in
  let status :=
    if existsb (has_severity sev_error) all_issues then PB.invalid
    else if existsb (has_severity sev_warning) all_issues then PB.warning
    else PB.valid in
  MkResult (EC.id citation) status all_issues suggestions matched_bib
           (if truthy matched_bib then match_confidence else 0%Qc).

(** One turn of the loop: the state it leaves, and the exception that ends
    the run there, if any. *)
Definition validate_step (citation : EC.Citation) (st : progress) : progress * option exn :=
  let '(format_status, format_issues) := validate_citation_format citation in
  match match_citation_to_bibliography citation with
  | Raised e => (st, Some e)
  | Ok m =>
      let result := make_result citation format_issues m in
      let st :=
        Progress (validation_results st ++ [result])
                 (if negb (truthy m.1)
                  then missing_bibliography_acc st
                       ++ [(citation, (default [] (EC.authors (EC.normalized citation)),
                                       default [] (EC.year (EC.normalized citation))))]
                  else missing_bibliography_acc st)
                 (if nonempty format_issues
                  then format_violations_acc st ++ [(citation, format_issues)]
                  else format_violations_acc st)
                 (citation_stats st) in
      match cit_key citation with
      | Raised e => (st, Some e)
      | Ok key =>
          (Progress (validation_results st) (missing_bibliography_acc st)
                    (format_violations_acc st) (count_key key (citation_stats st)), None)
      end
  end.

Fixpoint validate_loop (cits : list EC.Citation) (st : progress) : progress * option exn :=
  match cits with
  | [] => (st, None)
  | citation :: rest =>
      match validate_step citation st with
      | (st', None) => validate_loop rest st'
      | (st', Some e) => (st', Some e)
      end
  end.

Definition count_status (s : PB.status_t) (results : list ValidationResult) : nat :=
  length (filter (fun r => match status r, s with
                           | PB.valid, PB.valid | PB.warning, PB.warning
                           | PB.invalid, PB.invalid => true
                           | _, _ => false
                           end = true) results).

(** [max(citation_stats.items(), key=lambda x: x[1])]: the first of the
    greatest. *)
Definition most_cited_of (stats : list (str * nat)) : option (str * nat) :=
  match stats with
  | [] => None
  | first :: rest => Some (foldl (fun best kv => if best.2 <? kv.2 then kv else best) first rest)
  end.

(** [validate_all]: [self.validation_results] as the call leaves it, and the
    report, or the exception that ended the call. *)
Definition validate_all : list ValidationResult * res ValidationReport :=
  let '(st, raised) := validate_loop (citations self) (Progress [] [] [] []) in
  (validation_results st,
   match raised with
   | Some e => Raised e
   | None =>
       let bibliography_issues :=
         filter (fun entry => nonempty (validate_bibliography_format entry).2 = true)
                (bibliography self) in
       let duplicate_citations := filter (fun kv => (5 <? kv.2) = true) (citation_stats st) in
       Ok (MkReport (length (citations self))
                    (count_status PB.valid (validation_results st))
                    (count_status PB.invalid (validation_results st))
                    (count_status PB.warning (validation_results st))
                    (missing_bibliography_acc st)
                    (format_violations_acc st)
                    duplicate_citations
                    (length (bibliography self))
                    (length bibliography_issues)
                    (length (citation_stats st))
                    (most_cited_of (citation_stats st)))
   end).

End Matching.

End ValidateReferences.

(** * Sample data used by the examples below *)
Module Samples.
Module EC := ExtractCitations.
Module PB := ProcessBibliography.
Module VR := ValidateReferences.

(** A stand-in for the digest: any function serves, ids only need to be
    told apart. *)
Definition digest (s : str) : str := s.

Definition bib_lines : list str :=
  [ lit "# Bibliography"; lit "";
    lit "Smith, J. (2023). Title. Journal, 1(1), 1-10.";
    lit "Smith, J., & Jones, M. (2022). Article title. _Journal Name_, 15(3), 123-145";
    lit "Brown, A. (2020). _Book title_. Publisher Name." ].

Definition entries : list PB.BibliographyEntry :=
  match PB.load_and_parse digest PB.BibliographyProcessor [Some bib_lines] with
  | Ok l => l
  | Raised _ => []
  end.

Definition text : str :=
  lit "Research shows (Smith, 2023) that (Jones, 2099) and (Smith, 2023; Brown, 2020).".

Definition cites : list EC.Citation :=
  match EC.extract_from_file digest EC.CITATION_PATTERNS (lit "a.md") (EC.Content text) with
  | Ok l => l
  | Raised _ => []
  end.



(** An entry as the validator reads it, with the authors' last names. *)
Definition entry_of (id : str) (last_names : list str) (year : str) : PB.BibliographyEntry :=
  PB.MkEntry id [] 0
    (PB.Parsed (Some (map (fun n => PB.Author n [] n) last_names)) (Some (Some year))
               (Some (Some (lit "Title"))) None None None None None None None None)
    PB.unknown PB.valid [].

(** A citation as the validator reads it. *)
Definition citation_of (id raw : str) (t : EC.citation_type) (authors : list str) (year : str)
    : EC.Citation :=
  EC.MkCitation id raw
    (EC.Normalized (Some authors) (Some year) None None None None None None None)
    None t 1%float.

Definition clark_jones : PB.BibliographyEntry :=
  entry_of (lit "e1") [lit "Clark"; lit "Jones"] (lit "2023").
Definition jonas : PB.BibliographyEntry := entry_of (lit "e2") [lit "Jonas"] (lit "2023").
Definition smith : PB.BibliographyEntry := entry_of (lit "e3") [lit "Smith"] (lit "2021").

Definition jones_et_al : EC.Citation :=
  citation_of (lit "c1") (lit "(Jones et al., 2023)") EC.parenthetical
              [lit "Jones"; lit "et al."] (lit "2023").
Definition smith_2021 : EC.Citation :=
  citation_of (lit "c2") (lit "(Smith, 2021)") EC.parenthetical [lit "Smith"] (lit "2021").

Definition empty_validator : VR.validator := VR.Validator [] [] ∅.

Definition loaded (cits : list EC.Citation) (bib : list PB.BibliographyEntry) : VR.validator :=
  match VR.load_data (Some cits) (Some bib) with
  | Ok v => v
  | Raised _ => empty_validator
  end.

Definition small : VR.validator := loaded [jones_et_al; smith_2021] [clark_jones; jonas; smith].

(** The failing table of methods for the C9 example. *)
Definition bad_line : str := lit "Smith, J. (2023). Title. Journal, 1(1), 1-10.".
Definition boom : exn := Exn "ValueError" (lit "boom").
Definition failing : PB.methods :=
  PB.Methods (fun t => if str_eqb t bad_line then Raised boom
                       else Ok (PB._parse_journal_article t))
             (fun t => Ok (PB._parse_book t))
             (fun t => Ok (PB._parse_web_resource t))
             (fun t => Ok (PB._extract_authors t))
             (fun t => Ok (PB._extract_year t))
             (fun t => Ok (PB._extract_title t)).
Definition dummy_entry : PB.BibliographyEntry :=
  PB.MkEntry [] [] 0 PB.empty_parsed PB.unknown PB.valid [].
Definition second_entry : PB.BibliographyEntry := nth 1 entries dummy_entry.
Definition dummy_citation : EC.Citation :=
  EC.MkCitation [] [] EC.empty_normalized None
    EC.parenthetical 1%float.
Definition first_citation : EC.Citation := nth 0 cites dummy_citation.
Definition third_citation : EC.Citation := nth 2 cites dummy_citation.
Definition pipeline : VR.validator :=
  loaded cites entries.
Definition dummy_result : VR.ValidationResult :=
  VR.MkResult [] PB.valid [] [] None 0%Qc.
Definition smith_match : VR.best_t :=
  match VR.match_citation_to_bibliography small smith_2021 with
  | Ok r => r
  | Raised _ => (None, 0%Qc)
  end.
Definition third_match : VR.best_t :=
  match VR.match_citation_to_bibliography pipeline third_citation with
  | Ok r => r
  | Raised _ => (None, 0%Qc)
  end.
Definition third_subs : list EC.sub_citation :=
  default [] (EC.multiple (EC.normalized third_citation)).

End Samples.

Opaque lit.

(* ===================================================================== *)
(** * Part VII. The bibliography processor: facts                         *)
(* ===================================================================== *)

(** ** [str.strip] *)

Lemma lstrip_idem s : lstrip (lstrip s) = lstrip s.
Proof.
  induction s as [|c t IH]; simpl; [done|].
  destruct (is_space c) eqn:E; [exact IH|]. simpl. by rewrite E.
Qed.

(** Whitespace is stripped up to a character that is not whitespace. *)
Lemma lstrip_app_keeps u c :
  is_space c = false -> exists u', lstrip (u ++ [c]) = u' ++ [c].
Proof.
  intros Hc. induction u as [|x u IH]; simpl.
  - rewrite Hc. by exists [].
  - destruct (is_space x); [exact IH|]. by exists (x :: u).
Qed.

Lemma rstrip_cons_keeps c t : is_space c = false -> exists u, rstrip (c :: t) = c :: u.
Proof.
  intros Hc. unfold rstrip. rewrite reverse_cons.
  destruct (lstrip_app_keeps (reverse t) c Hc) as [u' ->].
  exists (reverse u'). by rewrite reverse_app.
Qed.

Lemma rstrip_idem s : rstrip (rstrip s) = rstrip s.
Proof. unfold rstrip. by rewrite reverse_involutive, lstrip_idem. Qed.

Lemma lstrip_head s : lstrip s = [] \/ exists c t, lstrip s = c :: t /\ is_space c = false.
Proof.
  induction s as [|c t IH]; simpl; [by left|].
  destruct (is_space c) eqn:E; [exact IH|]. right. by exists c, t.
Qed.

(** [s.strip().strip() == s.strip()] *)
Lemma strip_idem s : strip (strip s) = strip s.
Proof.
  unfold strip. destruct (lstrip_head s) as [->|(c & t & -> & Hc)]; [done|].
  destruct (rstrip_cons_keeps c t Hc) as [u Hu]. rewrite Hu. simpl. rewrite Hc.
  rewrite <- Hu. apply rstrip_idem.
Qed.

Section ProcessorFacts.
Import ProcessBibliography.

Variable md5_hexdigest : str -> str.

(** What [_parse_entry] returns, field by field. *)
Lemma parse_entry_fields self entry_text line_number entry :
  _parse_entry md5_hexdigest self entry_text line_number = Some entry ->
  let t := strip entry_text in
  let p := (try_parse self (_detect_entry_type t) t).1 in
  let raised := (try_parse self (_detect_entry_type t) t).2 in
  let any_missing := authors_missing p || year_missing p || title_missing p in
  raw_text entry = t /\ line_number = ProcessBibliography.line_number entry /\
  parsed entry = p /\ type entry = _detect_entry_type t /\
  validation_status entry =
    (if any_missing then invalid
     else if ends_with (lit ".") t then valid else warning) /\
  errors entry =
    match raised with Some e => [lit "Parsing error: " ++ exn_msg e] | None => [] end
    ++ (if authors_missing p then [lit "Missing authors"] else [])
    ++ (if year_missing p then [lit "Missing publication year"] else [])
    ++ (if title_missing p then [lit "Missing title"] else [])
    ++ (if ends_with (lit ".") t then [] else [lit "Entry should end with a period"]).
Proof.
  unfold _parse_entry. cbv zeta.
  destruct (nonempty (strip entry_text)); simpl; [|discriminate].
  destruct (try_parse self _ _) as [p raised]. simpl.
  destruct (authors_missing p), (year_missing p), (title_missing p),
    (ends_with (lit ".") (strip entry_text));
    simpl; intros [= <-]; simpl; rewrite ?app_nil_r, <- ?app_assoc; repeat split; reflexivity.
Qed.


(** The loops append, line by line and file by file. *)
Lemma parse_lines_flat_map self numbered all_entries :
  parse_lines md5_hexdigest self numbered all_entries
  = all_entries ++ flat_map (line_entries md5_hexdigest self) numbered.
Proof.
  revert all_entries. induction numbered as [|[n l] rest IH]; intros acc; simpl.
  - by rewrite app_nil_r.
  - unfold line_entries at 1. simpl.
    destruct (negb (nonempty (strip l)) || starts_with (lit "#") (strip l)); simpl.
    + apply IH.
    + destruct (_parse_entry _ _ _ _); simpl; rewrite IH; by rewrite <- ?app_assoc.
Qed.

Lemma parse_files_flat_map self files all_entries :
  parse_files md5_hexdigest self files all_entries
  = all_entries ++ flat_map (file_entries md5_hexdigest self) files.
Proof.
  revert all_entries. induction files as [|[lines|] rest IH]; intros acc; simpl.
  - by rewrite app_nil_r.
  - rewrite IH, parse_lines_flat_map. by rewrite <- app_assoc.
  - apply IH.
Qed.

Lemma load_and_parse_entries self files entries entry :
  load_and_parse md5_hexdigest self files = Ok entries -> entry ∈ entries ->
  exists entry_text line_number,
    _parse_entry md5_hexdigest self entry_text line_number = Some entry.
Proof.
  unfold load_and_parse. destruct (negb (nonempty files)); [discriminate|].
  intros [= <-]. rewrite parse_files_flat_map. simpl.
  rewrite list_elem_of_In, in_flat_map. intros [f [_ Hf]].
  destruct f as [lines|]; simpl in Hf; [|contradiction].
  apply in_flat_map in Hf as [[n l] [_ Hl]].
  unfold line_entries in Hl. simpl in Hl.
  destruct (negb (nonempty (strip l)) || starts_with (lit "#") (strip l)); [contradiction|].
  destruct (_parse_entry _ _ _ _) as [x|] eqn:E; simpl in Hl; [|contradiction].
  destruct Hl as [<-|[]]. eauto.
Qed.

(** C2. For every entry that the processor returns: when any of authors,
    year or title is absent from the parsed fields ([not parsed.get(key)]),
    [validation_status] is [invalid]; when the three are present and the
    entry text does not end with a period, [validation_status] is [warning]
    and the ending-period message is the last of [errors]. *)
Theorem C2_required_fields_and_period self bibliography_files entries entry :
  load_and_parse md5_hexdigest self bibliography_files = Ok entries ->
  entry ∈ entries ->
  (authors_missing (parsed entry) = true \/ year_missing (parsed entry) = true
   \/ title_missing (parsed entry) = true ->
   validation_status entry = invalid)
  /\ (authors_missing (parsed entry) = false -> year_missing (parsed entry) = false ->
      title_missing (parsed entry) = false ->
      ends_with (lit ".") (raw_text entry) = false ->
      validation_status entry = warning
      /\ last (errors entry) = Some (lit "Entry should end with a period")).
Proof.
  intros Hload Hin.
  destruct (load_and_parse_entries _ _ _ _ Hload Hin) as (text & n & Hp).
  apply parse_entry_fields in Hp. cbv zeta in Hp.
  destruct Hp as (Hraw & _ & Hparsed & _ & Hstatus & Herrors).
  rewrite <- Hparsed, <- Hraw in Hstatus, Herrors. split.
  - intros H. rewrite Hstatus.
    destruct H as [-> | [-> | ->]]; rewrite ?orb_true_r; reflexivity.
  - intros Ha Hy Ht Hdot. rewrite Ha, Hy, Ht, Hdot in Hstatus, Herrors.
    simpl in *. split; [assumption|].
    rewrite Herrors. apply last_snoc.
Qed.

(** An exception in the [try] block leaves one of the required keys out. *)
Lemma try_parse_raised_missing self ty t p e :
  try_parse self ty t = (p, Some e) -> authors_missing p || year_missing p || title_missing p = true.
Proof.
  unfold try_parse, parse_generic.
  destruct ty;
    repeat match goal with
           | |- context [match ?x with Ok _ => _ | Raised _ => _ end] => destruct x
           | |- context [if ?x then _ else _] => destruct x
           end; intros [= <- <-]; try reflexivity;
    unfold authors_missing, year_missing, title_missing; simpl; by rewrite ?orb_true_r.
Qed.



(** The lines of a file that stand for an entry: the text of a line without
    the whitespace around it, with its number, when it is not empty and is
    not a header. *)
Definition entry_line (numbered : nat * str) : option (nat * str) :=
  let line_text := strip numbered.2 in
  if negb (nonempty line_text) || starts_with (lit "#") line_text then None
  else Some (numbered.1, line_text).

Definition entry_lines (f : option (list str)) : list (nat * str) :=
  match f with
  | None => []
  | Some lines => omap entry_line (enumerate1 lines)
  end.

(** [_parse_entry] returns an entry for every text that is not blank. *)
Lemma parse_entry_some self entry_text line_number :
  nonempty (strip entry_text) = true ->
  exists entry, _parse_entry md5_hexdigest self entry_text line_number = Some entry.
Proof.
  intros H. unfold _parse_entry. cbv zeta. rewrite H. simpl.
  destruct (try_parse self _ _) as [p raised].
  destruct (authors_missing p), (year_missing p), (title_missing p),
    (negb (ends_with (lit ".") (strip entry_text))); by eexists.
Qed.

(** A line contributes one entry when it stands for one, and none otherwise. *)
Lemma line_entries_entry_line self numbered :
  map (fun x => (line_number x, raw_text x)) (line_entries md5_hexdigest self numbered)
  = match entry_line numbered with Some l => [l] | None => [] end.
Proof.
  unfold line_entries, entry_line. cbv zeta.
  destruct (negb (nonempty (strip numbered.2))) eqn:E; simpl; [reflexivity|].
  destruct (starts_with (lit "#") (strip numbered.2)); simpl; [reflexivity|].
  apply negb_false_iff in E.
  destruct (parse_entry_some self (strip numbered.2) numbered.1) as [entry Hentry].
  { by rewrite strip_idem. }
  rewrite Hentry. simpl.
  apply parse_entry_fields in Hentry. cbv zeta in Hentry.
  destruct Hentry as (-> & <- & _). by rewrite strip_idem.
Qed.

Lemma file_entries_entry_lines self f :
  map (fun x => (line_number x, raw_text x)) (file_entries md5_hexdigest self f)
  = entry_lines f.
Proof.
  destruct f as [lines|]; simpl; [|reflexivity].
  induction (enumerate1 lines) as [|nl l IH]; simpl; [reflexivity|].
  rewrite map_app, line_entries_entry_line, IH.
  by destruct (entry_line nl).
Qed.

Lemma load_and_parse_entry_lines self files :
  map (fun x => (line_number x, raw_text x))
      (flat_map (file_entries md5_hexdigest self) files)
  = flat_map entry_lines files.
Proof.
  induction files as [|f files IH]; simpl; [reflexivity|].
  by rewrite map_app, file_entries_entry_lines, IH.
Qed.




(** C7 (as amended). [_detect_entry_type] is the decision list
    [source_order], first match first: dissertation markers, thesis markers,
    the volume(issue), pages pattern, the alternative ", volume(issue)"
    pattern (both give journal_article), the In/En marker, the retrieved-from
    marker, an italic title without an issue number, and unknown otherwise.
    An entry that passes a test and fails all earlier ones gets the type of
    that test. *)
Theorem C7_entry_type_decision_list entry_text :
  _detect_entry_type entry_text = first_match source_order entry_text
  /\ forall earlier test ty later,
       source_order = earlier ++ (test, ty) :: later ->
       test entry_text = true ->
       Forall (fun p => p.1 entry_text = false) earlier ->
       _detect_entry_type entry_text = ty.
Proof.
  assert (H : _detect_entry_type entry_text = first_match source_order entry_text).
  { unfold _detect_entry_type, source_order, first_match, has_dissertation_marker,
      has_thesis_marker, has_volume_issue_pages, has_volume_issue, has_chapter_marker,
      has_web_marker, has_italic_title_without_issue. reflexivity. }
  split; [exact H|]. rewrite H.
  intros earlier test ty later ->. clear H.
  induction earlier as [|[t1 ty1] earlier IH]; simpl; intros Ht Hall.
  - by rewrite Ht.
  - inversion Hall as [|? ? H1 H2]; subst. simpl in H1. rewrite H1. by apply IH.
Qed.

End ProcessorFacts.

(** An entry with the alternative journal pattern and an "En" marker: the
    list as specified would make it a book chapter. *)
Definition chapter_like : str := lit "Doe, J. (2020). Un estudio. En Revista, 15(3).".

(** C7, counterexample. The text [chapter_like] has no dissertation or
    thesis marker, fails the volume(issue), pages test and passes the In/En
    test, yet it is classified journal_article, not book_chapter. *)
Lemma C7_counterexample :
  ProcessBibliography.has_dissertation_marker chapter_like = false
  /\ ProcessBibliography.has_thesis_marker chapter_like = false
  /\ ProcessBibliography.has_volume_issue_pages chapter_like = false
  /\ ProcessBibliography.has_chapter_marker chapter_like = true
  /\ ProcessBibliography.first_match ProcessBibliography.specified_order chapter_like
     = ProcessBibliography.book_chapter
  /\ ProcessBibliography._detect_entry_type chapter_like = ProcessBibliography.journal_article.
Proof. vm_compute. repeat split; reflexivity. Qed.

(* ===================================================================== *)
(** * Part VIII. The citation extractor: facts                            *)
(* ===================================================================== *)

(** A property of the state that every turn of a loop keeps holds at its end. *)
Lemma for_each_invariant {A S : Type} (P : S -> Prop) (l : list A)
    (body : A -> S -> res S) (s s' : S) :
  (forall x s1 s2, x ∈ l -> P s1 -> body x s1 = Ok s2 -> P s2) ->
  P s -> for_each l body s = Ok s' -> P s'.
Proof.
  revert s. induction l as [|x l IH]; intros s Hbody Hs; simpl.
  - by intros [= <-].
  - destruct (body x s) as [s1|e] eqn:E; simpl; [|discriminate].
    apply IH.
    + intros y s2 s3 Hy. apply Hbody. by right.
    + eapply Hbody; [left| |]; eauto.
Qed.

Section ExtractorFacts.
Import ExtractCitations.

Variable md5_hexdigest : str -> str.

Lemma parse_citation_fields raw pattern_info match_groups c :
  _parse_citation raw pattern_info match_groups = Ok c ->
  raw_text c = raw /\ type c = type_ pattern_info
  /\ confidence c = calculate_confidence (normalized c).
Proof.
  unfold _parse_citation. destruct (parse_normalized _ _ _); simpl; [|discriminate].
  by intros [= <-].
Qed.

(** What [extract_from_file] establishes for each citation it returns. *)
Definition extracted (filepath : str) (c : Citation) : Prop :=
  confidence c = calculate_confidence (normalized c)
  /\ exists l, location c = Some l /\ file l = filepath
     /\ id c = _generate_citation_id md5_hexdigest (raw_text c)
                 (location_key filepath (line l) (column l - 1)).

Lemma visit_match_extracted filepath pattern_info regex line_num line_text m cs cs' :
  Forall (extracted filepath) cs ->
  visit_match md5_hexdigest filepath pattern_info regex line_num line_text m cs = Ok cs' ->
  Forall (extracted filepath) cs'.
Proof.
  intros Hcs. unfold visit_match. cbv zeta.
  destruct (strings_of_groups _) as [gs|]; simpl; [|discriminate].
  destruct (_parse_citation _ _ _) as [c|] eqn:E; simpl; [|discriminate].
  apply parse_citation_fields in E as (Hraw & _ & Hconf).
  destruct (negb _); intros [= <-]; [|assumption].
  apply Forall_app. split; [assumption|]. constructor; [|constructor].
  split; simpl; [assumption|].
  eexists. split; [reflexivity|]. simpl. split; [reflexivity|].
  rewrite Hraw. by replace (Re.m_start m + 1 - 1) with (Re.m_start m) by lia.
Qed.

Lemma extract_from_file_extracted patterns filepath f cs :
  extract_from_file md5_hexdigest patterns filepath f = Ok cs ->
  Forall (extracted filepath) cs.
Proof.
  unfold extract_from_file. destruct f as [| |content]; try (intros [= <-]; constructor).
  apply for_each_invariant; [|constructor].
  intros category s1 s2 _ Hs1. unfold visit_category.
  apply for_each_invariant; [|assumption].
  intros pattern_info s3 s4 _ Hs3. unfold visit_pattern.
  destruct (pattern pattern_info) as [regex|]; [|by intros [= <-]].
  apply for_each_invariant; [|assumption].
  intros numbered s5 s6 _ Hs5. unfold visit_line.
  apply for_each_invariant; [|assumption].
  intros m s7 s8 _ Hs7. by apply visit_match_extracted.
Qed.

(** The confidence in the words of the specification: 1.0, less 0.3 without
    a year, less 0.3 without authors and without sub-citations, and at least
    0.1. *)
Definition specified_confidence (n : normalized_t) : float :=
  py_max 0.1
    (1.0 - (if year_absent n then 0.3 else 0)
         - (if authors_absent n && multiple_absent n then 0.3 else 0))%float.

Lemma calculate_confidence_specified n :
  calculate_confidence n = specified_confidence n
  /\ (0.1 <=? calculate_confidence n)%float = true
  /\ (calculate_confidence n <=? 1.0)%float = true.
Proof.
  unfold calculate_confidence, specified_confidence.
  destruct (year_absent n), (authors_absent n && multiple_absent n);
    repeat split; vm_compute; reflexivity.
Qed.

(** C3. Every citation that [extract_from_file] returns has the confidence
    1.0, reduced by 0.3 when the normalized year is absent and by a further
    0.3 when the normalized authors are absent and there are no sub-citations
    under 'multiple', floored at 0.1; hence 0.1 <= confidence <= 1.0. *)
Theorem C3_confidence_formula_and_bounds patterns filepath f cs c :
  extract_from_file md5_hexdigest patterns filepath f = Ok cs ->
  c ∈ cs ->
  confidence c = specified_confidence (normalized c)
  /\ (0.1 <=? confidence c)%float = true
  /\ (confidence c <=? 1.0)%float = true.
Proof.
  intros Hrun Hc. apply extract_from_file_extracted in Hrun.
  rewrite Forall_forall in Hrun. destruct (Hrun c Hc) as [-> _].
  apply calculate_confidence_specified.
Qed.

(** The place of a citation: file, line and column. *)
Definition place (c : Citation) : option (str * nat * nat) :=
  match location c with
  | Some l => Some (file l, line l, column l)
  | None => None
  end.

(** C6. The id of an extracted citation is the digest of its raw text, file,
    line and column (less one): two extracted citations, of the same run or
    not, that agree on raw text, file, line and column have the same id; and
    a second run on the same input returns the same ids. *)
Theorem C6_citation_id_deterministic patterns filepath f cs :
  extract_from_file md5_hexdigest patterns filepath f = Ok cs ->
  (forall c, c ∈ cs ->
     exists l, location c = Some l
       /\ id c = _generate_citation_id md5_hexdigest (raw_text c)
                   (location_key (file l) (line l) (column l - 1)))
  /\ (forall patterns' filepath' f' cs' c c',
        extract_from_file md5_hexdigest patterns' filepath' f' = Ok cs' ->
        c ∈ cs -> c' ∈ cs' ->
        raw_text c = raw_text c' -> place c = place c' -> id c = id c')
  /\ (forall cs', extract_from_file md5_hexdigest patterns filepath f = Ok cs' ->
        map id cs' = map id cs).
Proof.
  intros Hrun. pose proof (extract_from_file_extracted _ _ _ _ Hrun) as Hall.
  rewrite Forall_forall in Hall. split; [|split].
  - intros c Hc. destruct (Hall c Hc) as (_ & l & Hl & Hf & Hid).
    exists l. split; [assumption|]. by rewrite Hf.
  - intros patterns' filepath' f' cs' c c' Hrun' Hc Hc' Hraw Hplace.
    apply extract_from_file_extracted in Hrun'. rewrite Forall_forall in Hrun'.
    destruct (Hall c Hc) as (_ & l & Hl & Hf & Hid).
    destruct (Hrun' c' Hc') as (_ & l' & Hl' & Hf' & Hid').
    unfold place in Hplace. rewrite Hl, Hl' in Hplace.
    injection Hplace as Hfile Hline Hcol.
    rewrite Hid, Hid', Hraw, Hline, Hcol. congruence.
  - intros cs' Hrun'. congruence.
Qed.

End ExtractorFacts.

(* ===================================================================== *)
(** * Part IX. The reference validator: facts                             *)
(* ===================================================================== *)

Lemma Qc_ltb_lt (x y : Qc) : Qc_ltb x y = true <-> (x < y)%Qc.
Proof. unfold Qc_ltb, Qclt, Qlt. apply Z.ltb_lt. Qed.

Lemma Qc_ltb_ge (x y : Qc) : Qc_ltb x y = false <-> (y <= x)%Qc.
Proof. unfold Qc_ltb, Qcle, Qle. apply Z.ltb_ge. Qed.

Section ValidatorFacts.
Import ValidateReferences.

Definition fuzzy (authors : list str) (e : PB.BibliographyEntry) : Qc :=
  _fuzzy_match_authors authors (bib_authors_of e).

Lemma consider_eq authors x (b : best_t) :
  consider authors x b
  = if Qc_ltb b.2 (fuzzy authors x) then (Some (PB.id x), fuzzy authors x) else b.
Proof. reflexivity. Qed.

(** The entry that a loop keeping the best candidate ends on: one of the
    greatest confidence, above the confidence the loop started from. *)
Lemma foldl_consider authors (l : list PB.BibliographyEntry) (b0 : best_t) :
  let r := foldl (fun b e => consider authors e b) b0 l in
  (r = b0 /\ forall e, e ∈ l -> (fuzzy authors e <= b0.2)%Qc)
  \/ (exists e, e ∈ l /\ r = (Some (PB.id e), fuzzy authors e)
      /\ (b0.2 < fuzzy authors e)%Qc
      /\ forall e', e' ∈ l -> (fuzzy authors e' <= fuzzy authors e)%Qc).
Proof.
  induction l as [|x l IH] using rev_ind; cbv zeta.
  - left. split; [reflexivity|]. intros e He. inversion He.
  - rewrite foldl_app. simpl. rewrite consider_eq.
    destruct IH as [[-> Hall]|(e & He & -> & Hlt & Hmax)].
    + destruct (Qc_ltb b0.2 (fuzzy authors x)) eqn:E.
      * right. exists x. apply Qc_ltb_lt in E. split; [apply elem_of_app; right; by left|].
        split; [reflexivity|]. split; [assumption|].
        intros e' [He'|He']%elem_of_app.
        -- apply Qclt_le_weak. eapply Qcle_lt_trans; eauto.
        -- apply list_elem_of_singleton in He' as ->. apply Qcle_refl.
      * left. apply Qc_ltb_ge in E. split; [reflexivity|].
        intros e' [He'|He']%elem_of_app; [by apply Hall|].
        by apply list_elem_of_singleton in He' as ->.
    + simpl. destruct (Qc_ltb (fuzzy authors e) (fuzzy authors x)) eqn:E.
      * right. exists x. apply Qc_ltb_lt in E. split; [apply elem_of_app; right; by left|].
        split; [reflexivity|]. split; [by eapply Qclt_trans|].
        intros e' [He'|He']%elem_of_app.
        -- apply Qclt_le_weak. eapply Qcle_lt_trans; eauto.
        -- apply list_elem_of_singleton in He' as ->. apply Qcle_refl.
      * right. exists e. apply Qc_ltb_ge in E. split; [apply elem_of_app; by left|].
        split; [reflexivity|]. split; [assumption|].
        intros e' [He'|He']%elem_of_app; [by apply Hmax|].
        by apply list_elem_of_singleton in He' as ->.
Qed.

Definition qualifies (authors : list str) (year : str) (e : PB.BibliographyEntry) : bool :=
  year_equal (PB.parsed e) year && Qc_ltb q0_7 (fuzzy authors e).

Lemma consider_scan_eq authors year x (b : best_t) :
  consider_scan authors year x b
  = if qualifies authors year x && Qc_ltb b.2 (fuzzy authors x)
    then (Some (PB.id x), fuzzy authors x) else b.
Proof.
  unfold consider_scan, qualifies. fold (fuzzy authors x).
  destruct (year_equal _ _), (Qc_ltb b.2 _), (Qc_ltb q0_7 _); reflexivity.
Qed.

Lemma foldl_consider_scan authors year (l : list PB.BibliographyEntry) (b0 : best_t) :
  let r := foldl (fun b e => consider_scan authors year e b) b0 l in
  (r = b0 /\ forall e, e ∈ l -> qualifies authors year e = true ->
                (fuzzy authors e <= b0.2)%Qc)
  \/ (exists e, e ∈ l /\ qualifies authors year e = true
      /\ r = (Some (PB.id e), fuzzy authors e)
      /\ (b0.2 < fuzzy authors e)%Qc
      /\ forall e', e' ∈ l -> qualifies authors year e' = true ->
           (fuzzy authors e' <= fuzzy authors e)%Qc).
Proof.
  induction l as [|x l IH] using rev_ind; cbv zeta.
  - left. split; [reflexivity|]. intros e He. inversion He.
  - rewrite foldl_app. simpl. rewrite consider_scan_eq.
    destruct IH as [[-> Hall]|(e & He & Hq & -> & Hlt & Hmax)].
    + destruct (qualifies authors year x) eqn:Q; simpl;
        [destruct (Qc_ltb b0.2 (fuzzy authors x)) eqn:E|].
      * right. exists x. apply Qc_ltb_lt in E. split; [apply elem_of_app; right; by left|].
        split; [assumption|]. split; [reflexivity|]. split; [assumption|].
        intros e' [He'|He']%elem_of_app Hq'.
        -- apply Qclt_le_weak. eapply Qcle_lt_trans; [by apply Hall|assumption].
        -- apply list_elem_of_singleton in He' as ->. apply Qcle_refl.
      * left. apply Qc_ltb_ge in E. split; [reflexivity|].
        intros e' [He'|He']%elem_of_app Hq'; [by apply Hall|].
        by apply list_elem_of_singleton in He' as ->.
      * left. split; [reflexivity|].
        intros e' [He'|He']%elem_of_app Hq'; [by apply Hall|].
        apply list_elem_of_singleton in He' as ->. congruence.
    + simpl. destruct (qualifies authors year x) eqn:Q; simpl;
        [destruct (Qc_ltb (fuzzy authors e) (fuzzy authors x)) eqn:E|].
      * right. exists x. apply Qc_ltb_lt in E. split; [apply elem_of_app; right; by left|].
        split; [assumption|]. split; [reflexivity|]. split; [by eapply Qclt_trans|].
        intros e' [He'|He']%elem_of_app Hq'.
        -- apply Qclt_le_weak. eapply Qcle_lt_trans; [by apply Hmax|assumption].
        -- apply list_elem_of_singleton in He' as ->. apply Qcle_refl.
      * right. exists e. apply Qc_ltb_ge in E. split; [apply elem_of_app; by left|].
        split; [assumption|]. split; [reflexivity|]. split; [assumption|].
        intros e' [He'|He']%elem_of_app Hq'; [by apply Hmax|].
        by apply list_elem_of_singleton in He' as ->.
      * right. exists e. split; [apply elem_of_app; by left|].
        split; [assumption|]. split; [reflexivity|]. split; [assumption|].
        intros e' [He'|He']%elem_of_app Hq'; [by apply Hmax|].
        apply list_elem_of_singleton in He' as ->. congruence.
Qed.

(** ** The index *)

(** The entries filed under the key of one citation author. *)
Definition key_entries (self : validator) (year author : str) : list PB.BibliographyEntry :=
  if is_et_al author then []
  else match bibliography_index self !! author_year_key author year with
       | Some (ByKey entries) => entries
       | _ => []
       end.

(** The candidates of the exact phase: the entries under the keys of the
    citation authors, in the order of the authors. *)
Definition exact_candidates (self : validator) (authors : list str) (year : str)
    : list PB.BibliographyEntry :=
  flat_map (key_entries self year) authors.

(** What [build_index] maintains: a list under a key holds entries of the
    bibliography, and a key that holds a single entry is the id of an entry. *)
Definition index_ok (bib : list PB.BibliographyEntry) (index : gmap str index_value) : Prop :=
  (forall key entries, index !! key = Some (ByKey entries) -> Forall (fun e => e ∈ bib) entries)
  /\ (forall key e, index !! key = Some (ById e) -> exists e', e' ∈ bib /\ key = PB.id e').

Lemma index_author_ok bib entry year author index index' :
  entry ∈ bib -> index_ok bib index ->
  index_author entry year author index = Ok index' -> index_ok bib index'.
Proof.
  intros Hin [Hk Hi]. unfold index_author.
  destruct year as [y|]; [|by intros [= <-]].
  destruct (nonempty _); [|by intros [= <-]].
  destruct (index !! author_year_key _ _) as [[e|entries]|] eqn:E; [discriminate| |];
    intros [= <-]; split; intros key v; rewrite lookup_insert; case_decide;
    try (intros [= <-]); eauto.
  all: try (apply Forall_app; split; [by eapply Hk|]). all: try by repeat constructor.
Qed.

Lemma index_entry_ok bib entry index index' :
  entry ∈ bib -> index_ok bib index ->
  index_entry entry index = Ok index' -> index_ok bib index'.
Proof.
  intros Hin [Hk Hi]. unfold index_entry.
  assert (H0 : index_ok bib (<[PB.id entry := ById entry]> index)).
  { split; intros key v; rewrite lookup_insert; case_decide;
      try (intros [= <-]); subst; eauto. }
  destruct (parsed_nonempty _); [|by intros [= <-]].
  apply for_each_invariant; [|assumption].
  intros a s1 s2 _. by apply index_author_ok.
Qed.

Lemma build_index_ok bib index : build_index bib = Ok index -> index_ok bib index.
Proof.
  unfold build_index. apply for_each_invariant.
  - intros e s1 s2 He. by apply index_entry_ok.
  - split; intros key v; rewrite lookup_empty; discriminate.
Qed.

Lemma load_data_ok cf bf self :
  load_data cf bf = Ok self -> index_ok (bibliography self) (bibliography_index self).
Proof.
  unfold load_data. destruct cf as [cits|]; [|discriminate].
  destruct bf as [bib|]; [|discriminate].
  destruct (build_index bib) as [index|] eqn:E; simpl; [|discriminate].
  intros [= <-]. simpl. by apply build_index_ok.
Qed.

Lemma exact_candidates_in_bib self authors year e :
  index_ok (bibliography self) (bibliography_index self) ->
  e ∈ exact_candidates self authors year -> e ∈ bibliography self.
Proof.
  intros [Hk _]. unfold exact_candidates.
  rewrite list_elem_of_In, in_flat_map. intros (a & _ & Ha).
  unfold key_entries in Ha. destruct (is_et_al a); [contradiction|].
  destruct (bibliography_index self !! _) as [[?|entries]|] eqn:E; try contradiction.
  apply Hk in E. rewrite Forall_forall in E. apply E. by apply list_elem_of_In.
Qed.

(** ** [_find_single_match] *)

Lemma exact_phase self authors year (l : list str) (b r : best_t) :
  for_each l (exact_step self authors year) b = Ok r ->
  r = foldl (fun b e => consider authors e b) b (flat_map (key_entries self year) l).
Proof.
  revert b. induction l as [|a l IH]; intros b; simpl; [by intros [= <-]|].
  unfold exact_step at 1, key_entries at 1.
  destruct (is_et_al a); simpl; [apply IH|].
  destruct (bibliography_index self !! _) as [[?|entries]|]; simpl;
    [discriminate| |apply IH].
  intros H. apply IH in H. by rewrite foldl_app.
Qed.

(** [r] names an entry of [l] whose confidence no entry of [l] exceeds. *)
Definition best_among (authors : list str) (l : list PB.BibliographyEntry) (r : best_t) : Prop :=
  exists e, e ∈ l /\ r = (Some (PB.id e), fuzzy authors e)
    /\ forall e', e' ∈ l -> (fuzzy authors e' <= fuzzy authors e)%Qc.

(** The entries that the fallback scan accepts. *)
Definition scan_candidates (self : validator) (authors : list str) (year : str)
    : list PB.BibliographyEntry :=
  filter (fun e => qualifies authors year e = true) (bibliography self).

Lemma q0_7_pos : (0 < q0_7)%Qc.
Proof. reflexivity. Qed.

Lemma find_single_match_spec self authors year r :
  index_ok (bibliography self) (bibliography_index self) ->
  (forall e, e ∈ bibliography self -> PB.id e <> []) ->
  _find_single_match self authors year = Ok r ->
  ((exists e, e ∈ exact_candidates self authors year /\ (0 < fuzzy authors e)%Qc)
   /\ best_among authors (exact_candidates self authors year) r)
  \/ ((forall e, e ∈ exact_candidates self authors year -> (fuzzy authors e <= 0)%Qc)
      /\ (best_among authors (scan_candidates self authors year) r
          \/ (scan_candidates self authors year = [] /\ r = (None, 0%Qc)))).
Proof.
  intros Hidx Hids. unfold _find_single_match.
  destruct (for_each authors _ _) as [best|] eqn:E; simpl; [|discriminate].
  apply exact_phase in E. fold (exact_candidates self authors year) in E.
  pose proof (foldl_consider authors (exact_candidates self authors year) (None, 0%Qc)) as H.
  cbv zeta in H. rewrite <- E in H. clear E.
  destruct H as [[-> Hall]|(e & He & -> & Hlt & Hmax)]; simpl.
  - intros [= <-]. right. split; [exact Hall|].
    pose proof (foldl_consider_scan authors year (bibliography self) (None, 0%Qc)) as H.
    cbv zeta in H. simpl in H.
    destruct H as [[-> Hnone]|(e & He & Hq & -> & Hlt & Hmax)].
    + right. split; [|reflexivity]. unfold scan_candidates.
      destruct (filter _ _) as [|x l'] eqn:F; [reflexivity|exfalso].
      assert (Hx : x ∈ filter (fun e => qualifies authors year e = true) (bibliography self))
        by (rewrite F; left).
      apply list_elem_of_filter in Hx as [Hq Hx].
      specialize (Hnone x Hx Hq). simpl in Hnone.
      unfold qualifies in Hq. apply andb_true_iff in Hq as [_ Hq]. apply Qc_ltb_lt in Hq.
      eapply Qclt_not_le; [|exact Hnone]. eapply Qclt_trans; [apply q0_7_pos|exact Hq].
    + left. exists e. split; [by apply list_elem_of_filter|]. split; [reflexivity|].
      intros e' [Hq' He']%list_elem_of_filter. by apply Hmax.
  - assert (Hne : nonempty (PB.id e) = true).
    { destruct (PB.id e) eqn:Hid; [exfalso|reflexivity].
      eapply Hids; [|exact Hid]. by eapply exact_candidates_in_bib. }
    rewrite Hne. simpl. intros [= <-]. left. split; [by exists e|]. by exists e.
Qed.

(** The id that a search returns is the id of an entry of the bibliography. *)
Lemma find_single_match_id self authors year r :
  index_ok (bibliography self) (bibliography_index self) ->
  _find_single_match self authors year = Ok r ->
  (r.1 = None /\ r.2 = 0%Qc)
  \/ exists e, e ∈ bibliography self /\ r.1 = Some (PB.id e).
Proof.
  intros Hidx. unfold _find_single_match.
  destruct (for_each authors _ _) as [best|] eqn:E; simpl; [|discriminate].
  apply exact_phase in E. fold (exact_candidates self authors year) in E.
  pose proof (foldl_consider authors (exact_candidates self authors year) (None, 0%Qc)) as H.
  cbv zeta in H. rewrite <- E in H. clear E.
  assert (Hscan : forall b : best_t,
            ((b.1 = None /\ b.2 = 0%Qc) \/ exists e, e ∈ bibliography self /\ b.1 = Some (PB.id e)) ->
            let r := foldl (fun b e => consider_scan authors year e b) b (bibliography self) in
            (r.1 = None /\ r.2 = 0%Qc) \/ exists e, e ∈ bibliography self /\ r.1 = Some (PB.id e)).
  { intros b Hb. pose proof (foldl_consider_scan authors year (bibliography self) b) as H'.
    cbv zeta in *. destruct H' as [[-> _]|(e & He & _ & -> & _)]; [assumption|].
    right. by exists e. }
  assert (Hbest : (best.1 = None /\ best.2 = 0%Qc)
                  \/ exists e, e ∈ bibliography self /\ best.1 = Some (PB.id e)).
  { destruct H as [[-> _]|(e & He & -> & _)]; [by left|].
    right. exists e. split; [by eapply exact_candidates_in_bib|reflexivity]. }
  destruct (negb (truthy best.1)); intros [= <-]; [by apply Hscan|assumption].
Qed.

(** C1 (as amended). For a regular citation (no 'multiple' payload, not of
    type secondary) with a non-empty author list and year, the search first
    looks up the keys normalized_author + "_" + year of its authors in the
    index: when some entry found there has a positive author similarity, the
    result is such an entry of the greatest similarity, with that
    similarity. Only when the lookup selects no entry (no key is present, or
    every entry found has similarity 0) does the search scan the whole
    bibliography, keeping the entries whose year equals the citation year and
    whose similarity exceeds 0.7: the result is one of the greatest
    similarity among them, with that similarity, or (null, 0) when there is
    none. *)
Theorem C1_single_match_search cf bf self citation r :
  load_data cf bf = Ok self ->
  (forall e, e ∈ bibliography self -> PB.id e <> []) ->
  EC.multiple (EC.normalized citation) = None ->
  EC.type citation <> EC.secondary ->
  let authors := default [] (EC.authors (EC.normalized citation)) in
  let year := default [] (EC.year (EC.normalized citation)) in
  authors <> [] -> year <> [] ->
  match_citation_to_bibliography self citation = Ok r ->
  ((exists e, e ∈ exact_candidates self authors year /\ (0 < fuzzy authors e)%Qc)
   /\ best_among authors (exact_candidates self authors year) r)
  \/ ((forall e, e ∈ exact_candidates self authors year -> (fuzzy authors e <= 0)%Qc)
      /\ (best_among authors (scan_candidates self authors year) r
          \/ (scan_candidates self authors year = [] /\ r = (None, 0%Qc)))).
Proof.
  intros Hload Hids Hmulti Htype authors year Ha Hy.
  unfold match_citation_to_bibliography. rewrite Hmulti.
  fold authors year.
  assert (Hcond : negb (nonempty authors) || negb (nonempty year) = false)
    by (destruct authors, year; try reflexivity; congruence).
  destruct (EC.type citation); try congruence; rewrite Hcond;
    apply find_single_match_spec; eauto using load_data_ok.
Qed.

(** ** [match_citation_to_bibliography] *)

(** A sub-citation resolves when its search returns a (truthy) id. *)
Definition resolves (self : validator) (s : EC.sub_citation) : bool :=
  match _find_single_match self (EC.sub_authors s) (EC.sub_year s) with
  | Ok m => truthy m.1
  | Raised _ => false
  end.

Lemma multiple_loop self (subs : list EC.sub_citation) (b b' : bool) :
  for_each subs
    (fun sub_citation all_found =>
       m <- _find_single_match self (EC.sub_authors sub_citation) (EC.sub_year sub_citation) ;;
       Ok (if negb (truthy m.1) then false else all_found)) b = Ok b' ->
  b' = b && forallb (resolves self) subs.
Proof.
  revert b. induction subs as [|s subs IH]; intros b; simpl.
  - intros [= <-]. by rewrite andb_true_r.
  - unfold resolves at 1.
    destruct (_find_single_match self _ _) as [m|]; simpl; [|discriminate].
    intros H. apply IH in H. rewrite H.
    destruct (truthy m.1), b; reflexivity.
Qed.

Definition multiple_valid : str := lit "multiple_valid".

Lemma match_multiple self citation subs m :
  EC.multiple (EC.normalized citation) = Some subs ->
  match_citation_to_bibliography self citation = Ok m ->
  m = if forallb (resolves self) subs then (Some multiple_valid, q0_9) else (None, 0%Qc).
Proof.
  intros Hsubs. unfold match_citation_to_bibliography. rewrite Hsubs.
  destruct (for_each subs _ true) as [all_found|] eqn:E; simpl; [|discriminate].
  apply multiple_loop in E. simpl in E. subst all_found.
  destruct (forallb _ _); by intros [= <-].
Qed.


(** ** [validate_all] *)

Lemma existsb_format_issues (s : severity_t) (fi : list str) :
  existsb (has_severity s) (map (fun i => Issue format sev_warning (Text i)) fi)
  = match s with sev_warning => nonempty fi | _ => false end.
Proof.
  induction fi as [|i fi IH]; simpl; [by destruct s|].
  rewrite IH. by destruct s.
Qed.

Lemma in_format_issues (i : issue) (fi : list str) :
  i ∈ map (fun i0 => Issue format sev_warning (Text i0)) fi ->
  i_type i = format /\ severity i = sev_warning.
Proof. rewrite list_elem_of_In, in_map_iff. by intros (? & <- & _). Qed.

Lemma make_result_props self citation fi (m : best_t) :
  let r := make_result self citation fi m in
  citation_id r = EC.id citation
  /\ matched_bibliography r = m.1
  /\ confidence r = (if truthy m.1 then m.2 else 0%Qc)
  /\ (status r = PB.invalid <-> truthy m.1 = false)
  /\ (forall i, i ∈ issues r -> severity i = sev_error -> i_type i = missing_bibliography)
  /\ (forall i, i ∈ issues r -> i_type i = format -> severity i = sev_warning).
Proof.
  destruct m as [matched_bib match_confidence]. unfold make_result. simpl.
  destruct (truthy matched_bib) eqn:T; simpl; [destruct (Qc_ltb match_confidence q0_8)|];
    simpl; rewrite ?existsb_app, ?existsb_format_issues; simpl;
    (split; [reflexivity|]); (split; [reflexivity|]); (split; [reflexivity|]).
  all: split; [try (destruct (nonempty fi)); simpl; split; intros; congruence|].
  all: split; intros i; rewrite ?elem_of_app, ?list_elem_of_singleton;
    first [intros [[? ?]%in_format_issues| ->] | intros [? ?]%in_format_issues];
    simpl; congruence.
Qed.

Lemma validate_step_results self citation st :
  let out := validate_step self citation st in
  validation_results out.1 = validation_results st
  \/ exists m, match_citation_to_bibliography self citation = Ok m
       /\ validation_results out.1
          = validation_results st ++ [make_result self citation (format_issues citation) m].
Proof.
  unfold validate_step, validate_citation_format. cbv zeta.
  destruct (match_citation_to_bibliography self citation) as [m|]; [|by left].
  right. exists m. split; [reflexivity|].
  destruct (cit_key citation); reflexivity.
Qed.

Lemma validate_loop_results self cits st r :
  r ∈ validation_results (validate_loop self cits st).1 ->
  r ∈ validation_results st
  \/ exists citation m, citation ∈ cits
       /\ match_citation_to_bibliography self citation = Ok m
       /\ r = make_result self citation (format_issues citation) m.
Proof.
  revert st. induction cits as [|c cits IH]; intros st; simpl; [by left|].
  pose proof (validate_step_results self c st) as Hstep. cbv zeta in Hstep.
  destruct (validate_step self c st) as [st' [e|]]; simpl in *.
  - intros Hr. destruct Hstep as [Heq|(m & Hm & Heq)]; rewrite Heq in Hr; [by left|].
    apply elem_of_app in Hr as [Hr|Hr]; [by left|].
    apply list_elem_of_singleton in Hr as ->. right. exists c, m. split; [by left|done].
  - intros Hr. apply IH in Hr as [Hr|(c' & m & Hc' & Hm & ->)].
    + destruct Hstep as [Heq|(m & Hm & Heq)]; rewrite Heq in Hr; [by left|].
      apply elem_of_app in Hr as [Hr|Hr]; [by left|].
      apply list_elem_of_singleton in Hr as ->. right. exists c, m. split; [by left|done].
    + right. exists c', m. split; [by right|done].
Qed.

Lemma validate_all_results self r :
  r ∈ (validate_all self).1 ->
  exists citation m, citation ∈ citations self
    /\ match_citation_to_bibliography self citation = Ok m
    /\ r = make_result self citation (format_issues citation) m.
Proof.
  unfold validate_all.
  destruct (validate_loop self (citations self) (Progress [] [] [] [])) as [st raised] eqn:E.
  simpl. intros Hr.
  assert (H : r ∈ validation_results (validate_loop self (citations self) (Progress [] [] [] [])).1)
    by (by rewrite E).
  apply validate_loop_results in H as [H|H]; [inversion H|assumption].
Qed.


(** C8. For a citation with a 'multiple' payload, each sub-citation is
    searched on its own, and the match is ('multiple_valid', 0.9) if and only
    if every sub-citation resolves to an entry of the bibliography;
    otherwise it is (null, 0). The result of the citation carries that pair:
    unmatched with confidence 0 when a sub-citation fails. *)
Theorem C8_multiple_citations cf bf self citation subs m :
  load_data cf bf = Ok self ->
  EC.multiple (EC.normalized citation) = Some subs ->
  match_citation_to_bibliography self citation = Ok m ->
  (m = (Some multiple_valid, q0_9)
   <-> forall s, s ∈ subs ->
         exists e q, e ∈ bibliography self /\ PB.id e <> []
           /\ _find_single_match self (EC.sub_authors s) (EC.sub_year s)
              = Ok (Some (PB.id e), q))
  /\ (m = (Some multiple_valid, q0_9) \/ m = (None, 0%Qc))
  /\ (forall fi, matched_bibliography (make_result self citation fi m) = m.1
                 /\ confidence (make_result self citation fi m) = m.2).
Proof.
  intros Hload Hsubs Hm. pose proof (load_data_ok _ _ _ Hload) as Hidx.
  rewrite (match_multiple _ _ _ _ Hsubs Hm).
  assert (Hres : forall s, resolves self s = true <->
            exists e q, e ∈ bibliography self /\ PB.id e <> []
              /\ _find_single_match self (EC.sub_authors s) (EC.sub_year s)
                 = Ok (Some (PB.id e), q)).
  { intros s. unfold resolves. split.
    - destruct (_find_single_match self _ _) as [[i q]|] eqn:E; [|discriminate].
      simpl. intros Ht.
      destruct (find_single_match_id _ _ _ _ Hidx E) as [[Hn _]|(e & He & Hi)];
        simpl in *; subst i; [discriminate|].
      exists e, q. split; [assumption|]. split; [|reflexivity].
      intros Hnil. rewrite Hnil in Ht. discriminate.
    - intros (e & q & _ & Hne & ->). simpl. by destruct (PB.id e). }
  split; [|split].
  - destruct (forallb (resolves self) subs) eqn:F.
    + split; [|reflexivity]. intros _ s Hs. apply Hres.
      rewrite forallb_forall in F. apply F. by apply list_elem_of_In.
    + split; [discriminate|]. intros Hall. exfalso.
      assert (forallb (resolves self) subs = true); [|congruence].
      apply forallb_forall. intros s Hs. apply Hres, Hall. by apply list_elem_of_In.
  - destruct (forallb _ _); auto.
  - intros fi. pose proof (make_result_props self citation fi
      (if forallb (resolves self) subs then (Some multiple_valid, q0_9) else (None, 0%Qc))) as H.
    cbv zeta in H. destruct H as (_ & -> & -> & _).
    destruct (forallb _ _); split; reflexivity.
Qed.

(** The issue that stands for one message of [validate_citation_format], and
    the issue of a citation without a match. *)
Definition format_issue (text : str) : issue := Issue format sev_warning (Text text).
Definition missing_issue : issue :=
  Issue missing_bibliography sev_error (Text (lit "No matching bibliography entry found")).









End ValidatorFacts.

(* ===================================================================== *)
(** * Part X. The sequence matcher: facts                                 *)
(* ===================================================================== *)

Module DifflibFacts.
Import Difflib.

(** ** The match found lies in the region searched *)

Section Bounds.
Variables (b : str) (alo blo bhi : nat).

(** [j2len] after [n] rows: lengths of runs that fit in the region. *)
Definition j2len_fits (n : nat) (j2len : gmap nat nat) : Prop :=
  forall j v, j2len !! j = Some v -> v <= n /\ v <= j + 1 - blo.

(** The best match so far, after [n] rows. *)
Definition best_fits (n : nat) (best : triple) : Prop :=
  alo <= best.1.1 /\ best.1.1 + best.2 <= alo + n
  /\ blo <= best.1.2 /\ best.1.2 + best.2 <= bhi.

Lemma j2len_get_fits n j2len j :
  j2len_fits n j2len -> blo <= j ->
  j2len_get j2len j + 1 <= n + 1 /\ j2len_get j2len j + 1 <= j + 1 - blo.
Proof.
  intros Hfits Hj. destruct j as [|j']; simpl; [lia|].
  destruct (j2len !! j') as [v|] eqn:E; simpl; [|lia].
  apply Hfits in E. lia.
Qed.

Lemma inner_fits n js j2len newj2len best :
  j2len_fits n j2len -> j2len_fits (n + 1) newj2len -> best_fits (n + 1) best ->
  let out := inner (alo + n) blo bhi js j2len newj2len best in
  j2len_fits (n + 1) out.1 /\ best_fits (n + 1) out.2.
Proof.
  intros Hold. revert newj2len best.
  induction js as [|j js IH]; intros newj2len best Hnew Hbest; simpl; [done|].
  destruct (j <? blo) eqn:E1; [by apply IH|].
  destruct (bhi <=? j) eqn:E2; [done|].
  apply Nat.ltb_ge in E1. apply Nat.leb_gt in E2.
  destruct (j2len_get_fits n j2len j Hold E1) as [Hk1 Hk2].
  apply IH.
  - intros j' v. rewrite lookup_insert. case_decide; [|by apply Hnew].
    intros [= <-]. subst j'. lia.
  - destruct best as [[bi bj] bk]. simpl.
    destruct (bk <? j2len_get j2len j + 1); [|assumption].
    unfold best_fits. simpl. lia.
Qed.

Lemma best_fits_mono n m best : n <= m -> best_fits n best -> best_fits m best.
Proof. unfold best_fits. lia. Qed.

Lemma outer_fits row n j2len best :
  j2len_fits n j2len -> best_fits n best ->
  best_fits (n + length row) (outer b blo bhi (alo + n) row j2len best).
Proof.
  revert n j2len best. induction row as [|x row IH]; intros n j2len best Hj Hb; simpl.
  - by rewrite Nat.add_0_r.
  - pose proof (inner_fits n (b2j b x) j2len ∅ best Hj) as H.
    destruct (inner (alo + n) blo bhi (b2j b x) j2len ∅ best) as [newj2len best'].
    simpl in H. destruct H as [Hn Hb'].
    + intros j v. rewrite lookup_empty. discriminate.
    + eapply best_fits_mono; [|eassumption]. lia.
    + replace (S (alo + n)) with (alo + (n + 1)) by lia.
      replace (n + S (length row)) with (n + 1 + length row) by lia.
      by apply IH.
Qed.

End Bounds.

(** What [find_longest_match] returns lies inside the region. *)
Definition inside (alo ahi blo bhi : nat) (best : triple) : Prop :=
  alo <= best.1.1 /\ best.1.1 + best.2 <= ahi /\ blo <= best.1.2 /\ best.1.2 + best.2 <= bhi.

Lemma extend_left_inside fuel a b alo ahi blo bhi best :
  inside alo ahi blo bhi best -> inside alo ahi blo bhi (extend_left fuel a b alo blo best).
Proof.
  revert best. induction fuel as [|fuel IH]; intros [[i j] k] H; simpl; [done|].
  destruct ((alo <? i) && (blo <? j) && same_at a b (i - 1) (j - 1)) eqn:E; [|done].
  apply andb_true_iff in E as [E _]. apply andb_true_iff in E as [E1 E2].
  apply Nat.ltb_lt in E1, E2. apply IH. unfold inside in *. simpl in *. lia.
Qed.

Lemma extend_right_inside fuel a b alo ahi blo bhi best :
  inside alo ahi blo bhi best -> inside alo ahi blo bhi (extend_right fuel a b ahi bhi best).
Proof.
  revert best. induction fuel as [|fuel IH]; intros [[i j] k] H; simpl; [done|].
  destruct ((i + k <? ahi) && (j + k <? bhi) && same_at a b (i + k) (j + k)) eqn:E; [|done].
  apply andb_true_iff in E as [E _]. apply andb_true_iff in E as [E1 E2].
  apply Nat.ltb_lt in E1, E2. apply IH. unfold inside in *. simpl in *. lia.
Qed.

Lemma length_slice (s : str) i j : length (Re.slice s i j) <= j - i.
Proof. unfold Re.slice. rewrite length_take. lia. Qed.

Lemma find_longest_match_inside a b alo ahi blo bhi :
  alo <= ahi -> blo <= bhi ->
  inside alo ahi blo bhi (find_longest_match a b alo ahi blo bhi).
Proof.
  intros Ha Hb. unfold find_longest_match. cbv zeta.
  apply extend_right_inside, extend_left_inside.
  pose proof (outer_fits b alo blo bhi (Re.slice a alo ahi) 0 ∅ (alo, blo, 0)) as H.
  rewrite Nat.add_0_r in H.
  pose proof (length_slice a alo ahi).
  destruct H as (H1 & H2 & H3 & H4).
  - intros j v. rewrite lookup_empty. discriminate.
  - unfold best_fits. simpl. lia.
  - unfold inside. lia.
Qed.

(** ** The work list empties within its fuel *)

Definition region_ok (r : region) : Prop :=
  let '(alo, ahi, blo, bhi) := r in alo <= ahi /\ blo <= bhi.

Definition weight (queue : list region) : nat :=
  foldr (fun r acc => let '(alo, ahi, _, _) := r in 2 * (ahi - alo) + 1 + acc) 0 queue.

Lemma blocks_loop_total fuel a b queue acc :
  Forall region_ok queue -> weight queue <= fuel ->
  is_Some (blocks_loop fuel a b queue acc).
Proof.
  revert queue acc. induction fuel as [|fuel IH]; intros queue acc Hok Hw.
  - destruct queue as [|[[[alo ahi] blo] bhi] queue]; simpl in *; [by eexists|lia].
  - destruct queue as [|[[[alo ahi] blo] bhi] queue]; simpl in *; [by eexists|].
    inversion Hok as [|? ? Hr Hrest]; subst. simpl in Hr. destruct Hr as [Ha Hb].
    pose proof (find_longest_match_inside a b alo ahi blo bhi Ha Hb) as Hin.
    destruct (find_longest_match a b alo ahi blo bhi) as [[i j] k].
    unfold inside in Hin. simpl in Hin.
    destruct (0 <? k) eqn:Ek; [|apply IH; [assumption|lia]].
    apply Nat.ltb_lt in Ek.
    apply IH.
    + destruct ((alo <? i) && (blo <? j)) eqn:E1, ((i + k <? ahi) && (j + k <? bhi)) eqn:E2;
        simpl; repeat constructor; try assumption; lia.
    + destruct ((alo <? i) && (blo <? j)) eqn:E1, ((i + k <? ahi) && (j + k <? bhi)) eqn:E2;
        simpl; lia.
Qed.

(** [matching_blocks] is total: the fuel it gives suffices. *)
Lemma matching_blocks_total a b : is_Some (matching_blocks a b).
Proof.
  unfold matching_blocks. apply blocks_loop_total.
  - repeat constructor; lia.
  - simpl. lia.
Qed.

Lemma blocks_loop_done fuel a b acc : blocks_loop fuel a b [] acc = Some acc.
Proof. by destruct fuel. Qed.

(** ** Sequences without a common element *)










(** ** A sequence against itself *)

Lemma elem_of_indices_from c b j0 j :
  j ∈ indices_from c b j0 <-> j0 <= j /\ b !! (j - j0) = Some c.
Proof.
  revert j0. induction b as [|y b IH]; intros j0; simpl.
  - split; [by intros ?%elem_of_nil|by intros [_ ?]].
  - assert (Hrest : j ∈ indices_from c b (S j0) <-> j0 < j /\ (y :: b) !! (j - j0) = Some c).
    { rewrite IH. split; intros [H1 H2]; (split; [lia|]).
      - replace (j - j0) with (S (j - S j0)) by lia. done.
      - replace (j - j0) with (S (j - S j0)) in H2 by lia. done. }
    destruct (N.eqb_spec c y) as [->|Hne].
    + rewrite elem_of_cons, Hrest. split.
      * intros [->|[H1 H2]]; [|split; [lia|done]]. split; [lia|]. by rewrite Nat.sub_diag.
      * intros [H1 H2]. destruct (decide (j = j0)) as [->|]; [by left|right]. split; [lia|done].
    + rewrite Hrest. split; intros [H1 H2]; (split; [|done]); [lia|].
      destruct (decide (j = j0)) as [->|]; [|lia].
      rewrite Nat.sub_diag in H2. simpl in H2. congruence.
Qed.

Lemma elem_of_indices b c j : j ∈ indices b c <-> b !! j = Some c.
Proof.
  unfold indices. rewrite elem_of_indices_from, Nat.sub_0_r. split; [by intros [_ ?]|].
  intros ?. split; [lia|done].
Qed.

Lemma indices_from_sorted c b j0 : StronglySorted lt (indices_from c b j0).
Proof.
  revert j0. induction b as [|y b IH]; intros j0; simpl; [constructor|].
  destruct (c =? y)%N; [|apply IH].
  constructor; [apply IH|].
  apply Forall_forall. intros j Hj. apply elem_of_indices_from in Hj. lia.
Qed.

Section Self.
Variable x : str.

(** The length of the run of elements that are not popular and ends at [i]. *)
Fixpoint run_at (i : nat) : nat :=
  match x !! i with
  | Some c =>
      if popular x c then 0
      else S (match i with O => 0 | S i' => run_at i' end)
  | None => 0
  end.

Lemma run_at_eq i c :
  x !! i = Some c -> popular x c = false ->
  run_at i = S (match i with O => 0 | S i' => run_at i' end).
Proof. intros H1 H2. destruct i; simpl; by rewrite H1, H2. Qed.

Lemma run_at_popular i c : x !! i = Some c -> popular x c = true -> run_at i = 0.
Proof. intros H1 H2. destruct i; simpl; by rewrite H1, H2. Qed.

(** [j2len] as the row before [i] left it. *)
Definition row_ok (i : nat) (L : gmap nat nat) : Prop :=
  (forall j v, L !! j = Some v ->
     1 <= v /\ v <= run_at j /\ exists i', i = S i' /\ v <= run_at i')
  /\ (forall i' c, i = S i' -> x !! i' = Some c -> popular x c = false ->
        L !! i' = Some (run_at i')).

Lemma j2len_get_self i c L j :
  row_ok i L -> x !! i = Some c -> popular x c = false -> x !! j = Some c ->
  1 <= j2len_get L j + 1 /\ j2len_get L j + 1 <= run_at j
  /\ j2len_get L j + 1 <= run_at i
  /\ (j = i -> j2len_get L j + 1 = run_at i).
Proof.
  intros [H1 H2] Hi Hc Hj.
  rewrite (run_at_eq j c Hj Hc), (run_at_eq i c Hi Hc).
  destruct j as [|j']; simpl.
  - repeat split; try lia. by intros <-.
  - destruct (L !! j') as [v|] eqn:E; simpl.
    + destruct (H1 _ _ E) as (Hv1 & Hv2 & i' & -> & Hv3).
      repeat split; try lia. intros [= ->].
      assert (Hlt : i' < length x) by (apply lookup_lt_Some in Hi; lia).
      destruct (lookup_lt_is_Some_2 x i' Hlt) as [c' Hc'].
      destruct (popular x c') eqn:P.
      * rewrite (run_at_popular _ _ Hc' P) in Hv3. lia.
      * rewrite (H2 i' c' eq_refl Hc' P) in E. injection E as E. lia.
    + repeat split; try lia.
      intros <-.
      assert (Hlt : j' < length x) by (apply lookup_lt_Some in Hi; lia).
      destruct (lookup_lt_is_Some_2 x j' Hlt) as [c' Hc'].
      destruct (popular x c') eqn:P.
      * by rewrite (run_at_popular _ _ Hc' P).
      * rewrite (H2 j' c' eq_refl Hc' P) in E. discriminate.
Qed.

Lemma inner_self i c L js NL best :
  row_ok i L -> x !! i = Some c -> popular x c = false ->
  StronglySorted lt js -> (forall j, j ∈ js -> x !! j = Some c) ->
  (forall j v, NL !! j = Some v -> 1 <= v /\ v <= run_at j /\ v <= run_at i) ->
  (i ∉ js -> NL !! i = Some (run_at i)) ->
  best.1.1 = best.1.2 -> (forall i', i' < i -> run_at i' <= best.2) ->
  (i ∉ js -> run_at i <= best.2) ->
  let out := inner i 0 (length x) js L NL best in
  (forall j v, out.1 !! j = Some v -> 1 <= v /\ v <= run_at j /\ v <= run_at i)
  /\ out.1 !! i = Some (run_at i)
  /\ out.2.1.1 = out.2.1.2
  /\ (forall i', i' < S i -> run_at i' <= out.2.2).
Proof.
  intros Hrow Hi Hc. revert NL best.
  induction js as [|j js IH]; intros NL best Hsorted Hjs HNL Hflag Hdiag Hbefore Hbflag; simpl.
  - split; [done|]. split; [apply Hflag, not_elem_of_nil|]. split; [done|].
    intros i' Hi'. destruct (decide (i' = i)) as [->|].
    + apply Hbflag, not_elem_of_nil.
    + apply Hbefore. lia.
  - assert (Hj : x !! j = Some c) by (apply Hjs; left).
    pose proof (lookup_lt_Some _ _ _ Hj) as Hlt.
    destruct (length x <=? j) eqn:E; [apply Nat.leb_le in E; lia|]. clear E.
    destruct (j2len_get_self i c L j Hrow Hi Hc Hj) as (Hk1 & Hk2 & Hk3 & Hk4).
    inversion Hsorted as [|? ? Hsorted' Hhd]; subst.
    rewrite Forall_forall in Hhd.
    set (k := j2len_get L j + 1) in *.
    assert (Hupd : (best.2 <? k) = true -> j = i).
    { intros Hlt'%Nat.ltb_lt. destruct (decide (j = i)) as [|Hne]; [done|exfalso].
      destruct (decide (j < i)) as [Hji|Hji].
      - specialize (Hbefore j Hji). lia.
      - assert (Hnotin : i ∉ j :: js).
        { intros [->|Hin]%elem_of_cons; [done|]. apply Hhd in Hin. lia. }
        specialize (Hbflag Hnotin). lia. }
    apply IH; clear IH.
    + done.
    + intros j' Hj'. apply Hjs. by right.
    + intros j' v. rewrite lookup_insert. case_decide; [|by apply HNL].
      intros [= <-]. subst j'. done.
    + intros Hnotin. rewrite lookup_insert. case_decide as Hji.
      * subst j. by rewrite Hk4.
      * apply Hflag. intros [->|?]%elem_of_cons; done.
    + destruct (best.2 <? k) eqn:E; [|done]. rewrite (Hupd eq_refl). done.
    + intros i' Hi'. specialize (Hbefore i' Hi').
      destruct (best.2 <? k) eqn:E; [|done]. apply Nat.ltb_lt in E. simpl. lia.
    + intros Hnotin. destruct (decide (j = i)) as [->|Hne].
      * rewrite <- (Hk4 eq_refl).
        destruct (best.2 <? k) eqn:E; [done|]. by apply Nat.ltb_ge in E.
      * assert (Hnotin' : i ∉ j :: js) by (intros [->|?]%elem_of_cons; done).
        specialize (Hbflag Hnotin').
        destruct (best.2 <? k) eqn:E; [|done]. by specialize (Hupd eq_refl).
Qed.

(** The best match so far lies on the diagonal and is at least as long as
    every run that ends before row [i]. *)
Definition diag_ok (i : nat) (best : triple) : Prop :=
  best.1.1 = best.1.2 /\ forall i', i' < i -> run_at i' <= best.2.

Lemma outer_self pre row L best :
  x = pre ++ row -> row_ok (length pre) L -> diag_ok (length pre) best ->
  diag_ok (length x) (outer x 0 (length x) (length pre) row L best).
Proof.
  revert pre L best. induction row as [|c row IH]; intros pre L best Hx Hrow Hdiag; simpl.
  - assert (Hl : length x = length pre)
      by (apply (f_equal length) in Hx; rewrite length_app in Hx; simpl in Hx; lia).
    by rewrite Hl.
  - assert (Hi : x !! length pre = Some c).
    { rewrite Hx. by rewrite lookup_app_r, Nat.sub_diag by lia. }
    assert (Hx' : x = (pre ++ [c]) ++ row) by (by rewrite <- app_assoc).
    assert (Hlen : length (pre ++ [c]) = S (length pre)) by (rewrite length_app; simpl; lia).
    unfold b2j. destruct (popular x c) eqn:P.
    + simpl. rewrite <- Hlen. apply IH; [done| |].
      * rewrite Hlen. split.
        -- intros j v. rewrite lookup_empty. discriminate.
        -- intros i' c' [= <-] Hc' P'. congruence.
      * rewrite Hlen. destruct Hdiag as [Hd Hb]. split; [done|].
        intros i' Hi'. destruct (decide (i' = length pre)) as [->|].
        -- rewrite (run_at_popular _ _ Hi P). lia.
        -- apply Hb. lia.
    + destruct Hdiag as [Hd Hb].
      pose proof (inner_self (length pre) c L (indices x c) ∅ best Hrow Hi P) as H.
      destruct (inner (length pre) 0 (length x) (indices x c) L ∅ best) as [NL best'].
      simpl in H. destruct H as (HNL & Hat & Hd' & Hb').
      * apply indices_from_sorted.
      * intros j. apply elem_of_indices.
      * intros j v. rewrite lookup_empty. discriminate.
      * intros Hnotin. exfalso. apply Hnotin. by apply elem_of_indices.
      * done.
      * done.
      * intros Hnotin. exfalso. apply Hnotin. by apply elem_of_indices.
      * rewrite <- Hlen. apply IH; [done| |].
        -- rewrite Hlen. split.
           ++ intros j v Hv. destruct (HNL j v Hv) as (? & ? & ?).
              split; [done|]. split; [done|]. by exists (length pre).
           ++ intros i' c' [= <-] Hc' P'. done.
        -- rewrite Hlen. by split.
Qed.

Lemma same_at_self i : i < length x -> same_at x x i i = true.
Proof.
  intros Hi. unfold same_at. destruct (lookup_lt_is_Some_2 x i Hi) as [c ->].
  apply N.eqb_refl.
Qed.

Lemma extend_left_self fuel d k :
  d <= fuel -> d <= length x -> extend_left fuel x x 0 0 (d, d, k) = (0, 0, k + d).
Proof.
  revert d k. induction fuel as [|fuel IH]; intros d k Hf Hd; simpl.
  - replace d with 0 by lia. by rewrite Nat.add_0_r.
  - destruct d as [|d]; simpl; [by rewrite Nat.add_0_r|].
    rewrite Nat.sub_0_r, same_at_self by lia. simpl.
    rewrite IH by lia. f_equal. lia.
Qed.

Lemma extend_right_self fuel k :
  k <= length x -> length x - k <= fuel ->
  extend_right fuel x x (length x) (length x) (0, 0, k) = (0, 0, length x).
Proof.
  revert k. induction fuel as [|fuel IH]; intros k Hk Hf; simpl.
  - f_equal. lia.
  - destruct (k <? length x) eqn:E; simpl.
    + apply Nat.ltb_lt in E. rewrite same_at_self by lia. apply IH; lia.
    + apply Nat.ltb_ge in E. f_equal. lia.
Qed.

Lemma slice_all : Re.slice x 0 (length x) = x.
Proof. unfold Re.slice. rewrite Nat.sub_0_r, drop_0. apply firstn_all. Qed.

Lemma find_longest_match_self :
  find_longest_match x x 0 (length x) 0 (length x) = (0, 0, length x).
Proof.
  unfold find_longest_match. cbv zeta. rewrite slice_all.
  pose proof (outer_self [] x ∅ (0, 0, 0) eq_refl) as Hdiag.
  pose proof (outer_fits x 0 0 (length x) x 0 ∅ (0, 0, 0)) as Hfits.
  simpl in Hdiag, Hfits.
  destruct (outer x 0 (length x) 0 x ∅ (0, 0, 0)) as [[bi bj] bk].
  destruct Hdiag as [Hd _].
  { split.
    - intros j v. rewrite lookup_empty. discriminate.
    - intros i' c [=]. }
  { split; [done|]. intros i' Hi'. lia. }
  destruct Hfits as (_ & Hf & _).
  { intros j v. rewrite lookup_empty. discriminate. }
  { unfold best_fits. simpl. lia. }
  simpl in *. subst bj.
  rewrite extend_left_self by lia. apply extend_right_self; lia.
Qed.

End Self.

Lemma Qc_of_nats_same n : 0 < n -> Qc_of_nats n n = 1%Qc.
Proof.
  intros Hn. unfold Qc_of_nats. apply Qc_is_canon. simpl. rewrite Qred_correct.
  unfold Qeq. simpl.
  rewrite Z.mul_1_r, Z.mul_1_l, <- (positive_nat_Z (Pos.of_nat n)), Nat2Pos.id by lia. done.
Qed.

(** A sequence has ratio 1 to itself, whatever its length. *)
Lemma ratio_self x : ratio x x = 1%Qc.
Proof.
  unfold ratio, matches, matching_blocks.
  replace (2 * length x + 2) with (S (2 * length x + 1)) by lia. simpl.
  rewrite find_longest_match_self.
  destruct (0 <? length x) eqn:E; simpl.
  - rewrite Nat.ltb_irrefl. simpl.
    replace (length x <? length x) with false by (symmetry; apply Nat.ltb_irrefl).
    simpl. rewrite blocks_loop_done. simpl.
    unfold calculate_ratio. apply Nat.ltb_lt in E.
    replace (0 <? length x + length x) with true by (symmetry; apply Nat.ltb_lt; lia).
    replace (2 * (length x + 0)) with (length x + length x) by lia.
    apply Qc_of_nats_same. lia.
  - rewrite blocks_loop_done. simpl. apply Nat.ltb_ge in E.
    unfold calculate_ratio. by replace (length x + length x) with 0 by lia.
Qed.

(** ** The ratio is a number between 0 and 1 *)

(** The elements of [a], and of [b], that the regions of the work list cover. *)
Definition width_a (queue : list region) : nat :=
  foldr (fun r acc => let '(alo, ahi, _, _) := r in (ahi - alo) + acc) 0 queue.
Definition width_b (queue : list region) : nat :=
  foldr (fun r acc => let '(_, _, blo, bhi) := r in (bhi - blo) + acc) 0 queue.

Lemma sum_sizes_snoc l t : sum_sizes (l ++ [t]) = sum_sizes l + t.2.
Proof. induction l as [|x l IH]; simpl; [lia|]. rewrite IH. lia. Qed.

(** The blocks found are disjoint pieces of the regions searched. *)
Lemma blocks_loop_sum fuel a b queue acc l :
  Forall region_ok queue -> blocks_loop fuel a b queue acc = Some l ->
  sum_sizes l <= sum_sizes acc + width_a queue
  /\ sum_sizes l <= sum_sizes acc + width_b queue.
Proof.
  revert queue acc. induction fuel as [|fuel IH]; intros queue acc Hok.
  - destruct queue as [|[[[alo ahi] blo] bhi] queue]; simpl; [|discriminate].
    intros [= <-]. lia.
  - destruct queue as [|[[[alo ahi] blo] bhi] queue]; simpl.
    { intros [= <-]. lia. }
    inversion Hok as [|? ? Hr Hrest]; subst. simpl in Hr. destruct Hr as [Ha Hb].
    pose proof (find_longest_match_inside a b alo ahi blo bhi Ha Hb) as Hin.
    destruct (find_longest_match a b alo ahi blo bhi) as [[i j] k].
    unfold inside in Hin. simpl in Hin.
    destruct (0 <? k) eqn:Ek.
    + intros H. apply IH in H.
      * rewrite sum_sizes_snoc in H. simpl in H.
        destruct ((alo <? i) && (blo <? j)) eqn:E1, ((i + k <? ahi) && (j + k <? bhi)) eqn:E2;
          simpl in H; lia.
      * destruct ((alo <? i) && (blo <? j)) eqn:E1, ((i + k <? ahi) && (j + k <? bhi)) eqn:E2;
          simpl; repeat constructor; try assumption; lia.
    + intros H. apply IH in H; [lia|assumption].
Qed.

(** No more elements are matched than either sequence has. *)
Lemma matches_le a b : matches a b <= length a /\ matches a b <= length b.
Proof.
  unfold matches. destruct (matching_blocks a b) as [l|] eqn:E; [|lia].
  unfold matching_blocks in E. apply blocks_loop_sum in E.
  - simpl in E. lia.
  - repeat constructor; lia.
Qed.

Lemma Qc_of_nats_range p q : p <= q -> (0 <= Qc_of_nats p q /\ Qc_of_nats p q <= 1)%Qc.
Proof.
  intros Hpq. unfold Qc_of_nats, Qcle. simpl. rewrite !Qred_correct.
  unfold Qle. simpl. split; [lia|].
  destruct q as [|q]; [assert (p = 0) as -> by lia; simpl; lia|].
  rewrite Z.mul_1_r, Z.mul_1_l.
  pose proof (positive_nat_Z (Pos.of_nat (S q))) as H.
  rewrite Nat2Pos.id in H by lia. lia.
Qed.

(** [ratio] is a number between 0 and 1. *)
Lemma ratio_range a b : (0 <= ratio a b /\ ratio a b <= 1)%Qc.
Proof.
  unfold ratio, calculate_ratio. destruct (0 <? length a + length b); [|done].
  apply Qc_of_nats_range. pose proof (matches_le a b). lia.
Qed.

End DifflibFacts.

(* ===================================================================== *)
(** * Part XI. Similarity of names: facts                                 *)
(* ===================================================================== *)

Section Similarity.
Import ValidateReferences.





























End Similarity.


(* ===================================================================== *)
(** * Part XII. Scores, results and reports: further facts                *)
(* ===================================================================== *)

Section ScoreFacts.
Import ValidateReferences.

(** A score: a number between 0 and 1. *)
Definition score (q : Qc) : Prop := (0 <= q)%Qc /\ (q <= 1)%Qc.

Lemma score_0 : score 0%Qc.
Proof. split; unfold Qcle, Qle; simpl; lia. Qed.

Lemma score_1 : score 1%Qc.
Proof. split; unfold Qcle, Qle; simpl; lia. Qed.

Lemma calculate_similarity_score s t : score (_calculate_similarity s t).
Proof. unfold _calculate_similarity. cbv zeta. exact (DifflibFacts.ratio_range _ _). Qed.

Lemma Qc_max_score x y : score x -> score y -> score (Qc_max x y).
Proof. intros Hx Hy. unfold Qc_max. destruct (Qc_ltb x y); assumption. Qed.

Lemma Qc_max_ge x y : (x <= Qc_max x y)%Qc /\ (y <= Qc_max x y)%Qc.
Proof.
  unfold Qc_max. destruct (Qc_ltb x y) eqn:E.
  - apply Qc_ltb_lt in E. split; [apply Qclt_le_weak; exact E|apply Qcle_refl].
  - apply Qc_ltb_ge in E. split; [apply Qcle_refl|exact E].
Qed.

Lemma best_similarity_from (q : Qc) cit_author l :
  score q ->
  score (foldl (fun best_match bib_author =>
                  Qc_max best_match (_calculate_similarity cit_author bib_author)) q l)
  /\ forall b, b ∈ l ->
       (_calculate_similarity cit_author b
        <= foldl (fun best_match bib_author =>
                    Qc_max best_match (_calculate_similarity cit_author bib_author)) q l)%Qc.
Proof.
  revert q. induction l as [|x l IH]; intros q Hq; simpl.
  - split; [exact Hq|]. intros b Hb. inversion Hb.
  - pose proof (Qc_max_ge q (_calculate_similarity cit_author x)) as [H1 H2].
    assert (Hs : score (Qc_max q (_calculate_similarity cit_author x))).
    { apply Qc_max_score; [exact Hq|apply calculate_similarity_score]. }
    destruct (IH _ Hs) as [Hr Hall]. split; [exact Hr|].
    intros b Hb. apply elem_of_cons in Hb as [->|Hb]; [|apply Hall; exact Hb].
    eapply Qcle_trans; [exact H2|].
    clear -Hs. revert Hs. generalize (Qc_max q (_calculate_similarity cit_author x)).
    induction l as [|y l IH]; intros q0 Hq0; simpl; [apply Qcle_refl|].
    eapply Qcle_trans; [|apply IH].
    + apply Qc_max_ge.
    + apply Qc_max_score; [exact Hq0|apply calculate_similarity_score].
Qed.

Lemma best_similarity_score cit_author l : score (best_similarity cit_author l).
Proof. unfold best_similarity. exact (proj1 (best_similarity_from 0%Qc cit_author l score_0)). Qed.

Lemma best_similarity_ge cit_author l b :
  b ∈ l -> (_calculate_similarity cit_author b <= best_similarity cit_author l)%Qc.
Proof. unfold best_similarity. exact (proj2 (best_similarity_from 0%Qc cit_author l score_0) b). Qed.


(** ** The author score *)

Lemma fuzzy_match_authors_score citation_authors bib_authors :
  score (_fuzzy_match_authors citation_authors bib_authors).
Proof.
  unfold _fuzzy_match_authors.
  destruct (negb (nonempty citation_authors) || negb (nonempty bib_authors)); [apply score_0|].
  destruct (map _normalize_text _) as [|c0 cs]; [apply score_0|].
  destruct (map (fun a => _normalize_text (PB.last_name a)) bib_authors) as [|b0 bs];
    [apply score_0|].
  destruct (existsb _ citation_authors); [apply calculate_similarity_score|].
  apply DifflibFacts.Qc_of_nats_range. apply length_filter.
Qed.

Lemma is_et_al_contains a : is_et_al a = true -> contains (lit "et al") (py_lower a) = true.
Proof.
  unfold is_et_al, str_eqb. intros H. apply bool_decide_eq_true in H. subst a.
  vm_compute. reflexivity.
Qed.

Lemma filter_all {A} (P : A -> Prop) `{forall x, Decision (P x)} (l : list A) :
  (forall x, x ∈ l -> P x) -> filter P l = l.
Proof.
  induction l as [|x l IH]; intros Hall; [reflexivity|].
  rewrite filter_cons. destruct (decide (P x)) as [_|Hn].
  - f_equal. apply IH. intros y Hy. apply Hall. by right.
  - exfalso. apply Hn, Hall. by left.
Qed.

Lemma q0_8_lt_1 : Qc_ltb q0_8 1%Qc = true.
Proof. reflexivity. Qed.

(** A name has similarity 1 to a name with the same normal form. *)
Lemma calculate_similarity_same s t :
  _normalize_text s = _normalize_text t -> _calculate_similarity s t = 1%Qc.
Proof.
  intros H. unfold _calculate_similarity. cbv zeta. rewrite H. apply DifflibFacts.ratio_self.
Qed.

Lemma Qc_le_1_ltb q : (1 <= q)%Qc -> Qc_ltb q0_8 q = true.
Proof.
  intros H. apply Qc_ltb_lt. eapply Qclt_le_trans; [|exact H]. by apply Qc_ltb_lt.
Qed.


(** X2. The author score is a number between 0 and 1. It is 0 when the
    citation has no author, when the entry has no author, and when every
    author of the citation is the marker 'et al.'. With an 'et al.' among
    the authors it is the similarity of the first author of the citation
    (the marker apart) to the first author of the entry, whatever the other
    authors are. *)
Theorem X2_author_score citation_authors bib_authors :
  score (_fuzzy_match_authors citation_authors bib_authors)
  /\ (citation_authors = [] \/ bib_authors = []
      \/ Forall (fun a => is_et_al a = true) citation_authors ->
      _fuzzy_match_authors citation_authors bib_authors = 0%Qc)
  /\ (forall a0 b0 bs,
        hd_error (filter (fun a => is_et_al a = false) citation_authors) = Some a0 ->
        bib_authors = b0 :: bs ->
        existsb (fun a => contains (lit "et al") (py_lower a)) citation_authors = true ->
        _fuzzy_match_authors citation_authors bib_authors
        = _calculate_similarity (_normalize_text a0) (_normalize_text (PB.last_name b0))).
Proof.
  split; [apply fuzzy_match_authors_score|]. split.
  - intros [->|[->|Hall]]; unfold _fuzzy_match_authors.
    + reflexivity.
    + by destruct (nonempty citation_authors).
    + destruct (negb (nonempty citation_authors) || negb (nonempty bib_authors)); [reflexivity|].
      assert (Hf : filter (fun a => is_et_al a = false) citation_authors = []).
      { clear -Hall. induction Hall as [|a l Ha _ IH]; [reflexivity|].
        rewrite filter_cons. destruct (decide (is_et_al a = false)); [congruence|exact IH]. }
      by rewrite Hf.
  - intros a0 b0 bs Ha0 -> Het. unfold _fuzzy_match_authors.
    destruct citation_authors as [|a1 rest]; [discriminate|]. simpl negb. simpl orb.
    cbv iota. destruct (filter (fun a => is_et_al a = false) (a1 :: rest)) as [|x xs];
      [discriminate|]. injection Ha0 as ->. simpl map. by rewrite Het.
Qed.

Lemma fuzzy_match_authors_exact citation_authors bib_authors :
  citation_authors <> [] ->
  Forall (fun a => contains (lit "et al") (py_lower a) = false) citation_authors ->
  Forall (fun a => exists b, b ∈ bib_authors
                   /\ _normalize_text (PB.last_name b) = _normalize_text a) citation_authors ->
  _fuzzy_match_authors citation_authors bib_authors = 1%Qc.
Proof.
  intros Hne Hno Hall. unfold _fuzzy_match_authors.
  destruct citation_authors as [|a0 rest]; [done|].
  assert (Hb : nonempty bib_authors = true).
  { inversion Hall as [|? ? (b & Hb & _) _]; subst. by destruct bib_authors; [inversion Hb|]. }
  rewrite Hb. simpl negb. simpl orb. cbv iota.
  assert (Hf : filter (fun a => is_et_al a = false) (a0 :: rest) = a0 :: rest).
  { apply filter_all. intros a Ha. rewrite Forall_forall in Hno. specialize (Hno a Ha).
    destruct (is_et_al a) eqn:E; [|reflexivity]. apply is_et_al_contains in E. congruence. }
  rewrite Hf.
  assert (Het : existsb (fun a => contains (lit "et al") (py_lower a)) (a0 :: rest) = false).
  { clear -Hno. induction Hno as [|a l Ha _ IH]; [reflexivity|]. simpl. by rewrite Ha, IH. }
  rewrite Het.
  destruct bib_authors as [|b0 bs]; [discriminate|].
  set (bnorm := map (fun a => _normalize_text (PB.last_name a)) (b0 :: bs)).
  assert (Hbn : exists b1 bs1, bnorm = b1 :: bs1) by (by eexists _, _).
  destruct Hbn as (b1 & bs1 & Hbn).
  assert (Hcn : map _normalize_text (a0 :: rest) = _normalize_text a0 :: map _normalize_text rest)
    by reflexivity.
  rewrite Hcn, Hbn, <- Hbn, <- Hcn. clear Hcn.
  assert (Hcount : filter (fun cit_author => Qc_ltb q0_8 (best_similarity cit_author bnorm) = true)
                     (map _normalize_text (a0 :: rest)) = map _normalize_text (a0 :: rest)).
  { apply filter_all. intros c Hc. apply list_elem_of_fmap in Hc as (a & -> & Ha).
    rewrite Forall_forall in Hall. destruct (Hall a Ha) as (b & Hbin & Hsame).
    apply Qc_le_1_ltb.
    rewrite <- (calculate_similarity_same (_normalize_text a) (_normalize_text (PB.last_name b)))
      by (by rewrite Hsame).
    apply best_similarity_ge. unfold bnorm. apply list_elem_of_fmap. by exists b. }
  rewrite Hcount. apply DifflibFacts.Qc_of_nats_same. simpl. lia.
Qed.

(** X1. The similarity of two texts is a number between 0 and 1, and it is
    1 when the two have the same normal form. *)
Theorem X1_similarity_range text1 text2 :
  score (_calculate_similarity text1 text2)
  /\ (_normalize_text text1 = _normalize_text text2 ->
      _calculate_similarity text1 text2 = 1%Qc).
Proof.
  split; [apply calculate_similarity_score|apply calculate_similarity_same].
Qed.

(** X3. When no author of the citation carries an 'et al' and each of them
    has the normal form of the last name of some author of the entry, the
    author score is 1. *)
Theorem X3_author_score_exact citation_authors bib_authors :
  citation_authors <> [] ->
  Forall (fun a => contains (lit "et al") (py_lower a) = false) citation_authors ->
  Forall (fun a => exists b, b ∈ bib_authors
                   /\ _normalize_text (PB.last_name b) = _normalize_text a) citation_authors ->
  _fuzzy_match_authors citation_authors bib_authors = 1%Qc.
Proof. apply fuzzy_match_authors_exact. Qed.

End ScoreFacts.

Section ResultFacts.
Import ValidateReferences.

Lemma foldl_invariant {A B} (P : B -> Prop) (f : B -> A -> B) (l : list A) (b : B) :
  (forall b x, P b -> P (f b x)) -> P b -> P (foldl f b l).
Proof.
  intros Hf. revert b. induction l as [|x l IH]; intros b Hb; simpl; [exact Hb|].
  apply IH, Hf, Hb.
Qed.

Lemma consider_score authors e (b : best_t) : score b.2 -> score (consider authors e b).2.
Proof.
  intros Hb. unfold consider. cbv zeta.
  destruct (Qc_ltb b.2 _); [apply fuzzy_match_authors_score|exact Hb].
Qed.

Lemma consider_scan_score authors year e (b : best_t) :
  score b.2 -> score (consider_scan authors year e b).2.
Proof.
  intros Hb. unfold consider_scan. cbv zeta.
  destruct (negb (year_equal _ _)); [exact Hb|].
  destruct (Qc_ltb b.2 _ && Qc_ltb q0_7 _); [apply fuzzy_match_authors_score|exact Hb].
Qed.

Lemma find_single_match_score self authors year r :
  _find_single_match self authors year = Ok r -> score r.2.
Proof.
  unfold _find_single_match.
  destruct (for_each authors _ _) as [best|] eqn:E; simpl; [|discriminate].
  assert (Hbest : score best.2).
  { revert E. apply (for_each_invariant (fun b : best_t => score b.2)); [|apply score_0].
    intros a s1 s2 _ Hs1. unfold exact_step.
    destruct (is_et_al a); [by intros [= <-]|].
    destruct (bibliography_index self !! _) as [[?|entries]|]; [discriminate| |by intros [= <-]].
    intros [= <-]. apply (foldl_invariant (fun b : best_t => score b.2)); [|exact Hs1].
    intros b x. apply consider_score. }
  destruct (negb (truthy best.1)); intros [= <-]; [|exact Hbest].
  apply (foldl_invariant (fun b : best_t => score b.2)); [|exact Hbest].
  intros b x. apply consider_scan_score.
Qed.

Lemma q0_9_score : score q0_9.
Proof. split; unfold Qcle, Qle; simpl; lia. Qed.

Lemma match_citation_score self citation m :
  match_citation_to_bibliography self citation = Ok m -> score m.2.
Proof.
  unfold match_citation_to_bibliography.
  destruct (EC.multiple (EC.normalized citation)) as [subs|].
  - destruct (for_each subs _ true) as [[|]|]; simpl; try discriminate;
      intros [= <-]; [apply q0_9_score|apply score_0].
  - destruct (EC.type citation);
      repeat match goal with
             | |- context [if ?x then _ else _] => destruct x
             end; try (intros [= <-]; apply score_0); apply find_single_match_score.
Qed.

(** The issues of a result, from the checks of its citation. *)
Lemma make_result_issues self citation fi (m : best_t) :
  issues (make_result self citation fi m)
  = map format_issue fi
    ++ (if negb (truthy m.1) then [missing_issue]
        else if Qc_ltb m.2 q0_8
             then [Issue low_confidence_match sev_warning (LowConfidence m.2)]
             else [])
  /\ suggestions (make_result self citation fi m)
     = (if negb (truthy m.1) then _suggest_bibliography_matches self citation [] else [])
  /\ status (make_result self citation fi m)
     = (if negb (truthy m.1) then PB.invalid
        else if nonempty fi || Qc_ltb m.2 q0_8 then PB.warning else PB.valid).
Proof.
  destruct m as [mb mc]. unfold make_result. simpl.
  destruct (truthy mb); simpl; [destruct (Qc_ltb mc q0_8)|]; simpl;
    rewrite ?existsb_app, ?existsb_format_issues, ?app_nil_r; simpl;
    rewrite ?orb_true_r, ?orb_false_r; repeat split; try reflexivity.
  all: by destruct (nonempty fi).
Qed.

(** X4. In every result of [validate_all] the confidence is a number between
    0 and 1. A result is valid exactly when it has no issue at all, and
    then its citation is matched with a confidence of 0.8 or more. A result
    with a warning is matched too. Suggestions are only made for invalid
    results; a low-confidence issue is raised exactly for the matched
    results with a confidence below 0.8. *)
Theorem X4_result_shape self r :
  r ∈ (validate_all self).1 ->
  score (confidence r)
  /\ (status r = PB.valid <-> issues r = [])
  /\ (status r = PB.valid ->
      truthy (matched_bibliography r) = true /\ (q0_8 <= confidence r)%Qc)
  /\ (status r = PB.warning -> truthy (matched_bibliography r) = true)
  /\ (suggestions r <> [] -> status r = PB.invalid)
  /\ ((exists i, i ∈ issues r /\ i_type i = low_confidence_match)
      <-> truthy (matched_bibliography r) = true /\ (confidence r < q0_8)%Qc).
Proof.
  intros Hr. apply validate_all_results in Hr as (c & m & _ & Hm & ->).
  pose proof (match_citation_score _ _ _ Hm) as Hscore.
  pose proof (make_result_props self c (format_issues c) m) as H. cbv zeta in H.
  destruct H as (_ & -> & -> & _).
  destruct (make_result_issues self c (format_issues c) m) as (-> & -> & ->).
  destruct (truthy m.1) eqn:T; simpl.
  - destruct (Qc_ltb m.2 q0_8) eqn:Q; rewrite ?orb_true_r, ?orb_false_r.
    + apply Qc_ltb_lt in Q.
      split; [exact Hscore|]. split; [split; [discriminate|]|].
      { intros H. apply app_eq_nil in H as [_ H]. discriminate. }
      split; [discriminate|]. split; [done|]. split; [done|].
      split; [done|]. intros _. eexists. split; [apply elem_of_app; right; by left|reflexivity].
    + apply Qc_ltb_ge in Q.
      split; [exact Hscore|]. rewrite app_nil_r. split.
      { destruct (format_issues c); simpl; split; done. }
      split; [done|]. split; [done|]. split; [done|].
      split.
      * intros (i & Hi & Ht). apply list_elem_of_fmap in Hi as (t & -> & _). discriminate.
      * intros [_ Hlt]. exfalso. eapply Qclt_not_le; eassumption.
  - split; [apply score_0|]. split; [split; [discriminate|]|].
    { intros H. apply app_eq_nil in H as [_ H]. discriminate. }
    split; [discriminate|]. split; [discriminate|]. split; [done|].
    split; [|intros [? _]; discriminate].
    intros (i & Hi & Ht). apply elem_of_app in Hi as [Hi|Hi].
    + apply list_elem_of_fmap in Hi as (t & -> & _). discriminate.
    + apply list_elem_of_singleton in Hi as ->. discriminate.
Qed.

End ResultFacts.

Section ReportFacts.
Import ValidateReferences.

Variable self : validator.

(** The match of a citation, when the search returns. *)
Definition match_of (citation : EC.Citation) : best_t :=
  match match_citation_to_bibliography self citation with
  | Ok m => m
  | Raised _ => (None, 0%Qc)
  end.

Definition result_of (citation : EC.Citation) : ValidationResult :=
  make_result self citation (format_issues citation) (match_of citation).

Definition unmatched (citation : EC.Citation) : bool := negb (truthy (match_of citation).1).

(** The entry of [missing_bibliography] for a citation without a match, and
    the entry of [format_violations] for a citation with format issues. *)
Definition missing_record (citation : EC.Citation) : option (EC.Citation * (list str * str)) :=
  if unmatched citation
  then Some (citation, (default [] (EC.authors (EC.normalized citation)),
                        default [] (EC.year (EC.normalized citation))))
  else None.

Definition violation_record (citation : EC.Citation) : option (EC.Citation * list str) :=
  if nonempty (format_issues citation) then Some (citation, format_issues citation) else None.

(** The number of citations counted in [citation_stats]. *)
Definition counted (stats : list (str * nat)) : nat := foldr (fun kv acc => kv.2 + acc) 0 stats.

Lemma counted_count_key key stats : counted (count_key key stats) = S (counted stats).
Proof.
  induction stats as [|[k n] stats IH]; simpl; [reflexivity|].
  destruct (str_eqb k key); simpl; [lia|]. rewrite IH. lia.
Qed.

Lemma length_count_key key stats :
  length stats <= length (count_key key stats) <= S (length stats).
Proof.
  induction stats as [|[k n] stats IH]; simpl; [lia|].
  destruct (str_eqb k key); simpl; lia.
Qed.

(** A turn of the loop that does not raise. *)
Lemma validate_step_ok citation st st' :
  validate_step self citation st = (st', None) ->
  validation_results st' = validation_results st ++ [result_of citation]
  /\ missing_bibliography_acc st'
     = missing_bibliography_acc st ++ from_option (fun x => [x]) [] (missing_record citation)
  /\ format_violations_acc st'
     = format_violations_acc st ++ from_option (fun x => [x]) [] (violation_record citation)
  /\ exists key, cit_key citation = Ok key
       /\ citation_stats st' = count_key key (citation_stats st).
Proof.
  unfold validate_step, validate_citation_format, result_of, missing_record, violation_record,
    unmatched, match_of. cbv zeta.
  destruct (match_citation_to_bibliography self citation) as [m|e]; [|discriminate].
  destruct (cit_key citation) as [key|e]; [|discriminate].
  intros [= <-]. simpl.
  split; [reflexivity|].
  split; [by destruct (negb (truthy m.1)); rewrite ?app_nil_r|].
  split; [by destruct (nonempty (format_issues citation)); rewrite ?app_nil_r|].
  by exists key.
Qed.

Lemma validate_loop_ok cits st st' :
  validate_loop self cits st = (st', None) ->
  validation_results st' = validation_results st ++ map result_of cits
  /\ missing_bibliography_acc st' = missing_bibliography_acc st ++ omap missing_record cits
  /\ format_violations_acc st' = format_violations_acc st ++ omap violation_record cits
  /\ counted (citation_stats st') = counted (citation_stats st) + length cits
  /\ length (citation_stats st') <= length (citation_stats st) + length cits.
Proof.
  revert st. induction cits as [|c cits IH]; intros st; simpl.
  - intros [= <-]. rewrite !app_nil_r. repeat split; lia.
  - destruct (validate_step self c st) as [st1 [e|]] eqn:E; [discriminate|].
    apply validate_step_ok in E as (H1 & H2 & H3 & key & _ & H4).
    intros H. apply IH in H as (G1 & G2 & G3 & G4 & G5).
    rewrite G1, G2, G3, G4, H1, H2, H3, H4, counted_count_key, <- !app_assoc.
    pose proof (length_count_key key (citation_stats st)) as Hlen. rewrite H4 in G5.
    split; [reflexivity|].
    split; [by destruct (missing_record c)|].
    split; [by destruct (violation_record c)|].
    split; lia.
Qed.

Lemma status_result_of citation :
  status (result_of citation) = PB.invalid <-> unmatched citation = true.
Proof.
  unfold result_of, unmatched.
  destruct (make_result_issues self citation (format_issues citation) (match_of citation))
    as (_ & _ & ->).
  destruct (negb (truthy (match_of citation).1)); [done|].
  destruct (nonempty (format_issues citation) || Qc_ltb (match_of citation).2 q0_8);
    split; discriminate.
Qed.

Lemma count_status_cons s r results :
  count_status s (r :: results)
  = (match status r, s with
     | PB.valid, PB.valid | PB.warning, PB.warning | PB.invalid, PB.invalid => 1
     | _, _ => 0
     end) + count_status s results.
Proof.
  unfold count_status. rewrite filter_cons.
  destruct (status r), s; simpl; reflexivity.
Qed.

Lemma count_status_total results :
  count_status PB.valid results + count_status PB.invalid results
  + count_status PB.warning results = length results.
Proof.
  induction results as [|r results IH]; [reflexivity|].
  rewrite !count_status_cons. simpl. destruct (status r); lia.
Qed.

Lemma count_invalid_results cits :
  count_status PB.invalid (map result_of cits) = length (omap missing_record cits).
Proof.
  induction cits as [|c cits IH]; [reflexivity|].
  simpl map. rewrite count_status_cons, IH. simpl. unfold missing_record.
  pose proof (status_result_of c) as H.
  destruct (unmatched c).
  - destruct H as [_ H]. rewrite (H eq_refl). reflexivity.
  - destruct (status (result_of c)); try reflexivity.
    destruct H as [H _]. specialize (H eq_refl). discriminate.
Qed.

(** X5. When [validate_all] returns its report: there is one result for each
    citation; the counts of valid, invalid and warning results add up to
    [total_citations]; [missing_bibliography] lists the citations without a
    match, in order, with the authors and the year searched for, and has as
    many entries as [invalid_citations] counts; [format_violations] lists the
    citations with at least one format issue, with their issues; the counts
    of [citation_stats] add up to the number of citations, so that
    [unique_citations] is at most [total_citations]; and a key is among
    [duplicate_citations] only with a count above 5. *)
Theorem X5_report_accounting report :
  (validate_all self).2 = Ok report ->
  (validate_all self).1 = map result_of (citations self)
  /\ total_citations report = length (validate_all self).1
  /\ valid_citations report + invalid_citations report + warnings report
     = total_citations report
  /\ missing_bibliography_list report = omap missing_record (citations self)
  /\ length (missing_bibliography_list report) = invalid_citations report
  /\ format_violations report = omap violation_record (citations self)
  /\ unique_citations report <= total_citations report
  /\ Forall (fun kv => 5 < kv.2) (duplicate_citations report)
  /\ total_bibliography_entries report = length (bibliography self)
  /\ bibliography_with_issues report <= total_bibliography_entries report.
Proof.
  unfold validate_all.
  destruct (validate_loop self (citations self) (Progress [] [] [] [])) as [st [e|]] eqn:E;
    [discriminate|].
  apply validate_loop_ok in E as (H1 & H2 & H3 & H4 & H5). simpl in *.
  intros [= <-]. simpl. rewrite H1, H2, H3.
  split; [reflexivity|]. split; [by rewrite length_map|].
  split; [by rewrite count_status_total, length_map|].
  split; [reflexivity|]. split; [by rewrite count_invalid_results|].
  split; [reflexivity|]. split; [lia|]. split; [|split; [reflexivity|apply length_filter]].
  apply Forall_forall. intros kv [Hkv _]%list_elem_of_filter. by apply Nat.ltb_lt.
Qed.

End ReportFacts.

Lemma for_each_total {A S : Type} (l : list A) (body : A -> S -> res S) (s : S) :
  (forall x s1, x ∈ l -> exists s2, body x s1 = Ok s2) -> exists s', for_each l body s = Ok s'.
Proof.
  revert s. induction l as [|x l IH]; intros s Hbody; simpl; [by eexists|].
  destruct (Hbody x s) as [s1 ->]; [by left|]. simpl.
  apply IH. intros y s2 Hy. apply Hbody. by right.
Qed.

Section Completion.
Import ValidateReferences.

(** An id without an underscore: a prefix of a hexadecimal digest is one. *)
Definition plain_id (e : PB.BibliographyEntry) : Prop := 95%N ∉ PB.id e.

Lemma key_has_underscore name year : 95%N ∈ author_year_key name year.
Proof.
  unfold author_year_key. apply elem_of_app. right. apply elem_of_app. left.
  replace (lit "_") with [95%N] by (vm_compute; reflexivity). by left.
Qed.

Section Loaded.
Variable self : validator.
Hypothesis Hindex : index_ok (bibliography self) (bibliography_index self).
Hypothesis Hids : forall e, e ∈ bibliography self -> plain_id e.

Lemma exact_step_total authors year a (b : best_t) :
  exists b', exact_step self authors year a b = Ok b'.
Proof.
  unfold exact_step. destruct (is_et_al a); [by eexists|].
  destruct (bibliography_index self !! author_year_key a year) as [[e|entries]|] eqn:E;
    [|by eexists|by eexists].
  exfalso. destruct Hindex as [_ Hi]. apply Hi in E as (e' & He' & Hkey).
  apply (Hids e' He'). rewrite <- Hkey. apply key_has_underscore.
Qed.

Lemma find_single_match_total authors year :
  exists r, _find_single_match self authors year = Ok r.
Proof.
  unfold _find_single_match.
  destruct (for_each_total authors (exact_step self authors year) (None, 0%Qc)) as [best ->].
  { intros a b _. apply exact_step_total. }
  simpl. destruct (negb (truthy best.1)); by eexists.
Qed.

Lemma match_citation_total citation :
  exists m, match_citation_to_bibliography self citation = Ok m.
Proof.
  unfold match_citation_to_bibliography.
  destruct (EC.multiple (EC.normalized citation)) as [subs|].
  - destruct (for_each_total subs
      (fun sub_citation all_found =>
         m <- _find_single_match self (EC.sub_authors sub_citation) (EC.sub_year sub_citation) ;;
         Ok (if negb (truthy m.1) then false else all_found)) true) as [all_found ->].
    { intros s b _. destruct (find_single_match_total (EC.sub_authors s) (EC.sub_year s)) as [m ->].
      by eexists. }
    simpl. destruct all_found; by eexists.
  - destruct (EC.type citation);
      repeat match goal with
             | |- context [if ?x then _ else _] => destruct x
             end; try (by eexists); apply find_single_match_total.
Qed.

Definition index_error : exn := Exn "IndexError" (lit "list index out of range").

Lemma cit_key_cases citation :
  (EC.authors (EC.normalized citation) = Some [] /\ cit_key citation = Raised index_error)
  \/ (EC.authors (EC.normalized citation) <> Some [] /\ exists key, cit_key citation = Ok key).
Proof.
  unfold cit_key. cbv zeta.
  destruct (EC.authors (EC.normalized citation)) as [[|a0 rest]|]; simpl.
  - by left.
  - right. split; [discriminate|by eexists].
  - right. split; [discriminate|by eexists].
Qed.

Lemma validate_step_outcome citation st :
  (validate_step self citation st).2
  = match cit_key citation with Ok _ => None | Raised e => Some e end.
Proof.
  unfold validate_step, validate_citation_format. cbv zeta.
  destruct (match_citation_total citation) as [m ->].
  by destruct (cit_key citation).
Qed.

Lemma validate_loop_outcome cits st :
  (Forall (fun c => EC.authors (EC.normalized c) <> Some []) cits ->
   (validate_loop self cits st).2 = None)
  /\ (Exists (fun c => EC.authors (EC.normalized c) = Some []) cits ->
      (validate_loop self cits st).2 = Some index_error).
Proof.
  revert st. induction cits as [|c cits IH]; intros st; simpl.
  - split; [done|]. intros H. inversion H.
  - pose proof (validate_step_outcome c st) as Hout.
    destruct (validate_step self c st) as [st1 o]. simpl in Hout. subst o.
    destruct (cit_key_cases c) as [[Hc ->]|[Hc [key ->]]]; simpl.
    + split; [|done]. intros H. inversion H; subst. done.
    + split.
      * intros H. inversion H; subst. by apply IH.
      * intros H. inversion H; subst; [done|]. by apply IH.
Qed.

End Loaded.

(** X6. Once the data is loaded from a bibliography whose ids contain no
    underscore (the ids that the processor writes are hexadecimal), no
    search raises, and [validate_all] returns its report exactly when no
    citation has an empty list under 'authors': with such a citation it
    raises IndexError, from the key of the statistics. *)
Theorem X6_validate_all_completes cf bf self :
  load_data cf bf = Ok self ->
  (forall e, e ∈ bibliography self -> plain_id e) ->
  (forall citation, exists m, match_citation_to_bibliography self citation = Ok m)
  /\ ((forall c, c ∈ citations self -> EC.authors (EC.normalized c) <> Some []) ->
      exists report, (validate_all self).2 = Ok report)
  /\ ((exists c, c ∈ citations self /\ EC.authors (EC.normalized c) = Some []) ->
      (validate_all self).2 = Raised index_error).
Proof.
  intros Hload Hids. pose proof (load_data_ok _ _ _ Hload) as Hindex.
  split; [intros c; by apply match_citation_total|].
  pose proof (validate_loop_outcome self Hindex Hids (citations self) (Progress [] [] [] []))
    as [Hnone Hsome].
  unfold validate_all.
  destruct (validate_loop self (citations self) (Progress [] [] [] [])) as [st o]. simpl in *.
  split.
  - intros Hall. rewrite Hnone by (by apply Forall_forall). by eexists.
  - intros Hex. rewrite Hsome by (by apply Exists_exists). reflexivity.
Qed.

End Completion.

(** A loop whose turns never raise, keep an invariant [inv] and only move
    the state along a preorder [keeps]: what a turn establishes for its
    element, and [keeps] preserves, holds for every element at the end. *)
Lemma for_each_establishes {A S : Type} (inv : S -> Prop) (keeps : S -> S -> Prop)
    (Q : A -> S -> Prop) (l : list A) (body : A -> S -> res S) (s : S) :
  (forall s1, keeps s1 s1) ->
  (forall s1 s2 s3, keeps s1 s2 -> keeps s2 s3 -> keeps s1 s3) ->
  (forall x s1 s2, inv s2 -> keeps s1 s2 -> Q x s1 -> Q x s2) ->
  (forall x s1, x ∈ l -> inv s1 ->
     exists s2, body x s1 = Ok s2 /\ inv s2 /\ keeps s1 s2 /\ Q x s2) ->
  inv s ->
  exists s', for_each l body s = Ok s' /\ inv s' /\ keeps s s' /\ forall x, x ∈ l -> Q x s'.
Proof.
  intros Hrefl Htrans Hmono. revert s. induction l as [|x l IH]; intros s Hbody Hs; simpl.
  - exists s. split; [reflexivity|]. split; [exact Hs|]. split; [apply Hrefl|].
    intros x Hx. inversion Hx.
  - destruct (Hbody x s) as (s1 & -> & Hs1 & Hk1 & Hq1); [by left|exact Hs|]. simpl.
    destruct (IH s1) as (s' & -> & Hs' & Hk' & Hq'); [|exact Hs1|].
    { intros y s2 Hy. apply Hbody. by right. }
    exists s'. split; [reflexivity|]. split; [exact Hs'|].
    split; [by eapply Htrans|].
    intros y [->|Hy]%elem_of_cons; [by eapply Hmono|by apply Hq'].
Qed.

Section IndexFacts.
Import ValidateReferences.

(** Ids and keys do not meet: an id holds an entry of that id and has no
    underscore, a key holds a list and has one. *)
Definition separated (index : gmap str index_value) : Prop :=
  (forall k e, index !! k = Some (ById e) -> k = PB.id e /\ 95%N ∉ k)
  /\ (forall k entries, index !! k = Some (ByKey entries) -> 95%N ∈ k).

(** Nothing is lost from [index] to [index']. *)
Definition kept (index index' : gmap str index_value) : Prop :=
  (forall k e, index !! k = Some (ById e) -> exists e', index' !! k = Some (ById e'))
  /\ (forall k entries, index !! k = Some (ByKey entries) ->
        exists entries', index' !! k = Some (ByKey entries')
          /\ forall x, x ∈ entries -> x ∈ entries').

Lemma kept_refl index : kept index index.
Proof. split; intros k v H; eauto. Qed.

Lemma kept_trans i1 i2 i3 : kept i1 i2 -> kept i2 i3 -> kept i1 i3.
Proof.
  intros [A1 B1] [A2 B2]. split.
  - intros k e H. apply A1 in H as [e' H]. by apply A2 in H.
  - intros k es H. apply B1 in H as (es' & H & Hsub). apply B2 in H as (es'' & H & Hsub').
    exists es''. split; [exact H|]. intros x Hx. by apply Hsub', Hsub.
Qed.

(** [entry] is filed under the key of [author] and [year]. *)
Definition filed_under (entry : PB.BibliographyEntry) (year : option str) (author : PB.author)
    (index : gmap str index_value) : Prop :=
  forall y, year = Some y -> PB.last_name author <> [] ->
    exists entries, index !! author_year_key (PB.last_name author) y = Some (ByKey entries)
      /\ entry ∈ entries.

Lemma filed_under_kept entry year author i1 i2 :
  kept i1 i2 -> filed_under entry year author i1 -> filed_under entry year author i2.
Proof.
  intros [_ B] H y Hy Hn. destruct (H y Hy Hn) as (es & Hes & Hin).
  apply B in Hes as (es' & Hes' & Hsub). exists es'. split; [exact Hes'|by apply Hsub].
Qed.

Lemma index_author_step entry year author index :
  separated index ->
  exists index', index_author entry year author index = Ok index'
    /\ separated index' /\ kept index index' /\ filed_under entry year author index'.
Proof.
  intros Hsep. pose proof Hsep as [Hi Hk]. unfold index_author, filed_under.
  destruct year as [y|].
  2:{ exists index. split; [reflexivity|]. split; [exact Hsep|]. split; [apply kept_refl|].
      intros y Hy. discriminate. }
  destruct (nonempty (PB.last_name author)) eqn:Hne.
  2:{ exists index. split; [reflexivity|]. split; [exact Hsep|]. split; [apply kept_refl|].
      intros ? _ Hn. by destruct (PB.last_name author). }
  pose proof (key_has_underscore (PB.last_name author) y) as Hus.
  destruct (index !! author_year_key (PB.last_name author) y) as [[e|entries]|] eqn:E.
  - exfalso. apply Hi in E as [_ E]. done.
  - eexists. split; [reflexivity|]. split; [|split].
    + split; intros k v; rewrite lookup_insert; case_decide; subst.
      * discriminate.
      * apply Hi.
      * intros _. exact Hus.
      * apply Hk.
    + split; intros k v; rewrite lookup_insert; case_decide; subst.
      * rewrite E. discriminate.
      * eauto.
      * rewrite E. intros [= <-]. eexists. split; [reflexivity|].
        intros x Hx. apply elem_of_app. by left.
      * eauto.
    + intros y' [= <-] _. eexists. rewrite lookup_insert. case_decide; [|done].
      split; [reflexivity|]. apply elem_of_app. right. by left.
  - eexists. split; [reflexivity|]. split; [|split].
    + split; intros k v; rewrite lookup_insert; case_decide; subst.
      * discriminate.
      * apply Hi.
      * intros _. exact Hus.
      * apply Hk.
    + split; intros k v; rewrite lookup_insert; case_decide; subst; eauto; rewrite E; discriminate.
    + intros y' [= <-] _. eexists. rewrite lookup_insert. case_decide; [|done].
      split; [reflexivity|]. by left.
Qed.

(** [entry] is filed under its id, and under the key of each of its authors
    with a last name, when it has a year. *)
Definition filed (index : gmap str index_value) (entry : PB.BibliographyEntry) : Prop :=
  (exists e', index !! PB.id entry = Some (ById e') /\ PB.id e' = PB.id entry)
  /\ (parsed_nonempty (PB.parsed entry) = true ->
      forall author, author ∈ bib_authors_of entry ->
        filed_under entry (truthy_year (PB.parsed entry)) author index).

Lemma filed_kept i1 i2 entry : separated i2 -> kept i1 i2 -> filed i1 entry -> filed i2 entry.
Proof.
  intros [Hi _] Hkept [(e' & He' & Hid) Hkeys]. split.
  - destruct Hkept as [A _]. apply A in He' as [e'' He'']. exists e''. split; [exact He''|].
    apply Hi in He'' as [-> _]. reflexivity.
  - intros Hp a Ha. eapply filed_under_kept; [exact Hkept|by apply Hkeys].
Qed.

Lemma index_entry_step entry index :
  plain_id entry -> separated index ->
  exists index', index_entry entry index = Ok index'
    /\ separated index' /\ kept index index' /\ filed index' entry.
Proof.
  intros Hplain Hsep. pose proof Hsep as [Hi Hk]. unfold index_entry. cbv zeta.
  set (index0 := <[PB.id entry := ById entry]> index).
  assert (Hsep0 : separated index0).
  { split; intros k v; unfold index0; rewrite lookup_insert; case_decide; subst.
    - intros [= <-]. split; [reflexivity|exact Hplain].
    - apply Hi.
    - discriminate.
    - apply Hk. }
  assert (Hkept0 : kept index index0).
  { split; intros k v; unfold index0; rewrite lookup_insert; case_decide; subst; eauto.
    intros H. apply Hk in H. done. }
  assert (Hid0 : index0 !! PB.id entry = Some (ById entry)).
  { unfold index0. rewrite lookup_insert. by case_decide. }
  destruct (parsed_nonempty (PB.parsed entry)) eqn:Hp.
  - destruct (for_each_establishes separated kept
                (filed_under entry (truthy_year (PB.parsed entry)))
                (bib_authors_of entry)
                (index_author entry (truthy_year (PB.parsed entry))) index0)
      as (index' & -> & Hsep' & Hkept' & Hall).
    + apply kept_refl.
    + apply kept_trans.
    + intros a s1 s2 _. apply filed_under_kept.
    + intros a s1 _ Hs1. by apply index_author_step.
    + exact Hsep0.
    + exists index'. split; [reflexivity|]. split; [exact Hsep'|].
      split; [by eapply kept_trans|]. split.
      * destruct Hkept' as [A _]. apply A in Hid0 as [e' He']. exists e'.
        split; [exact He'|]. destruct Hsep' as [Hi' _]. apply Hi' in He' as [-> _]. reflexivity.
      * intros _ a Ha. by apply Hall.
  - exists index0. split; [reflexivity|]. split; [exact Hsep0|]. split; [exact Hkept0|].
    split; [by exists entry|]. intros H. congruence.
Qed.

Lemma build_index_complete bib :
  (forall e, e ∈ bib -> plain_id e) ->
  exists index, build_index bib = Ok index /\ separated index
    /\ forall e, e ∈ bib -> filed index e.
Proof.
  intros Hplain. unfold build_index.
  destruct (for_each_establishes separated kept (fun e index => filed index e)
              bib index_entry ∅) as (index & -> & Hsep & _ & Hall).
  - apply kept_refl.
  - apply kept_trans.
  - intros e s1 s2. apply filed_kept.
  - intros e s1 He Hs1. apply index_entry_step; [by apply Hplain|exact Hs1].
  - split; intros k v; rewrite lookup_empty; discriminate.
  - by exists index.
Qed.

(** X7. [load_data] raises FileNotFoundError when one of the two files is
    missing. With both, and a bibliography whose ids contain no underscore,
    it returns, and its index is complete: every entry is filed under its
    id (the entry found there has that id), and every entry with parsed
    fields and a year is filed under the key of each of its authors that has
    a last name. *)
Theorem X7_load_data_index cits bib :
  (forall bf, exists e, load_data None bf = Raised e /\ exn_kind e = "FileNotFoundError"%string)
  /\ (exists e, load_data (Some cits) None = Raised e
                /\ exn_kind e = "FileNotFoundError"%string)
  /\ ((forall e, e ∈ bib -> plain_id e) ->
      exists self, load_data (Some cits) (Some bib) = Ok self
        /\ citations self = cits /\ bibliography self = bib
        /\ forall e, e ∈ bib -> filed (bibliography_index self) e).
Proof.
  split; [intros bf; by eexists|]. split; [by eexists|].
  intros Hplain. destruct (build_index_complete bib Hplain) as (index & Hindex & _ & Hall).
  exists (Validator cits bib index). unfold load_data. rewrite Hindex. by simpl.
Qed.

End IndexFacts.

Section RoundTrip.
Import ValidateReferences.

Lemma load_data_filed cf bf self :
  load_data cf bf = Ok self ->
  (forall e, e ∈ bibliography self -> plain_id e) ->
  forall e, e ∈ bibliography self -> filed (bibliography_index self) e.
Proof.
  intros Hload Hplain.
  destruct cf as [cits|]; [|discriminate]. destruct bf as [bib|]; [|discriminate].
  assert (Hbib : bibliography self = bib).
  { revert Hload. unfold load_data. destruct (build_index bib); simpl; [|discriminate].
    by intros [= <-]. }
  rewrite Hbib in *.
  destruct (build_index_complete bib Hplain) as (index & Hindex & _ & Hall).
  revert Hload. unfold load_data. rewrite Hindex. simpl. by intros [= <-].
Qed.

(** X8. An entry is found by the name and year under which it is filed: for
    an entry of the loaded bibliography with parsed fields and a year, and
    an author of it with a last name (without 'et al' in it), the search for
    that last name and that year returns an entry of the bibliography with
    the author score 1. (Ids are those of the processor: not empty, without
    underscore.) *)
Theorem X8_filed_entry_found cf bf self e a y :
  load_data cf bf = Ok self ->
  (forall e, e ∈ bibliography self -> plain_id e /\ PB.id e <> []) ->
  e ∈ bibliography self ->
  parsed_nonempty (PB.parsed e) = true ->
  truthy_year (PB.parsed e) = Some y ->
  a ∈ bib_authors_of e ->
  PB.last_name a <> [] ->
  contains (lit "et al") (py_lower (PB.last_name a)) = false ->
  exists e', e' ∈ bibliography self
    /\ _find_single_match self [PB.last_name a] y = Ok (Some (PB.id e'), 1%Qc)
    /\ fuzzy [PB.last_name a] e' = 1%Qc.
Proof.
  intros Hload Hids He Hp Hy Ha Hn Het.
  pose proof (load_data_ok _ _ _ Hload) as Hindex.
  assert (Hplain : forall e, e ∈ bibliography self -> plain_id e) by (intros ? H; by apply Hids).
  destruct (load_data_filed _ _ _ Hload Hplain e He) as [_ Hkeys].
  destruct (Hkeys Hp a Ha y Hy Hn) as (entries & Hkey & Hin).
  assert (Hnot : is_et_al (PB.last_name a) = false).
  { destruct (is_et_al (PB.last_name a)) eqn:E; [|reflexivity].
    apply is_et_al_contains in E. congruence. }
  assert (Hcand : exact_candidates self [PB.last_name a] y = entries).
  { unfold exact_candidates, key_entries. simpl. by rewrite Hnot, Hkey, app_nil_r. }
  assert (Hone : fuzzy [PB.last_name a] e = 1%Qc).
  { unfold fuzzy. apply fuzzy_match_authors_exact; [done| |].
    - by repeat constructor.
    - repeat constructor. by exists a. }
  destruct (find_single_match_total self Hindex Hplain [PB.last_name a] y) as [r Hr].
  pose proof Hr as Hr0. unfold _find_single_match in Hr.
  destruct (for_each [PB.last_name a] _ _) as [best|] eqn:E; simpl in Hr; [|discriminate].
  apply exact_phase in E. fold (exact_candidates self [PB.last_name a] y) in E.
  rewrite Hcand in E.
  pose proof (foldl_consider [PB.last_name a] entries (None, 0%Qc)) as H. cbv zeta in H.
  rewrite <- E in H. destruct H as [[_ Hall]|(e' & He' & -> & _ & Hmax)].
  - exfalso. specialize (Hall e Hin). rewrite Hone in Hall. simpl in Hall.
    revert Hall. unfold Qcle, Qle. simpl. lia.
  - assert (He'bib : e' ∈ bibliography self).
    { destruct Hindex as [Hk _]. apply Hk in Hkey. rewrite Forall_forall in Hkey. by apply Hkey. }
    assert (Hone' : fuzzy [PB.last_name a] e' = 1%Qc).
    { apply Qcle_antisym.
      - apply (fuzzy_match_authors_score [PB.last_name a] (bib_authors_of e')).
      - rewrite <- Hone. by apply Hmax. }
    exists e'. split; [exact He'bib|]. split; [|exact Hone'].
    rewrite Hr0. simpl in Hr.
    assert (Ht : nonempty (PB.id e') = true).
    { destruct (Hids e' He'bib) as [_ Hne]. by destruct (PB.id e'). }
    rewrite Ht in Hr. simpl in Hr. rewrite <- Hr. by rewrite Hone'.
Qed.

End RoundTrip.

(* ===================================================================== *)
(** * Part XIII. Entries of the processor: further facts                  *)
(* ===================================================================== *)

Section EntryFacts.
Import ProcessBibliography.
Variable md5_hexdigest : str -> str.

Lemma parse_entry_id self entry_text line_number entry :
  _parse_entry md5_hexdigest self entry_text line_number = Some entry ->
  id entry = _generate_entry_id md5_hexdigest (raw_text entry) line_number.
Proof.
  unfold _parse_entry. cbv zeta.
  destruct (nonempty (strip entry_text)); simpl; [|discriminate].
  destruct (try_parse self _ _) as [p raised].
  destruct (authors_missing p), (year_missing p), (title_missing p),
    (negb (ends_with (lit ".") (strip entry_text))); intros [= <-]; reflexivity.
Qed.

Definition period_message : str := lit "Entry should end with a period".

Lemma loaded_entry_facts self bibliography_files entries entry :
  load_and_parse md5_hexdigest self bibliography_files = Ok entries ->
  entry ∈ entries ->
  nonempty (raw_text entry) = true
  /\ strip (raw_text entry) = raw_text entry
  /\ starts_with (lit "#") (raw_text entry) = false
  /\ 1 <= line_number entry
  /\ type entry = _detect_entry_type (raw_text entry)
  /\ id entry = _generate_entry_id md5_hexdigest (raw_text entry) (line_number entry)
  /\ (validation_status entry = valid <-> errors entry = [])
  /\ (validation_status entry = warning <-> errors entry = [period_message])
  /\ (validation_status entry = invalid
      <-> authors_missing (parsed entry) || year_missing (parsed entry)
          || title_missing (parsed entry) = true).
Proof.
  intros Hload Hin.
  assert (Hline : (line_number entry, raw_text entry) ∈ flat_map entry_lines bibliography_files).
  { revert Hload. unfold load_and_parse. destruct (negb (nonempty bibliography_files));
      [discriminate|]. intros [= <-]. rewrite parse_files_flat_map in Hin. simpl in Hin.
    rewrite <- (load_and_parse_entry_lines md5_hexdigest self).
    apply list_elem_of_fmap. by exists entry. }
  apply list_elem_of_In, in_flat_map in Hline as (f & _ & Hline).
  destruct f as [lines|]; simpl in Hline; [|contradiction].
  apply list_elem_of_In, list_elem_of_omap in Hline as ([n l] & Hnl & Hl).
  unfold entry_line in Hl. simpl in Hl.
  destruct (negb (nonempty (strip l))) eqn:Hne; simpl in Hl; [discriminate|].
  destruct (starts_with (lit "#") (strip l)) eqn:Hhash; simpl in Hl; [discriminate|].
  injection Hl as Hn Hraw. apply negb_false_iff in Hne.
  assert (Hnum : 1 <= n).
  { unfold enumerate1 in Hnl. apply list_elem_of_lookup in Hnl as [i Hi].
    apply lookup_zip_Some in Hi as [Hi _]. apply lookup_seq in Hi as [-> _]. lia. }
  destruct (load_and_parse_entries _ _ _ _ _ Hload Hin) as (text & k & Hp).
  pose proof (parse_entry_id _ _ _ _ Hp) as Hid.
  apply parse_entry_fields in Hp. cbv zeta in Hp.
  destruct Hp as (Hraw' & Hk & Hparsed & Htype & Hstatus & Herrors).
  rewrite <- Hraw' in *. rewrite Hk in Hid. clear Hraw' Hk.
  split; [by rewrite <- Hraw|]. split; [by rewrite <- Hraw, strip_idem|].
  split; [by rewrite <- Hraw|]. split; [by rewrite <- Hn|].
  split; [exact Htype|]. split; [exact Hid|].
  rewrite Hstatus, Herrors, Hparsed. clear Hstatus Herrors.
  destruct (try_parse self (_detect_entry_type (raw_text entry)) (raw_text entry))
    as [p raised] eqn:E. simpl.
  assert (Hraised : authors_missing p || year_missing p || title_missing p = false ->
                    raised = None).
  { intros Hm. destruct raised as [e|]; [|reflexivity].
    apply try_parse_raised_missing in E. congruence. }
  simpl in Hparsed. subst p. unfold period_message.
  destruct (authors_missing (parsed entry)) eqn:A, (year_missing (parsed entry)) eqn:Y,
    (title_missing (parsed entry)) eqn:T, (ends_with (lit ".") (raw_text entry)) eqn:D;
    simpl in *; try rewrite (Hraised eq_refl); simpl;
    (split; [split; [try discriminate; try reflexivity|]|split; split;
             try discriminate; try reflexivity]);
    try (intros H; destruct raised; vm_compute in H; discriminate); done.
Qed.


(** X9. For every entry that the processor returns, whatever its parsers do:
    the text is not empty, is stripped and is not a header; the type is the
    one detected on that text, and the id is generated from the text and the
    line number; the entry is valid exactly when it has no error, it has a
    warning exactly when its only error is the missing final period, and it
    is invalid exactly when one of authors, year and title is missing. *)
Theorem X9_entry_invariants self bibliography_files entries entry :
  load_and_parse md5_hexdigest self bibliography_files = Ok entries ->
  entry ∈ entries ->
  nonempty (raw_text entry) = true
  /\ strip (raw_text entry) = raw_text entry
  /\ starts_with (lit "#") (raw_text entry) = false
  /\ 1 <= line_number entry
  /\ type entry = _detect_entry_type (raw_text entry)
  /\ id entry = _generate_entry_id md5_hexdigest (raw_text entry) (line_number entry)
  /\ (validation_status entry = valid <-> errors entry = [])
  /\ (validation_status entry = warning <-> errors entry = [period_message])
  /\ (validation_status entry = invalid
      <-> authors_missing (parsed entry) || year_missing (parsed entry)
          || title_missing (parsed entry) = true).
Proof. apply loaded_entry_facts. Qed.

End EntryFacts.

Section ProcessedEntries.
Import ValidateReferences.
Variable md5_hexdigest : str -> str.

(** X10. The validator on the entries of the processor: an entry is reported
    invalid by [validate_bibliography_format] exactly when the processor did
    not find it valid, so that a warning of the processor (a missing final
    period) becomes invalid; the errors of the processor are among the
    issues reported; and an entry reported valid is valid for the processor
    and has no issue. *)
Theorem X10_processed_entry_format self bibliography_files entries entry :
  PB.load_and_parse md5_hexdigest self bibliography_files = Ok entries ->
  entry ∈ entries ->
  ((validate_bibliography_format entry).1 = PB.invalid
   <-> PB.validation_status entry <> PB.valid)
  /\ (forall msg, msg ∈ PB.errors entry -> msg ∈ (validate_bibliography_format entry).2)
  /\ ((validate_bibliography_format entry).1 = PB.valid ->
      PB.validation_status entry = PB.valid /\ (validate_bibliography_format entry).2 = []).
Proof.
  intros Hload Hin.
  destruct (loaded_entry_facts md5_hexdigest self _ _ _ Hload Hin)
    as (_ & _ & _ & _ & _ & _ & Hvalid & _ & _).
  unfold validate_bibliography_format. cbv zeta.
  set (issues := when _ _ ++ when _ _ ++ when _ _).
  destruct (PB.validation_status entry) eqn:S, (PB.errors entry) as [|m ms] eqn:Err; simpl.
  - destruct (nonempty issues) eqn:N; simpl.
    + split; [split; [discriminate|done]|]. split; [intros ? H; inversion H|discriminate].
    + split; [split; [discriminate|done]|]. split; [intros ? H; inversion H|].
      intros _. split; [reflexivity|]. by destruct issues.
  - destruct Hvalid as [Hvalid _]. specialize (Hvalid eq_refl). discriminate.
  - destruct Hvalid as [_ Hvalid]. specialize (Hvalid eq_refl). discriminate.
  - split; [split; [discriminate|done]|]. split; [|discriminate].
    intros msg Hmsg. apply elem_of_app. by right.
  - split; [split; [discriminate|done]|]. split; [|discriminate].
    intros msg Hmsg. inversion Hmsg.
  - split; [split; [discriminate|done]|]. split; [|discriminate].
    intros msg Hmsg. apply elem_of_app. by right.
Qed.

End ProcessedEntries.

(* ===================================================================== *)
(** * Part XIV. Counterexamples and instances                             *)
(* ===================================================================== *)

Import Samples.


Lemma small_loaded :
  ValidateReferences.load_data (Some [jones_et_al; smith_2021]) (Some [clark_jones; jonas; smith])
  = Ok small.
Proof. vm_compute. reflexivity. Qed.

Lemma pipeline_loaded :
  ValidateReferences.load_data (Some Samples.cites) (Some Samples.entries) = Ok pipeline.
Proof. vm_compute. reflexivity. Qed.

Lemma small_ids e : e ∈ ValidateReferences.bibliography small -> ProcessBibliography.id e <> [].
Proof.
  intros He%list_elem_of_In. vm_compute in He.
  destruct He as [<-|[<-|[<-|[]]]]; vm_compute; discriminate.
Qed.

(** C1, counterexample. The key jones_2023 is in the index and holds the
    entry of Clark and Jones; the citation (Jones et al., 2023) has similarity
    0 with it (with 'et al.' only the first authors are compared), so the
    search falls back to the scan although an exact key hit, and returns the
    entry of Jonas, which is not filed under that key, with similarity 4/5. *)
Lemma C1_counterexample :
  ValidateReferences.bibliography_index small
    !! ValidateReferences.author_year_key (lit "Jones") (lit "2023")
  = Some (ValidateReferences.ByKey [clark_jones])
  /\ match ValidateReferences.match_citation_to_bibliography small jones_et_al with
     | Ok (m, q) => m = Some (ProcessBibliography.id jonas) /\ q = Q2Qc (4 # 5)
     | Raised _ => False
     end
  /\ ProcessBibliography.id jonas <> ProcessBibliography.id clark_jones.
Proof.
  split; [vm_compute; reflexivity|]. split; [|vm_compute; discriminate].
  set (r := ValidateReferences.match_citation_to_bibliography small jones_et_al).
  vm_compute in r. subst r. cbv beta iota.
  split; [vm_compute; reflexivity|]. apply Qc_is_canon. reflexivity.
Qed.

Lemma C1_witness :
  let authors := default [] (ExtractCitations.authors (ExtractCitations.normalized smith_2021)) in
  let year := default [] (ExtractCitations.year (ExtractCitations.normalized smith_2021)) in
  ((exists e, e ∈ exact_candidates small authors year /\ (0 < fuzzy authors e)%Qc)
   /\ best_among authors (exact_candidates small authors year) smith_match)
  \/ ((forall e, e ∈ exact_candidates small authors year -> (fuzzy authors e <= 0)%Qc)
      /\ (best_among authors (scan_candidates small authors year) smith_match
          \/ (scan_candidates small authors year = [] /\ smith_match = (None, 0%Qc)))).
Proof.
  apply (C1_single_match_search _ _ small smith_2021 smith_match small_loaded small_ids).
  - reflexivity.
  - discriminate.
  - vm_compute. discriminate.
  - vm_compute. discriminate.
  - vm_compute. reflexivity.
Defined.

Lemma C2_witness :
  ProcessBibliography.validation_status second_entry = ProcessBibliography.warning
  /\ last (ProcessBibliography.errors second_entry) = Some (lit "Entry should end with a period").
Proof.
  apply (C2_required_fields_and_period Samples.digest ProcessBibliography.BibliographyProcessor
           [Some Samples.bib_lines] Samples.entries second_entry).
  - vm_compute. reflexivity.
  - vm_compute. repeat constructor.
  - vm_compute. reflexivity.
  - vm_compute. reflexivity.
  - vm_compute. reflexivity.
  - vm_compute. reflexivity.
Defined.

Lemma C3_witness :
  ExtractCitations.confidence third_citation
  = specified_confidence (ExtractCitations.normalized third_citation)
  /\ (0.1 <=? ExtractCitations.confidence third_citation)%float = true
  /\ (ExtractCitations.confidence third_citation <=? 1.0)%float = true.
Proof.
  apply (C3_confidence_formula_and_bounds Samples.digest ExtractCitations.CITATION_PATTERNS
           (lit "a.md") (ExtractCitations.Content Samples.text) Samples.cites third_citation).
  - vm_compute. reflexivity.
  - vm_compute. repeat constructor.
Defined.



Lemma C6_witness :
  (forall c, c ∈ Samples.cites ->
     exists l, ExtractCitations.location c = Some l
       /\ ExtractCitations.id c
          = ExtractCitations._generate_citation_id Samples.digest (ExtractCitations.raw_text c)
              (ExtractCitations.location_key (ExtractCitations.file l) (ExtractCitations.line l)
                 (ExtractCitations.column l - 1)))
  /\ (forall patterns' filepath' f' cs' c c',
        ExtractCitations.extract_from_file Samples.digest patterns' filepath' f' = Ok cs' ->
        c ∈ Samples.cites -> c' ∈ cs' ->
        ExtractCitations.raw_text c = ExtractCitations.raw_text c' -> place c = place c' ->
        ExtractCitations.id c = ExtractCitations.id c')
  /\ (forall cs',
        ExtractCitations.extract_from_file Samples.digest ExtractCitations.CITATION_PATTERNS
          (lit "a.md") (ExtractCitations.Content Samples.text) = Ok cs' ->
        map ExtractCitations.id cs' = map ExtractCitations.id Samples.cites).
Proof.
  apply (C6_citation_id_deterministic Samples.digest ExtractCitations.CITATION_PATTERNS
           (lit "a.md") (ExtractCitations.Content Samples.text) Samples.cites).
  vm_compute. reflexivity.
Defined.

Lemma C8_witness :
  (third_match = (Some multiple_valid, ValidateReferences.q0_9)
   <-> forall s, s ∈ third_subs ->
         exists e q, e ∈ ValidateReferences.bibliography pipeline
           /\ ProcessBibliography.id e <> []
           /\ ValidateReferences._find_single_match pipeline
                (ExtractCitations.sub_authors s) (ExtractCitations.sub_year s)
              = Ok (Some (ProcessBibliography.id e), q))
  /\ (third_match = (Some multiple_valid, ValidateReferences.q0_9)
      \/ third_match = (None, 0%Qc))
  /\ (forall fi,
        ValidateReferences.matched_bibliography
          (ValidateReferences.make_result pipeline third_citation fi third_match) = third_match.1
        /\ ValidateReferences.confidence
             (ValidateReferences.make_result pipeline third_citation fi third_match)
           = third_match.2).
Proof.
  apply (C8_multiple_citations _ _ pipeline third_citation third_subs third_match pipeline_loaded).
  - vm_compute. reflexivity.
  - vm_compute. reflexivity.
Defined.



(** The run of the example: of the five lines, the header and the blank
    line give no entry; the third line, on which the parser raises, gives an
    invalid entry that records the message; the fourth and the fifth are
    parsed as without the exception. *)
Lemma failing_run :
  match ProcessBibliography.load_and_parse Samples.digest failing [Some Samples.bib_lines] with
  | Ok entries =>
      map (fun x => (ProcessBibliography.line_number x, ProcessBibliography.validation_status x,
                     head (ProcessBibliography.errors x))) entries
      = [ (3, ProcessBibliography.invalid, Some (lit "Parsing error: boom"));
          (4, ProcessBibliography.warning, Some (lit "Entry should end with a period"));
          (5, ProcessBibliography.valid, None) ]
  | Raised _ => False
  end.
Proof. vm_compute. reflexivity. Qed.


Lemma pipeline_run :
  map (fun r => (ValidateReferences.status r,
                 ValidateReferences.truthy (ValidateReferences.matched_bibliography r)))
      (ValidateReferences.validate_all pipeline).1
  = [ (ProcessBibliography.valid, true); (ProcessBibliography.invalid, false);
      (ProcessBibliography.valid, true) ]
  /\ match (ValidateReferences.validate_all pipeline).2 with
     | Ok report => ValidateReferences.total_citations report = 3
                    /\ ValidateReferences.invalid_citations report = 1
     | Raised _ => False
     end.
Proof. vm_compute. repeat split; reflexivity. Qed.


(** ** Instances of the further facts *)

Definition smith_jones : list ProcessBibliography.author :=
  [ ProcessBibliography.Author (lit "Jones") (lit "M.") (lit "Jones, M.");
    ProcessBibliography.Author (lit "Smith") (lit "J.") (lit "Smith, J.") ].

Lemma X3_witness :
  ValidateReferences._fuzzy_match_authors [lit "SMITH"; lit "Jones"] smith_jones = 1%Qc.
Proof.
  apply (X3_author_score_exact [lit "SMITH"; lit "Jones"] smith_jones).
  - discriminate.
  - repeat constructor.
  - constructor; [|constructor; [|constructor]].
    + exists (ProcessBibliography.Author (lit "Smith") (lit "J.") (lit "Smith, J.")).
      split; [right; left|]. vm_compute. reflexivity.
    + exists (ProcessBibliography.Author (lit "Jones") (lit "M.") (lit "Jones, M.")).
      split; [left|]. vm_compute. reflexivity.
Defined.

Definition first_result : ValidateReferences.ValidationResult :=
  nth 0 (ValidateReferences.validate_all pipeline).1 dummy_result.

Lemma X4_witness :
  score (ValidateReferences.confidence first_result)
  /\ (ValidateReferences.status first_result = ProcessBibliography.valid
      <-> ValidateReferences.issues first_result = [])
  /\ (ValidateReferences.status first_result = ProcessBibliography.valid ->
      ValidateReferences.truthy (ValidateReferences.matched_bibliography first_result) = true
      /\ (ValidateReferences.q0_8 <= ValidateReferences.confidence first_result)%Qc)
  /\ (ValidateReferences.status first_result = ProcessBibliography.warning ->
      ValidateReferences.truthy (ValidateReferences.matched_bibliography first_result) = true)
  /\ (ValidateReferences.suggestions first_result <> [] ->
      ValidateReferences.status first_result = ProcessBibliography.invalid)
  /\ ((exists i, i ∈ ValidateReferences.issues first_result
         /\ ValidateReferences.i_type i = ValidateReferences.low_confidence_match)
      <-> ValidateReferences.truthy (ValidateReferences.matched_bibliography first_result) = true
          /\ (ValidateReferences.confidence first_result < ValidateReferences.q0_8)%Qc).
Proof.
  apply (X4_result_shape pipeline first_result).
  vm_compute. repeat constructor.
Defined.

Definition empty_report : ValidateReferences.ValidationReport :=
  ValidateReferences.MkReport 0 0 0 0 [] [] [] 0 0 0 None.
Definition pipeline_report : ValidateReferences.ValidationReport :=
  match (ValidateReferences.validate_all pipeline).2 with
  | Ok report => report
  | Raised _ => empty_report
  end.

Lemma pipeline_reported : (ValidateReferences.validate_all pipeline).2 = Ok pipeline_report.
Proof. vm_compute. reflexivity. Qed.

Lemma X5_witness :
  (ValidateReferences.validate_all pipeline).1
  = map (result_of pipeline) (ValidateReferences.citations pipeline)
  /\ ValidateReferences.total_citations pipeline_report
     = length (ValidateReferences.validate_all pipeline).1
  /\ ValidateReferences.valid_citations pipeline_report
     + ValidateReferences.invalid_citations pipeline_report
     + ValidateReferences.warnings pipeline_report
     = ValidateReferences.total_citations pipeline_report
  /\ ValidateReferences.missing_bibliography_list pipeline_report
     = omap (missing_record pipeline) (ValidateReferences.citations pipeline)
  /\ length (ValidateReferences.missing_bibliography_list pipeline_report)
     = ValidateReferences.invalid_citations pipeline_report
  /\ ValidateReferences.format_violations pipeline_report
     = omap violation_record (ValidateReferences.citations pipeline)
  /\ ValidateReferences.unique_citations pipeline_report
     <= ValidateReferences.total_citations pipeline_report
  /\ Forall (fun kv => 5 < kv.2) (ValidateReferences.duplicate_citations pipeline_report)
  /\ ValidateReferences.total_bibliography_entries pipeline_report
     = length (ValidateReferences.bibliography pipeline)
  /\ ValidateReferences.bibliography_with_issues pipeline_report
     <= ValidateReferences.total_bibliography_entries pipeline_report.
Proof.
  apply (X5_report_accounting pipeline pipeline_report). exact pipeline_reported.
Defined.

Lemma pipeline_ids e :
  e ∈ ValidateReferences.bibliography pipeline ->
  plain_id e /\ ProcessBibliography.id e <> [].
Proof.
  intros He%list_elem_of_In. vm_compute in He.
  destruct He as [<-|[<-|[<-|[]]]]; (split; [|vm_compute; discriminate]);
    unfold plain_id; rewrite list_elem_of_In; vm_compute; intuition discriminate.
Qed.

Lemma pipeline_authors c :
  c ∈ ValidateReferences.citations pipeline ->
  ExtractCitations.authors (ExtractCitations.normalized c) <> Some [].
Proof.
  intros Hc%list_elem_of_In. vm_compute in Hc.
  destruct Hc as [<-|[<-|[<-|[]]]]; vm_compute; discriminate.
Qed.

Lemma X6_witness :
  (forall citation, exists m,
      ValidateReferences.match_citation_to_bibliography pipeline citation = Ok m)
  /\ ((forall c, c ∈ ValidateReferences.citations pipeline ->
         ExtractCitations.authors (ExtractCitations.normalized c) <> Some []) ->
      exists report, (ValidateReferences.validate_all pipeline).2 = Ok report)
  /\ ((exists c, c ∈ ValidateReferences.citations pipeline
         /\ ExtractCitations.authors (ExtractCitations.normalized c) = Some []) ->
      (ValidateReferences.validate_all pipeline).2 = Raised index_error).
Proof.
  apply (X6_validate_all_completes _ _ pipeline pipeline_loaded).
  intros e He. by apply pipeline_ids.
Defined.

(** A citation with an empty list of authors: [validate_all] raises. *)
Definition authorless : ExtractCitations.Citation :=
  citation_of (lit "c3") (lit "(2021)") ExtractCitations.parenthetical [] (lit "2021").

Lemma authorless_run :
  (ValidateReferences.validate_all (loaded [smith_2021; authorless; jones_et_al]
                                           [clark_jones; jonas; smith])).2
  = Raised index_error
  /\ length (ValidateReferences.validate_all (loaded [smith_2021; authorless; jones_et_al]
                                                     [clark_jones; jonas; smith])).1 = 2.
Proof. split; vm_compute; reflexivity. Qed.

Lemma small_plain_ids e :
  e ∈ ValidateReferences.bibliography small -> plain_id e /\ ProcessBibliography.id e <> [].
Proof.
  intros He%list_elem_of_In. vm_compute in He.
  destruct He as [<-|[<-|[<-|[]]]]; (split; [|vm_compute; discriminate]);
    unfold plain_id; rewrite list_elem_of_In; vm_compute; intuition discriminate.
Qed.

Lemma X8_witness :
  exists e', e' ∈ ValidateReferences.bibliography small
    /\ ValidateReferences._find_single_match small [lit "Smith"] (lit "2021")
       = Ok (Some (ProcessBibliography.id e'), 1%Qc)
    /\ fuzzy [lit "Smith"] e' = 1%Qc.
Proof.
  apply (X8_filed_entry_found _ _ small smith
           (ProcessBibliography.Author (lit "Smith") [] (lit "Smith")) (lit "2021") small_loaded
           small_plain_ids).
  - vm_compute. repeat constructor.
  - reflexivity.
  - reflexivity.
  - vm_compute. repeat constructor.
  - vm_compute. discriminate.
  - vm_compute. reflexivity.
Defined.

Lemma entries_loaded :
  ProcessBibliography.load_and_parse Samples.digest ProcessBibliography.BibliographyProcessor
    [Some Samples.bib_lines] = Ok Samples.entries.
Proof. vm_compute. reflexivity. Qed.

Lemma second_entry_loaded : second_entry ∈ Samples.entries.
Proof. vm_compute. repeat constructor. Qed.

Lemma X9_witness :
  nonempty (ProcessBibliography.raw_text second_entry) = true
  /\ strip (ProcessBibliography.raw_text second_entry) = ProcessBibliography.raw_text second_entry
  /\ starts_with (lit "#") (ProcessBibliography.raw_text second_entry) = false
  /\ 1 <= ProcessBibliography.line_number second_entry
  /\ ProcessBibliography.type second_entry
     = ProcessBibliography._detect_entry_type (ProcessBibliography.raw_text second_entry)
  /\ ProcessBibliography.id second_entry
     = ProcessBibliography._generate_entry_id Samples.digest
         (ProcessBibliography.raw_text second_entry) (ProcessBibliography.line_number second_entry)
  /\ (ProcessBibliography.validation_status second_entry = ProcessBibliography.valid
      <-> ProcessBibliography.errors second_entry = [])
  /\ (ProcessBibliography.validation_status second_entry = ProcessBibliography.warning
      <-> ProcessBibliography.errors second_entry = [period_message])
  /\ (ProcessBibliography.validation_status second_entry = ProcessBibliography.invalid
      <-> ProcessBibliography.authors_missing (ProcessBibliography.parsed second_entry)
          || ProcessBibliography.year_missing (ProcessBibliography.parsed second_entry)
          || ProcessBibliography.title_missing (ProcessBibliography.parsed second_entry) = true).
Proof.
  exact (X9_entry_invariants Samples.digest ProcessBibliography.BibliographyProcessor
           [Some Samples.bib_lines] Samples.entries second_entry entries_loaded
           second_entry_loaded).
Defined.

Lemma X10_witness :
  ((ValidateReferences.validate_bibliography_format second_entry).1 = ProcessBibliography.invalid
   <-> ProcessBibliography.validation_status second_entry <> ProcessBibliography.valid)
  /\ (forall msg, msg ∈ ProcessBibliography.errors second_entry ->
        msg ∈ (ValidateReferences.validate_bibliography_format second_entry).2)
  /\ ((ValidateReferences.validate_bibliography_format second_entry).1 = ProcessBibliography.valid ->
      ProcessBibliography.validation_status second_entry = ProcessBibliography.valid
      /\ (ValidateReferences.validate_bibliography_format second_entry).2 = []).
Proof.
  exact (X10_processed_entry_format Samples.digest ProcessBibliography.BibliographyProcessor
           [Some Samples.bib_lines] Samples.entries second_entry entries_loaded
           second_entry_loaded).
Defined.

(** The second sample entry has no final period: a warning for the
    processor, invalid for the validator, with both messages. *)
Lemma second_entry_format :
  ProcessBibliography.validation_status second_entry = ProcessBibliography.warning
  /\ ValidateReferences.validate_bibliography_format second_entry
     = (ProcessBibliography.invalid,
        [lit "Bibliography entry should end with a period";
         lit "Entry should end with a period"]).
Proof. split; vm_compute; reflexivity. Qed.
